(** * EmbyToAlist: the byte-range disk cache (components/cache.py)

    A shallow embedding of [read_file], [write_cache_file],
    [read_cache_file] and [get_cache_status].  The cache directory tree is
    an explicit store, every filesystem and network effect is a step of a
    small state-and-exception monad, and each Python exception that the
    source can raise is a value of [exn]. *)

From Stdlib Require Import ZArith List String Ascii Bool Lia.
From Stdlib Require Import DecimalString DecimalZ DecimalPos.
From Equations Require Import Equations.
Import ListNotations.

Local Open Scope string_scope.
Local Open Scope list_scope.
Local Open Scope Z_scope.

Set Implicit Arguments.

(* ===================================================================== *)
(** ** Python built-ins used by the cache *)
(* ===================================================================== *)

Module Py.

(** [s.startswith(p)] *)
Definition startswith (s p : string) : bool := String.prefix p s.

(** [s.endswith(p)]: [p] is [s] itself or a suffix of the tail of [s]. *)
Fixpoint endswith (s p : string) : bool :=
  String.eqb s p ||
  match s with
  | EmptyString => false
  | String _ s' => endswith s' p
  end.

(** [s.split(sep)] for a one-character separator: never empty, and
    consecutive separators give empty fields. *)
Fixpoint split (sep : ascii) (s : string) : list string :=
  match s with
  | EmptyString => [EmptyString]
  | String c s' =>
      if Ascii.eqb c sep then EmptyString :: split sep s'
      else match split sep s' with
           | w :: ws => String c w :: ws
           | [] => [String c EmptyString]
           end
  end.

(** [l[i:j]] for non-negative literal bounds. *)
Definition slice {A : Type} (i j : nat) (l : list A) : list A :=
  firstn (j - i) (skipn i l).

(** The ASCII characters that [str.strip] and [int] treat as white space:
    TAB, LF, VT, FF, CR, FS, GS, RS, US and SPACE. *)
Definition isspace (c : ascii) : bool :=
  let n := nat_of_ascii c in
  ((9 <=? n) && (n <=? 13) || (28 <=? n) && (n <=? 32))%nat.

Fixpoint lstrip (s : string) : string :=
  match s with
  | EmptyString => EmptyString
  | String c s' => if isspace c then lstrip s' else s
  end.

Fixpoint rstrip (s : string) : string :=
  match s with
  | EmptyString => EmptyString
  | String c s' =>
      match rstrip s' with
      | EmptyString => if isspace c then EmptyString else String c EmptyString
      | r => String c r
      end
  end.

Definition strip (s : string) : string := lstrip (rstrip s).

(** [int(s)] on an ASCII string: surrounding white space is dropped, one
    sign is allowed, at least one decimal digit is required.  [None] is
    the [ValueError] of an invalid literal.  (Digit-group underscores
    cannot reach [int] here: the text was split on ['_'] before.) *)
Definition py_int (s : string) : option Z :=
  match strip s with
  | String "+" r => option_map Z.of_uint (NilZero.uint_of_string r)
  | t => option_map Z.of_int (NilZero.int_of_string t)
  end.

(** [str(z)], also what an f-string writes for an [int]. *)
Definition py_str (z : Z) : string := NilZero.string_of_int (Z.to_int z).

End Py.

(* ===================================================================== *)
(** ** Data model *)
(* ===================================================================== *)

Definition bytes := list Byte.byte.

(** Modelled from the spec: the enumeration [CacheStatus] is declared in
    [main], which is not part of the sources at hand; the spec lists its
    four members. *)
Inductive CacheStatus := HIT | PARTIAL | HIT_TAIL | MISS.

(** Modelled from the spec: [FileInfo] is declared in [main]; the fields
    are the ones the cache reads. *)
Record FileInfo := {
  path : string;
  size : Z;
  cache_file_size : Z;
  type : string
}.

(** Modelled from the spec: [RequestInfo] is declared in [main]. *)
Record RequestInfo := {
  file_info : FileInfo;
  start_byte : Z;
  end_byte : Z;
  host_url : string;
  cache_status : CacheStatus
}.

Definition CacheStatus_eqb (a b : CacheStatus) : bool :=
  match a, b with
  | HIT, HIT | PARTIAL, PARTIAL | HIT_TAIL, HIT_TAIL | MISS, MISS => true
  | _, _ => false
  end.

(** The value a Python function hands back: [write_cache_file] returns
    [True], [False], or falls out through a bare [return]. *)
Inductive py_value := PyNone | PyBool (b : bool).

(** Exceptions that the modelled operations raise. *)
Inductive exn :=
| FileNotFoundError
| ValueError
| IndexError
| OSError
| NetworkError.

(* ===================================================================== *)
(** ** The cache directory tree *)
(* ===================================================================== *)

(** One cache directory: its entries in the order in which [os.listdir]
    gives them, each with its content.  The order is not fixed by the
    filesystem: statements about a given directory hold for every order
    of its entries. *)
Definition directory := list (string * bytes).

(** A cache directory is addressed by [(subdirname, dirname)] below the
    fixed root [cache_path]. *)
Definition dirkey := (string * string)%type.

Definition dirkey_eqb (a b : dirkey) : bool :=
  String.eqb (fst a) (fst b) && String.eqb (snd a) (snd b).

Definition filesystem := dirkey -> option directory.

Definition names (d : directory) : list string := map fst d.

Definition has_file (name : string) (d : directory) : bool :=
  existsb (String.eqb name) (names d).

Fixpoint lookup_file (name : string) (d : directory) : option bytes :=
  match d with
  | [] => None
  | (n, c) :: d' => if String.eqb n name then Some c else lookup_file name d'
  end.

Definition delete_file (name : string) (d : directory) : directory :=
  filter (fun e => negb (String.eqb (fst e) name)) d.

(** [open(name, 'w')]: an existing file is truncated where it stands, a
    new one is listed last. *)
Definition truncate_file (name : string) (d : directory) : directory :=
  if has_file name d
  then map (fun e => if String.eqb (fst e) name then (name, []) else e) d
  else d ++ [(name, [])].

Definition append_file (name : string) (data : bytes) (d : directory) : directory :=
  map (fun e => if String.eqb (fst e) name then (name, snd e ++ data) else e) d.

Definition set_dir (k : dirkey) (d : directory) (f : filesystem) : filesystem :=
  fun k' => if dirkey_eqb k k' then Some d else f k'.

Definition empty_fs : filesystem := fun _ => None.

(* ===================================================================== *)
(** ** Effects *)
(* ===================================================================== *)

Inductive level := DEBUG | INFO | WARNING | ERROR.

Definition headers := list (string * string).

(** What an operation did, in order. *)
Inductive event :=
| EvLog (l : level)
| EvMakedirs (k : dirkey)
| EvListdir (k : dirkey)
| EvOpenW (k : dirkey) (name : string)
| EvWrite (k : dirkey) (name : string) (chunk : bytes)
| EvRemove (k : dirkey) (name : string)
| EvGet (url : string) (h : headers).

Record world := {
  fs : filesystem;
  trace : list event
}.

Inductive result (A : Type) :=
| Ok (a : A)
| Raise (e : exn).
Arguments Ok {A} a.
Arguments Raise {A} e.

Definition M (A : Type) : Type := world -> result A * world.

Definition ret {A : Type} (a : A) : M A := fun w => (Ok a, w).

Definition raise {A : Type} (e : exn) : M A := fun w => (Raise e, w).

Definition bind {A B : Type} (m : M A) (f : A -> M B) : M B :=
  fun w =>
    match m w with
    | (Ok a, w') => f a w'
    | (Raise e, w') => (Raise e, w')
    end.

(** [try: m  except Exception: h] *)
Definition try_except {A : Type} (m : M A) (h : exn -> M A) : M A :=
  fun w =>
    match m w with
    | (Ok a, w') => (Ok a, w')
    | (Raise e, w') => h e w'
    end.

Declare Scope cache_scope.
Delimit Scope cache_scope with cache.
Notation "x <- m ;; k" := (bind m (fun x => k))
  (at level 61, m at next level, right associativity) : cache_scope.
Notation "m ;; k" := (bind m (fun _ => k))
  (at level 61, right associativity) : cache_scope.
Local Open Scope cache_scope.

Definition emit (e : event) : M unit :=
  fun w => (Ok tt, {| fs := fs w; trace := trace w ++ [e] |}).

Definition log (l : level) : M unit := emit (EvLog l).

Definition put_dir (k : dirkey) (d : directory) : M unit :=
  fun w => (Ok tt, {| fs := set_dir k d (fs w); trace := trace w |}).

(** [os.makedirs(dir, exist_ok=True)] *)
Definition makedirs (k : dirkey) : M unit :=
  emit (EvMakedirs k) ;;
  fun w =>
    match fs w k with
    | Some _ => ret tt w
    | None => put_dir k [] w
    end.

(** [os.path.exists(dir)] *)
Definition path_exists (k : dirkey) : M bool :=
  fun w => (Ok (match fs w k with Some _ => true | None => false end), w).

(** [os.listdir(dir)]: a snapshot of the names. *)
Definition listdir (k : dirkey) : M (list string) :=
  emit (EvListdir k) ;;
  fun w =>
    match fs w k with
    | Some d => ret (names d) w
    | None => raise FileNotFoundError w
    end.

(** [open(dir/name, 'w')] and [open(dir/name, 'wb')] *)
Definition open_w (k : dirkey) (name : string) : M unit :=
  emit (EvOpenW k name) ;;
  fun w =>
    match fs w k with
    | Some d => put_dir k (truncate_file name d) w
    | None => raise FileNotFoundError w
    end.

(** [f.write(chunk)] on a file opened for writing *)
Definition file_write (k : dirkey) (name : string) (chunk : bytes) : M unit :=
  emit (EvWrite k name chunk) ;;
  fun w =>
    match fs w k with
    | Some d => put_dir k (append_file name chunk d) w
    | None => raise OSError w
    end.

(** [aiofiles.os.remove(dir/name)] *)
Definition remove (k : dirkey) (name : string) : M unit :=
  emit (EvRemove k name) ;;
  fun w =>
    match fs w k with
    | Some d =>
        if has_file name d then put_dir k (delete_file name d) w
        else raise FileNotFoundError w
    | None => raise FileNotFoundError w
    end.

(* ===================================================================== *)
(** ** [read_file]: the chunked stream over one file *)
(* ===================================================================== *)

(** [f.read(n)] of a buffered binary reader on a regular file; [rest] is
    what lies between the current position and the end of the file.  The
    answer is the data and what is left after it; [None] is the
    [ValueError] for a length below [-1], and [-1] reads to the end. *)
Definition file_read (rest : bytes) (n : Z) : option (bytes * bytes) :=
  if n <? -1 then None
  else if n =? -1 then Some (rest, [])
  else Some (firstn (Z.to_nat n) rest, skipn (Z.to_nat n) rest).

(** One turn of the [while True] loop of [read_file]. *)
Inductive read_step_result :=
| Break
| Fault (e : exn)
| Yield (data rest' : bytes) (chunk_size' : Z).

Definition read_chunk (rest : bytes) (chunk_size : Z) : read_step_result :=
  match file_read rest chunk_size with
  | None => Fault ValueError
  | Some ([], _) => Break
  | Some (data, rest') => Yield data rest' chunk_size
  end.

Definition read_step (end_point : option Z) (rest : bytes) (pos chunk_size : Z)
  : read_step_result :=
  match end_point with
  | Some e =>
      let remaining := (e + 1) - pos in
      if remaining <=? 0 then Break
      else read_chunk rest (Z.min chunk_size remaining)
  | None => read_chunk rest chunk_size
  end.

Lemma read_chunk_yield rest cs data rest' cs' :
  read_chunk rest cs = Yield data rest' cs' ->
  data <> [] /\ rest = data ++ rest' /\ cs' = cs.
Proof.
  unfold read_chunk, file_read.
  destruct (cs <? -1); [discriminate|].
  destruct (cs =? -1).
  - destruct rest as [|b r]; [discriminate|].
    intros H; inversion H; subst. repeat split; [discriminate|].
    now rewrite app_nil_r.
  - destruct (firstn (Z.to_nat cs) rest) as [|b r] eqn:E; [discriminate|].
    intros H; inversion H; subst. repeat split; [discriminate|].
    rewrite <- E. symmetry. apply firstn_skipn.
Qed.

Lemma read_step_yield e rest pos cs data rest' cs' :
  read_step e rest pos cs = Yield data rest' cs' ->
  data <> [] /\ rest = data ++ rest'.
Proof.
  unfold read_step. destruct e as [e|].
  - destruct (e + 1 - pos <=? 0); [discriminate|].
    intros H. apply read_chunk_yield in H. tauto.
  - intros H. apply read_chunk_yield in H. tauto.
Qed.

Lemma read_step_decreases e rest pos cs data rest' cs' :
  read_step e rest pos cs = Yield data rest' cs' ->
  (List.length rest' < List.length rest)%nat.
Proof.
  intros H. apply read_step_yield in H. destruct H as [Hd ->].
  rewrite List.length_app. destruct data; [congruence|]. simpl. lia.
Qed.

(** The loop: the chunks it yields, and the exception that ended it, if
    one did.  [pos] is [f.tell()]. *)
Equations read_loop (end_point : option Z) (rest : bytes) (pos chunk_size : Z)
  : list bytes * option exn by wf (List.length rest) lt :=
read_loop end_point rest pos chunk_size
    with Logic.inspect (read_step end_point rest pos chunk_size) := {
  | exist _ Break _ => ([], None)
  | exist _ (Fault e) _ => ([], Some e)
  | exist _ (Yield data rest' cs) H =>
      let r := read_loop end_point rest' (pos + Z.of_nat (List.length data)) cs in
      (data :: fst r, snd r) }.
Next Obligation.
  eapply read_step_decreases; eauto.
Qed.

(** The body of the generator, run to its end.  A missing file, a failing
    seek and a failing read are all caught and logged; the chunks yielded
    before stay yielded. *)
Definition read_file (k : dirkey) (file : string)
    (start_point : Z) (end_point : option Z) (chunk_size : Z) : M (list bytes) :=
  fun w =>
    match match fs w k with Some d => lookup_file file d | None => None end with
    | None => (log ERROR ;; ret []) w
    | Some content =>
        if start_point <? 0 then (log ERROR ;; ret []) w
        else
          let r := read_loop end_point (skipn (Z.to_nat start_point) content)
                     start_point chunk_size in
          match snd r with
          | None => ret (fst r) w
          | Some _ => (log ERROR ;; ret (fst r)) w
          end
    end.

(** Default [chunk_size] of [read_file]: [1024*1024]. *)
Definition default_chunk_size : Z := 1024 * 1024.

(* ===================================================================== *)
(** ** Cache file names *)
(* ===================================================================== *)

(** [f'cache_file_{start_point}_{end_point}'] *)
Definition cache_file_name (start_point end_point : Z) : string :=
  ("cache_file_" ++ Py.py_str start_point ++ "_" ++ Py.py_str end_point)%string.

(** [f'{cache_file_name}.tag'] *)
Definition tag_name (start_point end_point : Z) : string :=
  (cache_file_name start_point end_point ++ ".tag")%string.

(** [file.startswith('cache_file_') and file.endswith('.tag') is False] *)
Definition is_cache_file (file : string) : bool :=
  Py.startswith file "cache_file_" && negb (Py.endswith file ".tag").

(** [a, b = map(int, file.split('_')[2:4])]; [None] is the [ValueError]
    of a field that is no integer or of fewer than two fields. *)
Definition parse_range (file : string) : option (Z * Z) :=
  match map Py.py_int (Py.slice 2 4 (Py.split "_" file)) with
  | [Some a; Some b] => Some (a, b)
  | _ => None
  end.

(* ===================================================================== *)
(** ** The upstream side of one call *)
(* ===================================================================== *)

Record Response := {
  status_code : Z;
  content : bytes
}.

Inductive get_outcome :=
| GetRaises
| GetReturns (resp : Response).

(** What the collaborators of one [write_cache_file] call do: the URL
    that [get_or_cache_alist_raw_url] (defined in [main]) resolves to, the
    outcome of [client.get], and the chunk (counted from 0) at which
    streaming the body into the cache file fails, if it does. *)
Record upstream := {
  raw_url : string;
  get : get_outcome;
  stream_fault : option nat
}.

(** [resp.aiter_bytes(chunk_size)] for [chunk_size >= 1]: pieces of
    [chunk_size] bytes, the last one possibly shorter, none for an empty
    body. *)
Equations aiter_bytes (chunk_size : nat) (data : bytes) : list bytes
  by wf (List.length data) lt :=
aiter_bytes chunk_size [] := [];
aiter_bytes chunk_size (b :: r) :=
  (b :: firstn (chunk_size - 1) r) :: aiter_bytes chunk_size (skipn (chunk_size - 1) r).
Next Obligation.
  rewrite List.length_skipn. simpl. lia.
Qed.

(** Assigning to a key of a [dict]: an existing key keeps its place. *)
Fixpoint dict_set (key value : string) (d : headers) : headers :=
  match d with
  | [] => [(key, value)]
  | (k0, v0) :: d' =>
      if String.eqb k0 key then (key, value) :: d'
      else (k0, v0) :: dict_set key value d'
  end.

(** [client.get(raw_url, headers=req_header)] *)
Definition http_get (client : upstream) (url : string) (h : headers) : M Response :=
  emit (EvGet url h) ;;
  match get client with
  | GetRaises => raise NetworkError
  | GetReturns resp => ret resp
  end.

(** [async for chunk in resp.aiter_bytes(...): await f.write(chunk)] *)
Fixpoint write_chunks (k : dirkey) (name : string) (chunks : list bytes)
    (fault : option nat) : M unit :=
  match chunks with
  | [] => ret tt
  | chunk :: rest =>
      match fault with
      | Some O => raise OSError
      | _ => file_write k name chunk ;;
             write_chunks k name rest (option_map Nat.pred fault)
      end
  end.

(** Lines 82 to 89: the range that a request materialises, [None] for a
    status that is not written. *)
Definition target_range (request_info : RequestInfo) : option (Z * Z) :=
  let file_size := size (file_info request_info) in
  let cache_size := cache_file_size (file_info request_info) in
  let start_point := start_byte request_info in
  match cache_status request_info with
  | HIT | PARTIAL => Some (0, cache_size - 1)
  | HIT_TAIL => Some (start_point, file_size - 1)
  | MISS => None
  end.

(** Lines 110 to 120: the pass over the directory listing.  The answer
    [true] is the early [return False]. *)
Fixpoint overlap_loop (k : dirkey) (start_point end_point : Z)
    (files : list string) : M bool :=
  match files with
  | [] => ret false
  | file :: rest =>
      if is_cache_file file then
        match parse_range file with
        | None => raise ValueError
        | Some (file_range_start, file_range_end) =>
            if (start_point >=? file_range_start) && (end_point <=? file_range_end) then
              log WARNING ;;
              remove k (tag_name start_point end_point) ;;
              ret true
            else if (start_point <=? file_range_start) && (end_point >=? file_range_end) then
              log WARNING ;;
              remove k file ;;
              overlap_loop k start_point end_point rest
            else overlap_loop k start_point end_point rest
        end
      else overlap_loop k start_point end_point rest
  end.

(** The suspended call [read_file(path, start, end)] that
    [read_cache_file] hands back. *)
Record generator := {
  gen_dir : dirkey;
  gen_file : string;
  gen_start : Z;
  gen_end : option Z;
  gen_chunk_size : Z
}.

(** Iterating the generator to its end. *)
Definition consume (g : generator) : M (list bytes) :=
  read_file (gen_dir g) (gen_file g) (gen_start g) (gen_end g) (gen_chunk_size g).

Section Cache.

(** [get_hash_subdirectory_from_path] is defined in [components.utils],
    outside the sources at hand: any function will do. *)
Variable get_hash_subdirectory_from_path : string -> string -> dirkey.

Definition cache_dir_of (request_info : RequestInfo) : dirkey :=
  get_hash_subdirectory_from_path
    (path (file_info request_info)) (type (file_info request_info)).

(** Lines 122 to 154: the request to the upstream and the copy of its
    body into the cache file, with the handler of the [try]. *)
Definition fetch_and_store (k : dirkey) (start_point end_point : Z)
    (req_header : option headers) (client : upstream) : M py_value :=
  let cache_file := cache_file_name start_point end_point in
  let cache_write_tag := tag_name start_point end_point in
  let req_header := match req_header with None => [] | Some h => h end in
  match nth_error (Py.split "/" (raw_url client)) 2 with
  | None => raise IndexError
  | Some host =>
      let req_header := dict_set "host" host req_header in
      let req_header :=
        dict_set "range"
          ("bytes=" ++ Py.py_str start_point ++ "-" ++ Py.py_str end_point)%string
          req_header in
      try_except
        (resp <- http_get client (raw_url client) req_header ;;
         (if status_code resp =? 206 then ret tt
          else log ERROR ;; raise ValueError) ;;
         open_w k cache_file ;;
         write_chunks k cache_file (aiter_bytes 1024 (content resp))
           (stream_fault client) ;;
         log INFO ;;
         remove k cache_write_tag ;;
         ret (PyBool true))
        (fun _ =>
           log ERROR ;;
           remove k cache_file ;;
           remove k cache_write_tag ;;
           ret (PyBool false))
  end.

(** [write_cache_file].  The lock only orders concurrent calls; a call is
    run here from its first line to its last. *)
Definition write_cache_file (item_id : string) (request_info : RequestInfo)
    (req_header : option headers) (client : upstream) : M py_value :=
  let k := cache_dir_of request_info in
  match target_range request_info with
  | None => log ERROR ;; ret PyNone
  | Some (start_point, end_point) =>
      log DEBUG ;;
      makedirs k ;;
      open_w k (tag_name start_point end_point) ;;
      files <- listdir k ;;
      aborted <- overlap_loop k start_point end_point files ;;
      if aborted : bool then ret (PyBool false)
      else fetch_and_store k start_point end_point req_header client
  end.

(** Lines 169 to 181 of [read_cache_file]. *)
Fixpoint find_cache_file (request_info : RequestInfo) (k : dirkey)
    (files : list string) : M (option generator) :=
  match files with
  | [] => log ERROR ;; ret None
  | file :: rest =>
      if is_cache_file file then
        match parse_range file with
        | None => raise ValueError
        | Some (range_start, range_end) =>
            if (range_start <=? start_byte request_info)
               && (start_byte request_info <=? range_end) then
              let adjusted_end_point :=
                match cache_status request_info with
                | PARTIAL | HIT_TAIL => None
                | _ => Some (end_byte request_info - start_byte request_info)
                end in
              log INFO ;;
              ret (Some {| gen_dir := k;
                           gen_file := file;
                           gen_start := start_byte request_info - range_start;
                           gen_end := adjusted_end_point;
                           gen_chunk_size := default_chunk_size |})
            else find_cache_file request_info k rest
        end
      else find_cache_file request_info k rest
  end.

Definition read_cache_file (request_info : RequestInfo) : M (option generator) :=
  let k := cache_dir_of request_info in
  files <- listdir k ;;
  find_cache_file request_info k files.

(** Lines 203 to 210 of [get_cache_status]. *)
Fixpoint probe_loop (request_info : RequestInfo) (files : list string) : M bool :=
  match files with
  | [] => log ERROR ;; ret false
  | file :: rest =>
      if Py.startswith file "cache_file_" then
        match parse_range file with
        | None => raise ValueError
        | Some (range_start, range_end) =>
            if (range_start <=? start_byte request_info)
               && (start_byte request_info <=? range_end) then ret true
            else probe_loop request_info rest
        end
      else probe_loop request_info rest
  end.

Definition get_cache_status (request_info : RequestInfo) : M bool :=
  let k := cache_dir_of request_info in
  present <- path_exists k ;;
  if negb present then log WARNING ;; ret false
  else
    files <- listdir k ;;
    if existsb (fun file => Py.endswith file ".tag") files then
      log WARNING ;; ret false
    else
      files <- listdir k ;;
      probe_loop request_info files.

End Cache.

(* ===================================================================== *)
(** ** What the claims speak of *)
(* ===================================================================== *)

(** *** Characters of a name *)

Fixpoint all_chars (P : ascii -> bool) (s : string) : bool :=
  match s with
  | EmptyString => true
  | String c s' => P c && all_chars P s'
  end.

(** The characters that [str] of an integer is made of. *)
Definition numchar (c : ascii) : bool :=
  match c with
  | "0" | "1" | "2" | "3" | "4" | "5" | "6" | "7" | "8" | "9" | "-" => true
  | _ => false
  end%char.

Definition differs (a c : ascii) : bool := negb (Ascii.eqb c a).

(** *** Streams and requests *)

(** The bytes of [content] at the offsets [first], ..., [last], as far as
    the file goes. *)
Definition file_slice (content : bytes) (first last : Z) : bytes :=
  firstn (Z.to_nat (last + 1 - first)) (skipn (Z.to_nat first) content).

(** The headers that go to the upstream. *)
Definition upstream_headers (s e : Z) (host : string)
    (req_header : option headers) : headers :=
  dict_set "range" ("bytes=" ++ Py.py_str s ++ "-" ++ Py.py_str e)%string
    (dict_set "host" host
       (match req_header with None => [] | Some h => h end)).

(** *** Invariants across an operation *)

(** [keeps I m]: whatever [m] returns or raises, a tree that satisfied [I]
    before still does afterwards. *)
Definition keeps {A : Type} (I : filesystem -> Prop) (m : M A) : Prop :=
  forall w, I (fs w) -> I (fs (snd (m w))).

(** What an invariant must survive to be kept by the writer. *)
Definition closed_under_delete (I : filesystem -> Prop) (k : dirkey) : Prop :=
  forall name f d, I f -> f k = Some d -> I (set_dir k (delete_file name d) f).

Definition closed_under_append (I : filesystem -> Prop) (k : dirkey) : Prop :=
  forall name chunk f d,
    I f -> f k = Some d -> I (set_dir k (append_file name chunk d) f).

Definition closed_under_truncate (I : filesystem -> Prop) (k : dirkey)
    (name : string) : Prop :=
  forall f d, I f -> f k = Some d -> I (set_dir k (truncate_file name d) f).

(** The first four steps of a write, run: the directory is there, holds
    the tag, and its listing has been taken. *)
Definition after_prefix (k : dirkey) (tag : string) (w : world) : world :=
  {| fs := set_dir k
             (truncate_file tag (match fs w k with Some d => d | None => [] end))
             (match fs w k with Some _ => fs w | None => set_dir k [] (fs w) end);
     trace := trace w ++ [EvLog DEBUG; EvMakedirs k; EvOpenW k tag; EvListdir k] |}.

Definition dir_exists (k : dirkey) (f : filesystem) : Prop := f k <> None.

(** *** Ranges in a directory *)

(** [outer] covers [inner], by the comparisons of lines 114 and 118. *)
Definition contains_range (outer inner : Z * Z) : Prop :=
  fst outer <= fst inner /\ snd inner <= snd outer.

(** The inclusive intervals share a byte. *)
Definition ranges_overlap (r1 r2 : Z * Z) : Prop :=
  exists x, fst r1 <= x <= snd r1 /\ fst r2 <= x <= snd r2.

(** A property of every two distinct cache files of a directory, read off
    their names. *)
Definition pairwise_ranges (R : Z * Z -> Z * Z -> Prop) (d : directory) : Prop :=
  forall n1 n2 r1 r2,
    In n1 (names d) -> In n2 (names d) -> n1 <> n2 ->
    is_cache_file n1 = true -> is_cache_file n2 = true ->
    parse_range n1 = Some r1 -> parse_range n2 = Some r2 ->
    R r1 r2.

(** The invariant as the spec words it: no two cache files overlap. *)
Definition no_overlap (d : directory) : Prop :=
  pairwise_ranges (fun r1 r2 => ~ ranges_overlap r1 r2) d.

(** What the writer maintains: no cache file covers another one. *)
Definition no_containment (d : directory) : Prop :=
  pairwise_ranges (fun r1 r2 => ~ contains_range r2 r1) d.

(** Every cache file of the directory has a name that gives a range. *)
Definition well_named (d : directory) : Prop :=
  forall n, In n (names d) -> is_cache_file n = true -> parse_range n <> None.

Definition every_directory (P : directory -> Prop) (f : filesystem) : Prop :=
  forall k d, f k = Some d -> P d.

(** A file that the pass over the listing leaves alone: it neither covers
    the target [s, e] nor lies within it. *)
Definition unrelated (s e : Z) (n : string) : Prop :=
  is_cache_file n = true ->
  forall a b, parse_range n = Some (a, b) ->
    ~ (a <= s /\ e <= b) /\ ~ (s <= a /\ b <= e).

(** The state of the pass with [files] still to visit: the tree is in
    order, and every entry of the directory is still to visit, is the
    target file itself, or is unrelated to the target. *)
Definition pending (k : dirkey) (s e : Z) (files : list string)
    (f : filesystem) : Prop :=
  every_directory no_containment f
  /\ exists d, f k = Some d
       /\ forall n, In n (names d) ->
            In n files \/ n = cache_file_name s e \/ unrelated s e n.

(** What the pass has established when it is over. *)
Definition pass_done (k : dirkey) (s e : Z) (r : result bool)
    (f : filesystem) : Prop :=
  match r with
  | Ok false => pending k s e [] f
  | _ => every_directory no_containment f
  end.

(** *** Sequences of calls *)

(** A sequence of writer calls. *)
Record call := {
  call_item_id : string;
  call_request : RequestInfo;
  call_headers : option headers;
  call_client : upstream
}.

Fixpoint run_calls (shard : string -> string -> dirkey) (calls : list call)
    (w : world) : world :=
  match calls with
  | [] => w
  | c :: rest =>
      run_calls shard rest
        (snd (write_cache_file shard (call_item_id c) (call_request c)
                (call_headers c) (call_client c) w))
  end.

Definition empty_world : world := {| fs := empty_fs; trace := [] |}.

(** *** Concrete runs *)

Module Example.

(** A stand-in for [get_hash_subdirectory_from_path]. *)
Definition shard (path type : string) : dirkey := (type, path).

Definition movie : FileInfo :=
  {| path := "/media/movie.mkv"; size := 2000; cache_file_size := 1000;
     type := "movie" |}.

Definition dir : dirkey := ("movie", "/media/movie.mkv").

Definition request (status : CacheStatus) (first last : Z) : RequestInfo :=
  {| file_info := movie; start_byte := first; end_byte := last;
     host_url := "http://emby.local"; cache_status := status |}.

(** An upstream that answers with [code] and [body]. *)
Definition answers (code : Z) (body : bytes) : upstream :=
  {| raw_url := "https://cdn.example/d/movie.mkv";
     get := GetReturns {| status_code := code; content := body |};
     stream_fault := None |}.

(** An upstream whose [get] raises. *)
Definition unreachable : upstream :=
  {| raw_url := "https://cdn.example/d/movie.mkv";
     get := GetRaises;
     stream_fault := None |}.

Definition head_call : call :=
  {| call_item_id := "42"; call_request := request HIT 0 999;
     call_headers := None;
     call_client := answers 206 [Byte.x01; Byte.x02] |}.

Definition tail_call : call :=
  {| call_item_id := "42"; call_request := request HIT_TAIL 500 1999;
     call_headers := None;
     call_client := answers 206 [Byte.x03] |}.

(** A file of five bytes, alone in its directory. *)
Definition five : world :=
  {| fs := set_dir dir
             [("f", [Byte.x01; Byte.x02; Byte.x03; Byte.x04; Byte.x05])]
             empty_fs;
     trace := [] |}.

(** A directory that holds [cache_file_0_1999]. *)
Definition covered : world :=
  {| fs := set_dir dir [("cache_file_0_1999", [Byte.x07])] empty_fs;
     trace := [] |}.

(** A directory that holds [cache_file_500_600]. *)
Definition narrow : world :=
  {| fs := set_dir dir [("cache_file_500_600", [Byte.x07])] empty_fs;
     trace := [] |}.

End Example.

(** *** What the further properties speak of *)

(** The name [file] gives a range that holds the offset [x]. *)
Definition covers (x : Z) (file : string) : Prop :=
  exists a b, parse_range file = Some (a, b) /\ a <= x <= b.

(** Some entry of the directory ends in [.tag]. *)
Definition has_tag (d : directory) : bool :=
  existsb (fun file => Py.endswith file ".tag") (names d).

(** The end point that [read_cache_file] hands to [read_file]. *)
Definition adjusted_end (request_info : RequestInfo) : option Z :=
  match cache_status request_info with
  | PARTIAL | HIT_TAIL => None
  | _ => Some (end_byte request_info - start_byte request_info)
  end.

(** The handler of the [try] of [write_cache_file], lines 150 to 154. *)
Definition cleanup (k : dirkey) (s e : Z) : M py_value :=
  log ERROR ;;
  remove k (cache_file_name s e) ;;
  remove k (tag_name s e) ;;
  ret (PyBool false).

(** [file] is a cache file whose range lies within [s, e]. *)
Definition within_target (s e : Z) (file : string) : Prop :=
  exists a b, is_cache_file file = true /\ parse_range file = Some (a, b)
              /\ s <= a /\ b <= e.

(** [file] is a cache file whose range covers [s, e]. *)
Definition covers_target (s e : Z) (file : string) : Prop :=
  exists a b, is_cache_file file = true /\ parse_range file = Some (a, b)
              /\ a <= s /\ e <= b.

(** The directory before the call, empty when it is not there yet. *)
Definition dir_before (w : world) (k : dirkey) : directory :=
  match fs w k with Some d => d | None => [] end.

(** What an invariant must survive to be kept by a write with target
    [s, e]: the making of the directory, the opening of the tag and of the
    cache file, the removal of these two and of the files within the
    target, and the growth of the cache file. *)
Definition survives_write (I : filesystem -> Prop) (k : dirkey) (s e : Z)
  : Prop :=
  (forall f, I f -> f k = None -> I (set_dir k [] f))
  /\ (forall f d name,
        name = cache_file_name s e \/ name = tag_name s e ->
        I f -> f k = Some d -> I (set_dir k (truncate_file name d) f))
  /\ (forall f d name,
        name = cache_file_name s e \/ name = tag_name s e
        \/ within_target s e name ->
        I f -> f k = Some d -> I (set_dir k (delete_file name d) f))
  /\ (forall f d chunk,
        I f -> f k = Some d ->
        I (set_dir k (append_file (cache_file_name s e) chunk d) f)).

(** [d.get(key)] on the headers. *)
Fixpoint dict_get (key : string) (d : headers) : option string :=
  match d with
  | [] => None
  | (k0, v0) :: d' => if String.eqb k0 key then Some v0 else dict_get key d'
  end.

(** The requests to the upstream among some events, in order. *)
Definition requests (evs : list event) : list (string * headers) :=
  flat_map (fun ev => match ev with EvGet url h => [(url, h)] | _ => [] end) evs.

(** [adds Q m]: whatever [m] returns or raises, it only appends events to
    the trace, and the events it appends satisfy [Q]. *)
Definition adds {A : Type} (Q : list event -> Prop) (m : M A) : Prop :=
  forall w, exists evs, trace (snd (m w)) = trace w ++ evs /\ Q evs.

(** No request goes upstream. *)
Definition silent {A : Type} (m : M A) : Prop :=
  adds (fun evs => requests evs = []) m.

Module Scene.

(** A directory that holds [cache_file_0_1999] and the tag of a write of
    [0, 999] that did not come to its end. *)
Definition tagged : world :=
  {| fs := set_dir Example.dir
             [("cache_file_0_1999", [Byte.x07]); ("cache_file_0_999.tag", [])]
             empty_fs;
     trace := [] |}.

(** The world after [0, 999] has been written over [Example.narrow]. *)
Definition stored : world :=
  snd (write_cache_file Example.shard "42" (Example.request HIT 0 999) None
         (Example.answers 206 [Byte.x01; Byte.x02]) Example.narrow).

(** The world after a write of [0, 999] over [Example.narrow] whose
    upstream could not be reached. *)
Definition failed : world :=
  snd (write_cache_file Example.shard "42" (Example.request HIT 0 999) None
         Example.unreachable Example.narrow).

(** A directory that holds the five bytes of the range [10, 14]. *)
Definition small : world :=
  {| fs := set_dir Example.dir
             [("cache_file_10_14",
               [Byte.x01; Byte.x02; Byte.x03; Byte.x04; Byte.x05])]
             empty_fs;
     trace := [] |}.

(** The stream over [cache_file_10_14] for the bytes 11 to 13. *)
Definition stream : generator :=
  {| gen_dir := Example.dir; gen_file := "cache_file_10_14";
     gen_start := 1; gen_end := Some 2; gen_chunk_size := 1024 * 1024 |}.

(** A tail write of [1500, 1999] whose upstream answers 404. *)
Definition failed_tail : call :=
  {| call_item_id := "42"; call_request := Example.request HIT_TAIL 1500 1999;
     call_headers := None; call_client := Example.answers 404 [] |}.

(** A tail write of [1200, 1999] that succeeds. *)
Definition wider_tail : call :=
  {| call_item_id := "42"; call_request := Example.request HIT_TAIL 1200 1999;
     call_headers := None; call_client := Example.answers 206 [Byte.x03] |}.

(** The tree after these two writes on an empty one: the first has left
    its tag, the second its cache file. *)
Definition stale : world :=
  run_calls Example.shard [failed_tail; wider_tail] empty_world.

(** A body of 1000 bytes. *)
Definition thousand : bytes := List.repeat Byte.x2a 1000%nat.

(** Headers as a caller passes them. *)
Definition caller_headers : headers :=
  [("user-agent", "emby"); ("host", "emby.local")].

End Scene.

(* ===================================================================== *)
(** ** First checks of the model *)
(* ===================================================================== *)

Example read_loop_ex :
  read_loop (Some 3) [Byte.x01; Byte.x02; Byte.x03; Byte.x04; Byte.x05] 1 2
  = ([[Byte.x01; Byte.x02]; [Byte.x03]], None).
Proof. reflexivity. Qed.

Example cache_file_name_ex : cache_file_name 0 999 = "cache_file_0_999".
Proof. reflexivity. Qed.

Example parse_range_ex : parse_range "cache_file_500_1999" = Some (500, 1999).
Proof. reflexivity. Qed.

Example parse_range_tag_ex : parse_range "cache_file_0_999.tag" = None.
Proof. reflexivity. Qed.

(* ===================================================================== *)
(** ** Facts about names: printing and parsing ranges *)
(* ===================================================================== *)

Module NameFacts.

Lemma all_chars_app P a b :
  all_chars P (a ++ b)%string = all_chars P a && all_chars P b.
Proof.
  induction a as [|c a IH]; simpl; [reflexivity|].
  now rewrite IH, andb_assoc.
Qed.

Lemma all_chars_weaken (P Q : ascii -> bool) s :
  (forall c, P c = true -> Q c = true) ->
  all_chars P s = true -> all_chars Q s = true.
Proof.
  intros HPQ. induction s as [|c s IH]; simpl; [reflexivity|].
  rewrite !andb_true_iff. intros [Hc Hs]. split; auto.
Qed.

Lemma numchar_facts c :
  numchar c = true ->
  Py.isspace c = false /\ differs "_" c = true /\ differs "g" c = true
  /\ differs "+" c = true.
Proof.
  destruct c as [[] [] [] [] [] [] [] []]; vm_compute; intros H;
    try discriminate H; repeat split.
Qed.

Lemma numchar_uint d : all_chars numchar (NilEmpty.string_of_uint d) = true.
Proof. induction d; simpl; auto. Qed.

Lemma numchar_py_str z : all_chars numchar (Py.py_str z) = true.
Proof.
  unfold Py.py_str, NilZero.string_of_int, NilZero.string_of_uint.
  destruct (Z.to_int z) as [d|d]; destruct d; simpl; auto using numchar_uint.
Qed.

Lemma lstrip_id s :
  all_chars (fun c => negb (Py.isspace c)) s = true -> Py.lstrip s = s.
Proof.
  destruct s as [|c s]; simpl; [reflexivity|].
  rewrite andb_true_iff, negb_true_iff. now intros [-> _].
Qed.

Lemma rstrip_id s :
  all_chars (fun c => negb (Py.isspace c)) s = true -> Py.rstrip s = s.
Proof.
  induction s as [|c s IH]; simpl; [reflexivity|].
  rewrite andb_true_iff, negb_true_iff. intros [Hc Hs].
  rewrite (IH Hs). destruct s; [now rewrite Hc | reflexivity].
Qed.

Lemma strip_py_str z : Py.strip (Py.py_str z) = Py.py_str z.
Proof.
  assert (H : all_chars (fun c => negb (Py.isspace c)) (Py.py_str z) = true).
  { apply all_chars_weaken with (P := numchar); [|apply numchar_py_str].
    intros c Hc. apply numchar_facts in Hc. now rewrite (proj1 Hc). }
  unfold Py.strip. rewrite (rstrip_id _ H). now apply lstrip_id.
Qed.

Lemma to_int_proper z :
  Z.to_int z <> Decimal.Pos Decimal.Nil /\ Z.to_int z <> Decimal.Neg Decimal.Nil.
Proof.
  destruct z as [|p|p]; simpl; split; try discriminate;
    intros H; injection H as H; revert H; apply Unsigned.to_uint_nonnil.
Qed.

(** [int(str(z)) == z] *)
Lemma py_int_py_str z : Py.py_int (Py.py_str z) = Some z.
Proof.
  unfold Py.py_int. rewrite strip_py_str.
  assert (Hparse : NilZero.int_of_string (Py.py_str z) = Some (Z.to_int z)).
  { destruct (to_int_proper z). now apply NilZero.isi. }
  pose proof (numchar_py_str z) as Hn.
  destruct (Py.py_str z) as [|c s] eqn:E.
  - simpl in Hparse. discriminate.
  - simpl in Hn. apply andb_true_iff in Hn. destruct Hn as [Hc _].
    apply numchar_facts in Hc. destruct Hc as (_ & _ & _ & Hplus).
    unfold differs in Hplus. apply negb_true_iff in Hplus.
    destruct c as [[] [] [] [] [] [] [] []]; try discriminate Hplus;
      rewrite Hparse; simpl; now rewrite DecimalZ.of_to.
Qed.

Lemma split_single sep a :
  all_chars (differs sep) a = true -> Py.split sep a = [a].
Proof.
  induction a as [|c a IH]; simpl; [reflexivity|].
  unfold differs at 1. rewrite andb_true_iff, negb_true_iff.
  intros [-> Ha]. now rewrite (IH Ha).
Qed.

Lemma split_app sep a b :
  all_chars (differs sep) a = true ->
  Py.split sep (a ++ String sep b)%string = a :: Py.split sep b.
Proof.
  induction a as [|c a IH]; simpl.
  - intros _. now rewrite Ascii.eqb_refl.
  - unfold differs at 1. rewrite andb_true_iff, negb_true_iff.
    intros [-> Ha]. now rewrite (IH Ha).
Qed.

Lemma no_underscore_py_str z : all_chars (differs "_") (Py.py_str z) = true.
Proof.
  apply all_chars_weaken with (P := numchar); [|apply numchar_py_str].
  intros c Hc. now apply numchar_facts in Hc.
Qed.

(** The name written for a range reads back as that range. *)
Lemma parse_cache_file_name s e : parse_range (cache_file_name s e) = Some (s, e).
Proof.
  unfold parse_range, cache_file_name.
  change ("cache_file_" ++ Py.py_str s ++ "_" ++ Py.py_str e)%string
    with ("cache" ++ String "_" ("file" ++ String "_"
            (Py.py_str s ++ String "_" (Py.py_str e))))%string.
  rewrite split_app by reflexivity.
  rewrite split_app by reflexivity.
  rewrite split_app by apply no_underscore_py_str.
  rewrite split_single by apply no_underscore_py_str.
  unfold Py.slice. simpl. now rewrite !py_int_py_str.
Qed.

Lemma endswith_app a p : Py.endswith (a ++ p)%string p = true.
Proof.
  induction a as [|c a IH]; simpl.
  - destruct p; simpl; rewrite ?String.eqb_refl, ?Ascii.eqb_refl; reflexivity.
  - rewrite IH. apply orb_true_r.
Qed.

Lemma endswith_cons c s p :
  Py.endswith (String c s) p = String.eqb (String c s) p || Py.endswith s p.
Proof. reflexivity. Qed.

Lemma endswith_chars P s p :
  Py.endswith s p = true -> all_chars P s = true -> all_chars P p = true.
Proof.
  induction s as [|c s IH].
  - simpl. rewrite orb_false_r. destruct p; [reflexivity | discriminate].
  - rewrite endswith_cons. intros H Hs.
    apply orb_true_iff in H. destruct H as [H|H].
    + apply String.eqb_eq in H. now subst p.
    + simpl in Hs. apply andb_true_iff in Hs. apply IH; tauto.
Qed.

Lemma startswith_app p s : Py.startswith (p ++ s)%string p = true.
Proof.
  unfold Py.startswith. induction p as [|c p IH]; simpl.
  - now destruct s.
  - destruct (ascii_dec c c); [exact IH | congruence].
Qed.

Lemma cache_file_name_is_cache_file s e :
  is_cache_file (cache_file_name s e) = true.
Proof.
  unfold is_cache_file. apply andb_true_iff.
  split; [apply startswith_app|].
  apply negb_true_iff.
  destruct (Py.endswith (cache_file_name s e) ".tag") eqn:E; [|reflexivity].
  apply endswith_chars with (P := differs "g") in E; [discriminate E|].
  unfold cache_file_name. rewrite !all_chars_app. simpl.
  assert (H : forall z, all_chars (differs "g") (Py.py_str z) = true).
  { intros z. apply all_chars_weaken with (P := numchar);
      [|apply numchar_py_str].
    intros c Hc. now apply numchar_facts in Hc. }
  now rewrite !H.
Qed.

Lemma tag_name_not_cache_file s e : is_cache_file (tag_name s e) = false.
Proof.
  unfold is_cache_file, tag_name. rewrite endswith_app. apply andb_false_r.
Qed.

Lemma tag_name_not_cache_file_name s e s' e' :
  tag_name s e <> cache_file_name s' e'.
Proof.
  intros H. pose proof (tag_name_not_cache_file s e) as Ht.
  rewrite H, cache_file_name_is_cache_file in Ht. discriminate.
Qed.

End NameFacts.

(* ===================================================================== *)
(** ** [read_file]: what the stream carries *)
(* ===================================================================== *)

Lemma file_slice_nth content first last i :
  0 <= first -> 0 <= i <= last - first ->
  nth_error (file_slice content first last) (Z.to_nat i)
  = nth_error content (Z.to_nat (first + i)).
Proof.
  intros Hf Hi. unfold file_slice.
  rewrite nth_error_firstn.
  destruct (Nat.ltb_spec (Z.to_nat i) (Z.to_nat (last + 1 - first))); [|lia].
  rewrite nth_error_skipn. f_equal. lia.
Qed.

Lemma file_slice_length content first last :
  0 <= first -> first <= last + 1 -> last < Z.of_nat (List.length content) ->
  Z.of_nat (List.length (file_slice content first last)) = last + 1 - first.
Proof.
  intros. unfold file_slice. rewrite List.length_firstn, List.length_skipn. lia.
Qed.

Lemma read_loop_step e rest pos cs :
  read_loop e rest pos cs =
  match read_step e rest pos cs with
  | Break => ([], None)
  | Fault x => ([], Some x)
  | Yield data rest' cs' =>
      let r := read_loop e rest' (pos + Z.of_nat (List.length data)) cs' in
      (data :: fst r, snd r)
  end.
Proof.
  rewrite read_loop_equation_1.
  generalize (Logic.inspect (read_step e rest pos cs)).
  intros [r H].
  destruct r; unfold read_loop_unfold_clause_1; rewrite H; reflexivity.
Qed.

Lemma firstn_in_two {A : Type} (l : list A) (a c : nat) :
  (a <= c)%nat ->
  firstn a l ++ firstn (c - List.length (firstn a l)) (skipn a l) = firstn c l.
Proof.
  revert l c. induction a as [|a IH]; intros l c Hac.
  - simpl. now rewrite Nat.sub_0_r.
  - destruct l as [|x l]; [simpl; now rewrite !firstn_nil|].
    destruct c as [|c]; [lia|].
    simpl. f_equal. apply IH. lia.
Qed.

Lemma read_chunk_nonneg rest cs :
  0 <= cs ->
  read_chunk rest cs =
  match firstn (Z.to_nat cs) rest with
  | [] => Break
  | data => Yield data (skipn (Z.to_nat cs) rest) cs
  end.
Proof.
  intros H. unfold read_chunk, file_read.
  destruct (Z.ltb_spec cs (-1)); [lia|].
  destruct (Z.eqb_spec cs (-1)); [lia|].
  now destruct (firstn (Z.to_nat cs) rest).
Qed.

(** With an end point, the loop delivers the next [end + 1 - pos] bytes,
    or all that is left when the file is shorter, and no fault. *)
Lemma read_loop_bounded_end n :
  forall rest pos e cs,
    (List.length rest <= n)%nat -> 0 < cs ->
    snd (read_loop (Some e) rest pos cs) = None
    /\ List.concat (fst (read_loop (Some e) rest pos cs))
       = firstn (Z.to_nat (e + 1 - pos)) rest.
Proof.
  induction n as [|n IH]; intros rest pos e cs Hlen Hcs;
    rewrite read_loop_step; unfold read_step;
    destruct (Z.leb_spec (e + 1 - pos) 0) as [Hrem|Hrem].
  - simpl. now replace (Z.to_nat (e + 1 - pos)) with O by lia.
  - destruct rest; [|simpl in Hlen; lia].
    rewrite read_chunk_nonneg by lia. rewrite firstn_nil. simpl.
    now rewrite firstn_nil.
  - simpl. now replace (Z.to_nat (e + 1 - pos)) with O by lia.
  - rewrite read_chunk_nonneg by lia.
    set (m := Z.min cs (e + 1 - pos)).
    destruct (firstn (Z.to_nat m) rest) as [|b data] eqn:E.
    + simpl. destruct rest as [|b r]; [now rewrite firstn_nil|].
      replace (Z.to_nat m) with (S (Nat.pred (Z.to_nat m))) in E by lia.
      discriminate E.
    + assert (Hshort : (List.length (skipn (Z.to_nat m) rest) <= n)%nat).
      { rewrite List.length_skipn.
        assert (List.length (firstn (Z.to_nat m) rest) <> O)
          by (rewrite E; discriminate).
        rewrite List.length_firstn in *. lia. }
      destruct (IH (skipn (Z.to_nat m) rest)
                  (pos + Z.of_nat (List.length (b :: data))) e m Hshort)
        as [Hfault Hdata]; [lia|].
      cbn [fst snd]. cbv zeta. cbn [fst snd List.concat].
      split; [exact Hfault|].
      rewrite Hdata, <- E.
      rewrite <- (firstn_in_two rest (a := Z.to_nat m)
                    (c := Z.to_nat (e + 1 - pos))) by lia.
      do 2 f_equal. rewrite E. lia.
Qed.

(** Without an end point, the loop delivers all that is left. *)
Lemma read_loop_to_eof n :
  forall rest pos cs,
    (List.length rest <= n)%nat -> 0 < cs ->
    snd (read_loop None rest pos cs) = None
    /\ List.concat (fst (read_loop None rest pos cs)) = rest.
Proof.
  induction n as [|n IH]; intros rest pos cs Hlen Hcs;
    rewrite read_loop_step; unfold read_step;
    rewrite read_chunk_nonneg by lia.
  - destruct rest; [|simpl in Hlen; lia]. rewrite firstn_nil. now simpl.
  - destruct (firstn (Z.to_nat cs) rest) as [|b data] eqn:E.
    + simpl. destruct rest as [|b r]; [now split|].
      replace (Z.to_nat cs) with (S (Nat.pred (Z.to_nat cs))) in E by lia.
      discriminate E.
    + assert (Hshort : (List.length (skipn (Z.to_nat cs) rest) <= n)%nat).
      { rewrite List.length_skipn.
        assert (List.length (firstn (Z.to_nat cs) rest) <> O)
          by (rewrite E; discriminate).
        rewrite List.length_firstn in *. lia. }
      destruct (IH (skipn (Z.to_nat cs) rest)
                  (pos + Z.of_nat (List.length (b :: data))) cs Hshort Hcs)
        as [Hfault Hdata].
      cbv zeta. cbn [fst snd List.concat].
      split; [exact Hfault|].
      rewrite Hdata, <- E. apply firstn_skipn.
Qed.

(** No chunk is empty, and none is longer than the chunk size in force. *)
Lemma read_loop_chunks n :
  forall e rest pos cs bound,
    (List.length rest <= n)%nat -> 0 <= cs <= bound ->
    Forall (fun chunk => chunk <> [] /\ Z.of_nat (List.length chunk) <= bound)
      (fst (read_loop e rest pos cs)).
Proof.
  induction n as [|n IH]; intros e rest pos cs bound Hlen Hcs;
    rewrite read_loop_step.
  - destruct rest; [|simpl in Hlen; lia].
    destruct (read_step e [] pos cs) eqn:E; [constructor|constructor|].
    apply read_step_yield in E. destruct E as [Hd E].
    symmetry in E. apply app_eq_nil in E. tauto.
  - destruct (read_step e rest pos cs) as [| |data rest' cs'] eqn:E;
      [constructor|constructor|].
    cbv zeta. cbn [fst]. constructor.
    + pose proof (read_step_yield _ _ _ _ E) as [Hd _].
      split; [exact Hd|].
      unfold read_step in E.
      assert (Hchunk : exists m, 0 <= m <= cs /\ read_chunk rest m = Yield data rest' cs').
      { destruct e as [e|]; [|exists cs; split; [lia|exact E]].
        destruct (Z.leb_spec (e + 1 - pos) 0); [discriminate|].
        exists (Z.min cs (e + 1 - pos)). split; [lia|exact E]. }
      destruct Hchunk as (m & Hm & Hy).
      rewrite read_chunk_nonneg in Hy by lia.
      destruct (firstn (Z.to_nat m) rest) eqn:F; [discriminate|].
      inversion Hy; subst. rewrite <- F, List.length_firstn. lia.
    + pose proof (read_step_decreases _ _ _ _ E) as Hdec.
      apply IH; [lia|].
      unfold read_step in E.
      destruct e as [e|].
      * destruct (Z.leb_spec (e + 1 - pos) 0); [discriminate|].
        apply read_chunk_yield in E. lia.
      * apply read_chunk_yield in E. lia.
Qed.

Lemma read_step_break e rest pos cs :
  0 < cs ->
  (read_step (Some e) rest pos cs = Break <-> e + 1 - pos <= 0 \/ rest = []).
Proof.
  intros Hcs. unfold read_step.
  destruct (Z.leb_spec (e + 1 - pos) 0) as [H|H]; [intuition|].
  rewrite read_chunk_nonneg by lia.
  destruct rest as [|b r].
  - rewrite firstn_nil. intuition.
  - replace (Z.to_nat (Z.min cs (e + 1 - pos)))
      with (S (Nat.pred (Z.to_nat (Z.min cs (e + 1 - pos))))) by lia.
    simpl. split; [discriminate|]. intros [H'|H']; [lia|discriminate].
Qed.

Lemma read_file_present w k d file content start_point end_point chunk_size :
  fs w k = Some d -> lookup_file file d = Some content ->
  0 <= start_point ->
  snd (read_loop end_point (skipn (Z.to_nat start_point) content)
         start_point chunk_size) = None ->
  read_file k file start_point end_point chunk_size w
  = (Ok (fst (read_loop end_point (skipn (Z.to_nat start_point) content)
                start_point chunk_size)), w).
Proof.
  intros Hk Hf Hs Hfault. unfold read_file. rewrite Hk, Hf.
  destruct (Z.ltb_spec start_point 0); [lia|].
  cbv zeta. now rewrite Hfault.
Qed.

(** C8.  For a file that is there, a start offset inside it and a
    positive chunk size: with an inclusive end offset [end_point >=
    start_point] the chunks of [read_file], put end to end, are the bytes
    of the file from [start_point] through [min end_point (length - 1)];
    with no end offset they are the bytes from [start_point] to the end of
    the file; and a turn of the loop stops exactly when
    [end_point + 1 - pos <= 0] or nothing is left to read. *)
Theorem read_file_yields_requested_range :
  forall w k d file content start_point chunk_size,
    fs w k = Some d ->
    lookup_file file d = Some content ->
    0 <= start_point < Z.of_nat (List.length content) ->
    0 < chunk_size ->
    (forall end_point,
        start_point <= end_point ->
        exists chunks,
          read_file k file start_point (Some end_point) chunk_size w = (Ok chunks, w)
          /\ List.concat chunks
             = file_slice content start_point
                 (Z.min end_point (Z.of_nat (List.length content) - 1)))
    /\ (exists chunks,
          read_file k file start_point None chunk_size w = (Ok chunks, w)
          /\ List.concat chunks = skipn (Z.to_nat start_point) content)
    /\ (forall end_point rest pos cs,
          0 < cs ->
          (read_step (Some end_point) rest pos cs = Break
           <-> end_point + 1 - pos <= 0 \/ rest = [])).
Proof.
  intros w k d file content start_point chunk_size Hk Hf Hstart Hcs.
  split; [|split].
  - intros end_point Hend.
    destruct (read_loop_bounded_end
                (n := List.length (skipn (Z.to_nat start_point) content))
                (skipn (Z.to_nat start_point) content) start_point end_point
                (cs := chunk_size) (le_n _) Hcs) as [Hfault Hdata].
    eexists. split.
    + apply read_file_present with (d := d) (content := content); auto; lia.
    + rewrite Hdata. unfold file_slice.
      destruct (Z.le_gt_cases end_point (Z.of_nat (List.length content) - 1)).
      * now rewrite Z.min_l by lia.
      * rewrite Z.min_r by lia.
        rewrite !firstn_all2; [reflexivity| |]; rewrite List.length_skipn; lia.
  - destruct (read_loop_to_eof
                (n := List.length (skipn (Z.to_nat start_point) content))
                (skipn (Z.to_nat start_point) content) start_point
                (cs := chunk_size) (le_n _) Hcs) as [Hfault Hdata].
    eexists. split.
    + apply read_file_present with (d := d) (content := content); auto; lia.
    + exact Hdata.
  - intros. now apply read_step_break.
Qed.

(** C9.  For a positive chunk size, whatever the file, the start point
    and the end point: [read_file] ends without raising, and every chunk
    it yields is non-empty and at most [chunk_size] bytes long. *)
Theorem read_file_chunks_bounded :
  forall w k file start_point end_point chunk_size,
    0 < chunk_size ->
    exists chunks w',
      read_file k file start_point end_point chunk_size w = (Ok chunks, w')
      /\ Forall (fun chunk =>
                   chunk <> [] /\ Z.of_nat (List.length chunk) <= chunk_size)
           chunks.
Proof.
  intros w k file start_point end_point chunk_size Hcs. unfold read_file.
  destruct (match fs w k with Some d => lookup_file file d | None => None end)
    as [content|].
  - destruct (start_point <? 0).
    + do 2 eexists. split; [reflexivity|constructor].
    + cbv zeta.
      pose proof (read_loop_chunks
                    (n := List.length (skipn (Z.to_nat start_point) content))
                    end_point (skipn (Z.to_nat start_point) content)
                    start_point (cs := chunk_size) (bound := chunk_size)
                    (le_n _)) as Hall.
      destruct (snd (read_loop end_point (skipn (Z.to_nat start_point) content)
                       start_point chunk_size));
        do 2 eexists; (split; [reflexivity|apply Hall; lia]).
  - do 2 eexists. split; [reflexivity|constructor].
Qed.

(* ===================================================================== *)
(** ** Directories: the effect of the primitives on the listing *)
(* ===================================================================== *)

Lemma dirkey_eqb_refl k : dirkey_eqb k k = true.
Proof. unfold dirkey_eqb. now rewrite !String.eqb_refl. Qed.

Lemma dirkey_eqb_eq k k' : dirkey_eqb k k' = true <-> k = k'.
Proof.
  unfold dirkey_eqb. destruct k as [a b], k' as [a' b']. simpl.
  rewrite andb_true_iff, !String.eqb_eq. split.
  - now intros [-> ->].
  - intros H. inversion H. auto.
Qed.

Lemma set_dir_same k d f : set_dir k d f k = Some d.
Proof. unfold set_dir. now rewrite dirkey_eqb_refl. Qed.

Lemma set_dir_other k k' d f : k <> k' -> set_dir k d f k' = f k'.
Proof.
  intros H. unfold set_dir. destruct (dirkey_eqb k k') eqn:E; [|reflexivity].
  apply dirkey_eqb_eq in E. contradiction.
Qed.

Lemma has_file_In name d : has_file name d = true <-> In name (names d).
Proof.
  unfold has_file. rewrite existsb_exists. split.
  - intros (x & Hx & E). apply String.eqb_eq in E. now subst.
  - intros H. exists name. split; [exact H | apply String.eqb_refl].
Qed.

Lemma names_delete name d n :
  In n (names (delete_file name d)) <-> In n (names d) /\ n <> name.
Proof.
  unfold names, delete_file. rewrite !in_map_iff. split.
  - intros ([x c] & <- & H). apply filter_In in H. destruct H as [H E].
    simpl in *. apply negb_true_iff, String.eqb_neq in E.
    split; [exists (x, c); auto | exact E].
  - intros [([x c] & <- & H) E]. exists (x, c). split; [reflexivity|].
    apply filter_In. split; [exact H|]. simpl in *.
    now apply negb_true_iff, String.eqb_neq.
Qed.

Lemma names_map_same (g : string * bytes -> string * bytes) d :
  (forall e, fst (g e) = fst e) -> names (map g d) = names d.
Proof.
  intros H. unfold names. rewrite map_map. apply map_ext. exact H.
Qed.

Lemma names_append name data d : names (append_file name data d) = names d.
Proof.
  apply names_map_same. intros [x c]. simpl.
  destruct (String.eqb_spec x name); simpl; congruence.
Qed.

Lemma names_truncate name d n :
  In n (names (truncate_file name d)) <-> In n (names d) \/ n = name.
Proof.
  unfold truncate_file. destruct (has_file name d) eqn:E.
  - rewrite names_map_same.
    + apply has_file_In in E. intuition congruence.
    + intros [x c]. simpl. destruct (String.eqb_spec x name); simpl; congruence.
  - unfold names. rewrite map_app, in_app_iff. simpl. intuition.
Qed.

Lemma has_file_truncate name d : has_file name (truncate_file name d) = true.
Proof. apply has_file_In, names_truncate. now right. Qed.

Lemma delete_absent name d : has_file name d = false -> delete_file name d = d.
Proof.
  intros H. unfold delete_file. apply forallb_filter_id.
  apply forallb_forall. intros [x c] Hin. simpl.
  apply negb_true_iff, String.eqb_neq. intros ->.
  assert (has_file name d = true) by (apply has_file_In, in_map_iff; now exists (name, c)).
  congruence.
Qed.

Lemma delete_truncate name d :
  delete_file name (truncate_file name d) = delete_file name d.
Proof.
  unfold truncate_file. destruct (has_file name d).
  - unfold delete_file. induction d as [|[x c] d IH]; [reflexivity|].
    simpl. destruct (String.eqb_spec x name) as [->|Hx]; simpl.
    + rewrite String.eqb_refl. exact IH.
    + apply String.eqb_neq in Hx. rewrite Hx. simpl. now f_equal.
  - unfold delete_file. rewrite filter_app. simpl.
    rewrite String.eqb_refl. simpl. now rewrite app_nil_r.
Qed.

(* ===================================================================== *)
(** ** Invariants of the directory tree across an operation *)
(* ===================================================================== *)

Section Keeps.

Variable I : filesystem -> Prop.

Lemma keeps_ret {A : Type} (a : A) : keeps I (ret a).
Proof. intros w H. exact H. Qed.

Lemma keeps_raise {A : Type} (e : exn) : keeps I (@raise A e).
Proof. intros w H. exact H. Qed.

Lemma keeps_bind {A B : Type} (m : M A) (f : A -> M B) :
  keeps I m -> (forall a, keeps I (f a)) -> keeps I (bind m f).
Proof.
  intros Hm Hf w H. unfold bind. specialize (Hm w H).
  destruct (m w) as [[a|e] w1]; simpl in *; [now apply Hf | exact Hm].
Qed.

Lemma keeps_try_except {A : Type} (m : M A) (h : exn -> M A) :
  keeps I m -> (forall e, keeps I (h e)) -> keeps I (try_except m h).
Proof.
  intros Hm Hh w H. unfold try_except. specialize (Hm w H).
  destruct (m w) as [[a|e] w1]; simpl in *; [exact Hm | now apply Hh].
Qed.

Lemma keeps_emit e : keeps I (emit e).
Proof. intros w H. exact H. Qed.

Lemma keeps_log l : keeps I (log l).
Proof. apply keeps_emit. Qed.

Lemma keeps_path_exists k : keeps I (path_exists k).
Proof. intros w H. exact H. Qed.

Lemma keeps_listdir k : keeps I (listdir k).
Proof.
  apply keeps_bind; [apply keeps_emit|]. intros _ w H.
  destruct (fs w k); exact H.
Qed.

Lemma keeps_http_get client url h : keeps I (http_get client url h).
Proof.
  apply keeps_bind; [apply keeps_emit|]. intros _.
  destruct (get client); [apply keeps_raise | apply keeps_ret].
Qed.

(** The primitives that change a directory keep [I] as soon as the change
    itself does. *)
Lemma keeps_makedirs k :
  (forall f, I f -> f k = None -> I (set_dir k [] f)) ->
  keeps I (makedirs k).
Proof.
  intros Hmk. apply keeps_bind; [apply keeps_emit|]. intros _ w H.
  destruct (fs w k) eqn:E; [exact H | now apply Hmk].
Qed.

Lemma keeps_open_w k name :
  (forall f d, I f -> f k = Some d -> I (set_dir k (truncate_file name d) f)) ->
  keeps I (open_w k name).
Proof.
  intros Hup. apply keeps_bind; [apply keeps_emit|]. intros _ w H.
  destruct (fs w k) eqn:E; [now apply Hup | exact H].
Qed.

Lemma keeps_file_write k name chunk :
  (forall f d, I f -> f k = Some d -> I (set_dir k (append_file name chunk d) f)) ->
  keeps I (file_write k name chunk).
Proof.
  intros Hup. apply keeps_bind; [apply keeps_emit|]. intros _ w H.
  destruct (fs w k) eqn:E; [now apply Hup | exact H].
Qed.

Lemma keeps_remove k name :
  (forall f d, I f -> f k = Some d -> I (set_dir k (delete_file name d) f)) ->
  keeps I (remove k name).
Proof.
  intros Hup. apply keeps_bind; [apply keeps_emit|]. intros _ w H.
  destruct (fs w k) eqn:E; [|exact H].
  destruct (has_file name d); [now apply Hup | exact H].
Qed.

Lemma keeps_write_chunks k name chunks fault :
  (forall chunk f d,
      I f -> f k = Some d -> I (set_dir k (append_file name chunk d) f)) ->
  keeps I (write_chunks k name chunks fault).
Proof.
  intros Hup. revert fault.
  induction chunks as [|chunk rest IH]; intros fault; simpl.
  - apply keeps_ret.
  - destruct fault as [[|n]|]; [apply keeps_raise| |];
      (apply keeps_bind;
        [apply keeps_file_write; intros; now apply Hup | intros _; apply IH]).
Qed.

End Keeps.

Lemma keeps_overlap_loop I k s e files :
  closed_under_delete I k -> keeps I (overlap_loop k s e files).
Proof.
  intros Hdel. induction files as [|file rest IH]; simpl.
  - apply keeps_ret.
  - destruct (is_cache_file file); [|exact IH].
    destruct (parse_range file) as [[a b]|]; [|apply keeps_raise].
    destruct ((s >=? a) && (e <=? b)).
    + apply keeps_bind; [apply keeps_log|]. intros _.
      apply keeps_bind; [apply keeps_remove; intros; now apply Hdel|].
      intros _. apply keeps_ret.
    + destruct ((s <=? a) && (e >=? b)); [|exact IH].
      apply keeps_bind; [apply keeps_log|]. intros _.
      apply keeps_bind; [apply keeps_remove; intros; now apply Hdel|].
      intros _. exact IH.
Qed.

Lemma keeps_fetch_and_store I k s e req_header client :
  closed_under_delete I k ->
  closed_under_append I k ->
  closed_under_truncate I k (cache_file_name s e) ->
  keeps I (fetch_and_store k s e req_header client).
Proof.
  intros Hdel Happ Htr. unfold fetch_and_store.
  destruct (nth_error (Py.split "/" (raw_url client)) 2); [|apply keeps_raise].
  apply keeps_try_except.
  - apply keeps_bind; [apply keeps_http_get|]. intros resp.
    apply keeps_bind.
    { destruct (status_code resp =? 206); [apply keeps_ret|].
      apply keeps_bind; [apply keeps_log | intros _; apply keeps_raise]. }
    intros _. apply keeps_bind; [apply keeps_open_w; exact Htr|].
    intros _. apply keeps_bind.
    { apply keeps_write_chunks. intros. now apply Happ. }
    intros _. apply keeps_bind; [apply keeps_log|].
    intros _. apply keeps_bind; [apply keeps_remove; intros; now apply Hdel|].
    intros _. apply keeps_ret.
  - intros _. apply keeps_bind; [apply keeps_log|].
    intros _. apply keeps_bind; [apply keeps_remove; intros; now apply Hdel|].
    intros _. apply keeps_bind; [apply keeps_remove; intros; now apply Hdel|].
    intros _. apply keeps_ret.
Qed.

Lemma write_prefix {A : Type} k tag (rest : list string -> M A) w :
  (log DEBUG ;; makedirs k ;; open_w k tag ;; files <- listdir k ;; rest files) w
  = rest (names (truncate_file tag (match fs w k with Some d => d | None => [] end)))
      (after_prefix k tag w).
Proof.
  unfold after_prefix, log, makedirs, open_w, listdir, emit, bind, put_dir, ret.
  simpl. destruct (fs w k) as [d|] eqn:E; simpl.
  - rewrite E. simpl. rewrite set_dir_same. rewrite <- !app_assoc. reflexivity.
  - rewrite set_dir_same. simpl. rewrite set_dir_same.
    rewrite <- !app_assoc. reflexivity.
Qed.

Lemma after_prefix_dir k tag w :
  fs (after_prefix k tag w) k
  = Some (truncate_file tag (match fs w k with Some d => d | None => [] end)).
Proof. apply set_dir_same. Qed.

(* ===================================================================== *)
(** ** C10: the cache directory outlives the call *)
(* ===================================================================== *)

Lemma dir_exists_set k k' d f : dir_exists k f -> dir_exists k (set_dir k' d f).
Proof.
  unfold dir_exists, set_dir. destruct (dirkey_eqb k' k); [discriminate|auto].
Qed.

(** C10.  For a request whose status is [HIT], [PARTIAL] or [HIT_TAIL],
    the cache directory of the request's file exists when the call is
    over, whether it returned [True], returned [False] or raised. *)
Theorem cache_directory_exists_after_write :
  forall get_hash_subdirectory_from_path item_id request_info req_header client w,
    cache_status request_info = HIT
    \/ cache_status request_info = PARTIAL
    \/ cache_status request_info = HIT_TAIL ->
    fs (snd (write_cache_file get_hash_subdirectory_from_path item_id
               request_info req_header client w))
       (cache_dir_of get_hash_subdirectory_from_path request_info)
    <> None.
Proof.
  intros shard item_id request_info req_header client w Hstatus.
  unfold write_cache_file.
  set (k := cache_dir_of shard request_info).
  assert (Ht : exists s e, target_range request_info = Some (s, e)).
  { unfold target_range. destruct Hstatus as [->|[->| ->]]; eauto. }
  destruct Ht as (s & e & ->).
  rewrite write_prefix.
  assert (Hpre : dir_exists k (fs (after_prefix k (tag_name s e) w))).
  { unfold dir_exists. rewrite after_prefix_dir. discriminate. }
  revert Hpre. generalize (after_prefix k (tag_name s e) w). intros w1 H1.
  change (dir_exists k (fs (snd
    ((aborted <- overlap_loop k s e
        (names (truncate_file (tag_name s e)
                  match fs w k with Some d => d | None => [] end)) ;;
      if aborted : bool then ret (PyBool false)
      else fetch_and_store k s e req_header client) w1)))).
  revert w1 H1. apply keeps_bind.
  - apply keeps_overlap_loop. intros name f d H _. now apply dir_exists_set.
  - intros [|]; [apply keeps_ret|].
    apply keeps_fetch_and_store; intros until d; intros H _;
      now apply dir_exists_set.
Qed.

(* ===================================================================== *)
(** ** C3: which ranges can sit side by side in a directory *)
(* ===================================================================== *)

Lemma every_directory_set P k d f :
  every_directory P f -> P d -> every_directory P (set_dir k d f).
Proof.
  intros Hf Hd k' d' H. unfold set_dir in H.
  destruct (dirkey_eqb k k'); [inversion H; now subst | eauto].
Qed.

Lemma no_containment_nil : no_containment [].
Proof. intros n1 n2 r1 r2 []. Qed.

Lemma no_containment_sub d d' :
  no_containment d ->
  (forall n, In n (names d') -> is_cache_file n = true -> In n (names d)) ->
  no_containment d'.
Proof.
  intros Hd Hsub n1 n2 r1 r2 H1 H2 Hne C1 C2 P1 P2.
  apply (Hd n1 n2 r1 r2); auto.
Qed.

Lemma no_containment_new s e d d' :
  no_containment d ->
  (forall n, In n (names d) -> n = cache_file_name s e \/ unrelated s e n) ->
  (forall n, In n (names d') -> is_cache_file n = true ->
             n = cache_file_name s e \/ In n (names d)) ->
  no_containment d'.
Proof.
  intros Hd Hun Hsub n1 n2 r1 r2 H1 H2 Hne C1 C2 P1 P2 [Hlo Hhi].
  destruct (string_dec n1 (cache_file_name s e)) as [E1|E1];
    destruct (string_dec n2 (cache_file_name s e)) as [E2|E2].
  - congruence.
  - subst n1. rewrite NameFacts.parse_cache_file_name in P1.
    inversion P1; subst r1. simpl in *.
    destruct (Hsub n2 H2 C2) as [|Hin]; [contradiction|].
    destruct (Hun n2 Hin) as [|Hgood]; [contradiction|].
    destruct r2 as [a b]. destruct (Hgood C2 a b P2) as [Hcov _].
    apply Hcov. simpl in *. lia.
  - subst n2. rewrite NameFacts.parse_cache_file_name in P2.
    inversion P2; subst r2. simpl in *.
    destruct (Hsub n1 H1 C1) as [|Hin]; [contradiction|].
    destruct (Hun n1 Hin) as [|Hgood]; [contradiction|].
    destruct r1 as [a b]. destruct (Hgood C1 a b P1) as [_ Hin'].
    apply Hin'. simpl in *. lia.
  - destruct (Hsub n1 H1 C1) as [|Hin1]; [contradiction|].
    destruct (Hsub n2 H2 C2) as [|Hin2]; [contradiction|].
    apply (Hd n1 n2 r1 r2); auto. split; assumption.
Qed.

Lemma no_containment_closed_delete k :
  closed_under_delete (every_directory no_containment) k.
Proof.
  intros name f d Hf Hk. apply every_directory_set; [exact Hf|].
  apply no_containment_sub with (d := d); [now apply (Hf k)|].
  intros n Hn _. now apply names_delete in Hn.
Qed.

Lemma no_containment_closed_truncate_tag k s e :
  closed_under_truncate (every_directory no_containment) k (tag_name s e).
Proof.
  intros f d Hf Hk. apply every_directory_set; [exact Hf|].
  apply no_containment_sub with (d := d); [now apply (Hf k)|].
  intros n Hn Hc. apply names_truncate in Hn. destruct Hn as [Hn| ->]; [exact Hn|].
  rewrite NameFacts.tag_name_not_cache_file in Hc. discriminate.
Qed.

Lemma pending_tree k s e files f :
  pending k s e files f -> every_directory no_containment f.
Proof. now intros [H _]. Qed.

(** A change of the directory at [k] that brings in no other cache file
    than the target keeps the state reached at the end of the pass. *)
Lemma pending_update k s e f d d' :
  pending k s e [] f -> f k = Some d ->
  (forall n, In n (names d') -> is_cache_file n = true ->
             n = cache_file_name s e \/ In n (names d)) ->
  pending k s e [] (set_dir k d' f).
Proof.
  intros [Hf (d0 & Hk0 & Hun)] Hk Hsub.
  rewrite Hk in Hk0. inversion Hk0; subst d0. clear Hk0.
  assert (Hun' : forall n, In n (names d) ->
                   n = cache_file_name s e \/ unrelated s e n).
  { intros n Hn. destruct (Hun n Hn) as [[]|H]; exact H. }
  split.
  - apply every_directory_set; [exact Hf|].
    apply no_containment_new with (s := s) (e := e) (d := d); auto.
    now apply (Hf k).
  - exists d'. split; [apply set_dir_same|].
    intros n Hn. right.
    destruct (is_cache_file n) eqn:C.
    + destruct (Hsub n Hn C) as [->|Hin]; [now left | now apply Hun'].
    + right. intros C'. congruence.
Qed.

Lemma pending_closed_delete k s e : closed_under_delete (pending k s e []) k.
Proof.
  intros name f d H Hk. apply pending_update with (d := d); auto.
  intros n Hn _. right. now apply names_delete in Hn.
Qed.

Lemma pending_closed_append k s e : closed_under_append (pending k s e []) k.
Proof.
  intros name chunk f d H Hk. apply pending_update with (d := d); auto.
  intros n Hn _. right. now rewrite names_append in Hn.
Qed.

Lemma pending_closed_truncate k s e :
  closed_under_truncate (pending k s e []) k (cache_file_name s e).
Proof.
  intros f d H Hk. apply pending_update with (d := d); auto.
  intros n Hn _. apply names_truncate in Hn. tauto.
Qed.

Lemma bind_ok {A B : Type} (m : M A) (f : A -> M B) w a w' :
  m w = (Ok a, w') -> bind m f w = f a w'.
Proof. intros H. unfold bind. now rewrite H. Qed.

Lemma bind_raise {A B : Type} (m : M A) (f : A -> M B) w e w' :
  m w = (Raise e, w') -> bind m f w = (Raise e, w').
Proof. intros H. unfold bind. now rewrite H. Qed.

Lemma emit_eval e w :
  emit e w = (Ok tt, {| fs := fs w; trace := trace w ++ [e] |}).
Proof. reflexivity. Qed.

Lemma remove_cases k name w :
  (exists d, fs w k = Some d /\ has_file name d = true
             /\ remove k name w
                = (Ok tt, {| fs := set_dir k (delete_file name d) (fs w);
                             trace := trace w ++ [EvRemove k name] |}))
  \/ remove k name w
     = (Raise FileNotFoundError,
        {| fs := fs w; trace := trace w ++ [EvRemove k name] |}).
Proof.
  unfold remove, bind, emit, put_dir, raise. simpl.
  destruct (fs w k) as [d|] eqn:E; [|now right].
  destruct (has_file name d) eqn:H; [|now right].
  left. exists d. auto.
Qed.

Lemma pending_skip k s e file rest f :
  pending k s e (file :: rest) f -> unrelated s e file ->
  pending k s e rest f.
Proof.
  intros [Hf (d & Hk & Hun)] Hgood. split; [exact Hf|].
  exists d. split; [exact Hk|]. intros n Hn.
  destruct (Hun n Hn) as [[<-|H]|H]; auto.
Qed.

Lemma overlap_loop_pass k s e files :
  forall w,
    pending k s e files (fs w) ->
    pass_done k s e (fst (overlap_loop k s e files w))
      (fs (snd (overlap_loop k s e files w))).
Proof.
  induction files as [|file rest IH]; intros w Hp; simpl.
  - exact Hp.
  - destruct (is_cache_file file) eqn:C.
    2:{ apply IH. apply pending_skip with (file := file); [exact Hp|].
        intros C'. congruence. }
    destruct (parse_range file) as [[a b]|] eqn:P.
    2:{ simpl. now apply pending_tree in Hp. }
    destruct ((s >=? a) && (e <=? b)) eqn:Cov.
    { erewrite bind_ok by apply emit_eval.
      destruct (remove_cases k (tag_name s e)
                  {| fs := fs w; trace := trace w ++ [EvLog WARNING] |})
        as [(d & Hk & _ & Hr)|Hr].
      - erewrite bind_ok by exact Hr. simpl.
        apply no_containment_closed_delete;
          [now apply pending_tree in Hp|exact Hk].
      - erewrite bind_raise by exact Hr. simpl. now apply pending_tree in Hp. }
    destruct ((s <=? a) && (e >=? b)) eqn:Sub.
    { erewrite bind_ok by apply emit_eval.
      destruct (remove_cases k file
                  {| fs := fs w; trace := trace w ++ [EvLog WARNING] |})
        as [(d & Hk & _ & Hr)|Hr].
      - erewrite bind_ok by exact Hr.
        apply IH. simpl in *. destruct Hp as [Hf (d0 & Hk0 & Hun)].
        rewrite Hk in Hk0. inversion Hk0; subst d0.
        split; [now apply no_containment_closed_delete|].
        exists (delete_file file d). split; [apply set_dir_same|].
        intros n Hn. apply names_delete in Hn. destruct Hn as [Hn Hne].
        destruct (Hun n Hn) as [[<-|H]|H]; auto. congruence.
      - erewrite bind_raise by exact Hr. simpl. now apply pending_tree in Hp. }
    apply IH. apply pending_skip with (file := file); [exact Hp|].
    intros _ a' b' P'. rewrite P in P'. inversion P'; subst a' b'.
    apply andb_false_iff in Cov. apply andb_false_iff in Sub.
    rewrite Z.geb_leb in Cov, Sub. rewrite !Z.leb_gt in Cov, Sub. lia.
Qed.

(** One call of the writer keeps every directory free of nested ranges,
    however it ends. *)
Lemma write_cache_file_keeps_no_containment shard item_id request_info
    req_header client :
  keeps (every_directory no_containment)
    (write_cache_file shard item_id request_info req_header client).
Proof.
  intros w Hw. unfold write_cache_file.
  set (k := cache_dir_of shard request_info).
  destruct (target_range request_info) as [[s e]|]; [|exact Hw].
  rewrite write_prefix.
  set (d1 := truncate_file (tag_name s e)
               match fs w k with Some d => d | None => [] end).
  assert (Hd1 : no_containment d1).
  { unfold d1. destruct (fs w k) as [d|] eqn:E.
    - apply no_containment_sub with (d := d); [now apply (Hw k)|].
      intros n Hn Hc. apply names_truncate in Hn.
      destruct Hn as [Hn| ->]; [exact Hn|].
      rewrite NameFacts.tag_name_not_cache_file in Hc. discriminate.
    - intros n1 n2 r1 r2 H1 _ _ C1. simpl in H1. destruct H1 as [<-|[]].
      rewrite NameFacts.tag_name_not_cache_file in C1. discriminate. }
  assert (Hp : pending k s e (names d1) (fs (after_prefix k (tag_name s e) w))).
  { split.
    - unfold after_prefix. simpl. apply every_directory_set; [|exact Hd1].
      destruct (fs w k); [exact Hw|].
      apply every_directory_set; [exact Hw | apply no_containment_nil].
    - exists d1. split; [apply after_prefix_dir | auto]. }
  revert Hp. generalize (after_prefix k (tag_name s e) w). intros w1 Hp.
  pose proof (@overlap_loop_pass k s e (names d1) w1 Hp) as Hpass.
  unfold bind. destruct (overlap_loop k s e (names d1) w1) as [[[|]|ex] w2];
    simpl in Hpass |- *; try exact Hpass.
  apply pending_tree with (k := k) (s := s) (e := e) (files := []).
  revert w2 Hpass. apply keeps_fetch_and_store.
  - apply pending_closed_delete.
  - apply pending_closed_append.
  - apply pending_closed_truncate.
Qed.

Lemma run_calls_keeps shard calls :
  forall w,
    every_directory no_containment (fs w) ->
    every_directory no_containment (fs (run_calls shard calls w)).
Proof.
  induction calls as [|c rest IH]; intros w Hw; simpl; [exact Hw|].
  apply IH. now apply write_cache_file_keeps_no_containment.
Qed.

(** C3, amended.  Start from an empty cache tree and run any sequence of
    writer calls, with any requests and any behaviour of the upstream:
    afterwards, in every cache directory, no cache file's range lies
    within the range of another cache file. *)
Theorem writes_keep_ranges_unnested :
  forall shard calls k d n1 n2 r1 r2,
    fs (run_calls shard calls empty_world) k = Some d ->
    In n1 (names d) -> In n2 (names d) -> n1 <> n2 ->
    is_cache_file n1 = true -> is_cache_file n2 = true ->
    parse_range n1 = Some r1 -> parse_range n2 = Some r2 ->
    ~ contains_range r2 r1.
Proof.
  intros shard calls k d.
  assert (H : every_directory no_containment (fs (run_calls shard calls empty_world))).
  { apply run_calls_keeps. intros k' d' H. discriminate H. }
  intros n1 n2 r1 r2 Hk. exact (H k d Hk n1 n2 r1 r2).
Qed.

(* ===================================================================== *)
(** ** Running the primitives *)
(* ===================================================================== *)

Lemma open_w_eval k name w d :
  fs w k = Some d ->
  open_w k name w
  = (Ok tt, {| fs := set_dir k (truncate_file name d) (fs w);
               trace := trace w ++ [EvOpenW k name] |}).
Proof.
  intros H. unfold open_w, bind, emit, put_dir. simpl. now rewrite H.
Qed.

Lemma remove_ok k name w d :
  fs w k = Some d -> has_file name d = true ->
  remove k name w
  = (Ok tt, {| fs := set_dir k (delete_file name d) (fs w);
               trace := trace w ++ [EvRemove k name] |}).
Proof.
  intros H Hn. unfold remove, bind, emit, put_dir. simpl. now rewrite H, Hn.
Qed.

Lemma remove_missing k name w d :
  fs w k = Some d -> has_file name d = false ->
  remove k name w
  = (Raise FileNotFoundError,
     {| fs := fs w; trace := trace w ++ [EvRemove k name] |}).
Proof.
  intros H Hn. unfold remove, bind, emit, raise. simpl. now rewrite H, Hn.
Qed.

Lemma listdir_eval k w d :
  fs w k = Some d ->
  listdir k w
  = (Ok (names d), {| fs := fs w; trace := trace w ++ [EvListdir k] |}).
Proof.
  intros H. unfold listdir, bind, emit, ret. simpl. now rewrite H.
Qed.

Lemma append_file_twice name c1 c2 d :
  append_file name c2 (append_file name c1 d) = append_file name (c1 ++ c2) d.
Proof.
  unfold append_file. rewrite map_map. apply map_ext. intros [x c]. simpl.
  destruct (String.eqb_spec x name) as [->|Hx]; simpl.
  - now rewrite String.eqb_refl, app_assoc.
  - apply String.eqb_neq in Hx. now rewrite Hx.
Qed.

Lemma append_file_nil name d : append_file name [] d = d.
Proof.
  unfold append_file. rewrite <- (map_id d) at 2. apply map_ext.
  intros [x c]. simpl. destruct (String.eqb_spec x name) as [->|Hx];
    [now rewrite app_nil_r | reflexivity].
Qed.

(** Streaming without a fault appends every chunk, in order. *)
Lemma write_chunks_ok k name chunks :
  forall w d,
    fs w k = Some d ->
    exists w',
      write_chunks k name chunks None w = (Ok tt, w')
      /\ fs w' k = Some (append_file name (List.concat chunks) d)
      /\ (forall k', k' <> k -> fs w' k' = fs w k')
      /\ trace w' = trace w ++ map (EvWrite k name) chunks.
Proof.
  induction chunks as [|chunk rest IH]; intros w d Hk; simpl.
  - exists w. rewrite append_file_nil, app_nil_r. auto.
  - unfold bind at 1, file_write, bind, emit, put_dir. simpl. rewrite Hk.
    match goal with |- context [write_chunks k name rest None ?w1] =>
      destruct (IH w1 (append_file name chunk d)) as (w' & -> & Hk' & Hfr & Htr)
    end; [apply set_dir_same|].
    exists w'. split; [reflexivity|]. simpl in *.
    split; [now rewrite Hk', append_file_twice|].
    split.
    + intros k' Hne. rewrite Hfr by exact Hne. now apply set_dir_other.
    + rewrite Htr, <- app_assoc. reflexivity.
Qed.

Lemma aiter_bytes_concat chunk_size data :
  List.concat (aiter_bytes chunk_size data) = data.
Proof.
  funelim (aiter_bytes chunk_size data); [reflexivity|].
  simp aiter_bytes. simpl. rewrite H. now rewrite firstn_skipn.
Qed.

(** The fetch when all goes well: status 206, no fault while streaming. *)
Lemma fetch_and_store_success k s e req_header client w d host body :
  fs w k = Some d ->
  has_file (tag_name s e) d = true ->
  nth_error (Py.split "/" (raw_url client)) 2 = Some host ->
  get client = GetReturns {| status_code := 206; content := body |} ->
  stream_fault client = None ->
  exists w',
    fetch_and_store k s e req_header client w = (Ok (PyBool true), w')
    /\ fs w' k
       = Some (delete_file (tag_name s e)
                 (append_file (cache_file_name s e) body
                    (truncate_file (cache_file_name s e) d)))
    /\ (forall k', k' <> k -> fs w' k' = fs w k')
    /\ trace w'
       = trace w
         ++ [EvGet (raw_url client) (upstream_headers s e host req_header);
             EvOpenW k (cache_file_name s e)]
         ++ map (EvWrite k (cache_file_name s e)) (aiter_bytes 1024 body)
         ++ [EvLog INFO; EvRemove k (tag_name s e)].
Proof.
  intros Hk Htag Hhost Hget Hfault.
  unfold fetch_and_store. rewrite Hhost, Hfault.
  fold (upstream_headers s e host req_header).
  unfold try_except, http_get.
  unfold bind at 1. unfold bind at 1. rewrite emit_eval. rewrite Hget.
  unfold ret at 1. cbn [status_code content]. rewrite Z.eqb_refl.
  unfold bind at 1. unfold ret at 1.
  unfold bind at 1. erewrite open_w_eval by (simpl; exact Hk).
  unfold bind at 1.
  match goal with |- context [write_chunks k ?n ?cs None ?w1] =>
    destruct (@write_chunks_ok k n cs w1
                (truncate_file (cache_file_name s e) d))
      as (w2 & Hw & Hk2 & Hfr2 & Htr2)
  end; [apply set_dir_same|].
  rewrite Hw. rewrite aiter_bytes_concat in Hk2.
  unfold bind at 1. unfold log. rewrite emit_eval.
  unfold bind at 1.
  erewrite remove_ok; [|simpl; exact Hk2|].
  2:{ apply has_file_In. rewrite names_append. apply names_truncate. left.
      now apply has_file_In. }
  eexists. split; [reflexivity|]. simpl.
  split; [apply set_dir_same|]. split.
  - intros k' Hne. rewrite set_dir_other by congruence.
    rewrite Hfr2 by exact Hne. simpl. apply set_dir_other. congruence.
  - rewrite Htr2. simpl. rewrite <- !app_assoc. reflexivity.
Qed.


(** When the copy itself fails, the cache file is there: the handler
    removes it and the tag, and the call returns [False]. *)
Example stream_fault_is_cleaned_up :
  fst (write_cache_file Example.shard "42" (Example.request HIT 0 999) None
         {| raw_url := "https://cdn.example/d/movie.mkv";
            get := GetReturns {| status_code := 206;
                                 content := [Byte.x01; Byte.x02] |};
            stream_fault := Some O |} empty_world)
  = Ok (PyBool false)
  /\ fs (snd (write_cache_file Example.shard "42" (Example.request HIT 0 999)
                None
                {| raw_url := "https://cdn.example/d/movie.mkv";
                   get := GetReturns {| status_code := 206;
                                        content := [Byte.x01; Byte.x02] |};
                   stream_fault := Some O |} empty_world)) Example.dir
     = Some [].
Proof. split; vm_compute; reflexivity. Qed.

(* ===================================================================== *)
(** ** C5: a range that is already covered *)
(* ===================================================================== *)

Lemma overlap_loop_abort k s e files :
  forall w d,
    fs w k = Some d ->
    has_file (tag_name s e) d = true ->
    (forall g, In g files -> is_cache_file g = true ->
       exists a b, parse_range g = Some (a, b)
                   /\ ((a <= s /\ e <= b) \/ ~ (s <= a /\ b <= e))) ->
    (exists g a b, In g files /\ is_cache_file g = true
                   /\ parse_range g = Some (a, b) /\ a <= s /\ e <= b) ->
    overlap_loop k s e files w
    = (Ok true,
       {| fs := set_dir k (delete_file (tag_name s e) d) (fs w);
          trace := trace w ++ [EvLog WARNING; EvRemove k (tag_name s e)] |}).
Proof.
  induction files as [|file rest IH]; intros w d Hk Htag Hall Hex.
  - destruct Hex as (g & a & b & [] & _).
  - simpl. destruct (is_cache_file file) eqn:C.
    + destruct (Hall file (or_introl eq_refl) C) as (a & b & P & Hcase).
      rewrite P.
      destruct ((s >=? a) && (e <=? b)) eqn:Cov.
      * erewrite bind_ok by apply emit_eval.
        erewrite bind_ok by (apply remove_ok with (d := d); [exact Hk|exact Htag]).
        unfold ret. simpl. rewrite <- app_assoc. reflexivity.
      * assert (Hnot : ~ (a <= s /\ e <= b)).
        { apply andb_false_iff in Cov. rewrite Z.geb_leb, !Z.leb_gt in Cov. lia. }
        destruct Hcase as [Hc|Hc]; [contradiction|].
        assert (Sub : (s <=? a) && (e >=? b) = false).
        { apply andb_false_iff. rewrite Z.geb_leb, !Z.leb_gt. lia. }
        rewrite Sub. apply IH; auto.
        -- intros g Hg. apply Hall. now right.
        -- destruct Hex as (g & a' & b' & [<-|Hg] & Cg & Pg & Hg').
           ++ rewrite P in Pg. inversion Pg; subst. contradiction.
           ++ exists g, a', b'. auto.
    + apply IH; auto.
      * intros g Hg. apply Hall. now right.
      * destruct Hex as (g & a' & b' & [<-|Hg] & Cg & Pg & Hg').
        -- congruence.
        -- exists g, a', b'. auto.
Qed.

(** In a directory whose cache files are well named and not nested,
    a write whose target range [s, e] lies within the range of a file
    that is there returns [False]; the directory is what it was, but for a
    stale tag of the very same target, which is gone; no other directory
    changes; and the call has logged, made sure of the directory, set and
    removed its tag, and done nothing else: no request went upstream. *)
Lemma subsumed_write_is_noop :
  forall shard item_id request_info req_header client w d s e file a b,
    target_range request_info = Some (s, e) ->
    fs w (cache_dir_of shard request_info) = Some d ->
    well_named d ->
    no_containment d ->
    In file (names d) ->
    is_cache_file file = true ->
    parse_range file = Some (a, b) ->
    a <= s -> e <= b ->
    let k := cache_dir_of shard request_info in
    let r := write_cache_file shard item_id request_info req_header client w in
    fst r = Ok (PyBool false)
    /\ fs (snd r) k = Some (delete_file (tag_name s e) d)
    /\ (has_file (tag_name s e) d = false -> fs (snd r) k = Some d)
    /\ (forall k', k' <> k -> fs (snd r) k' = fs w k')
    /\ trace (snd r)
       = trace w ++ [EvLog DEBUG; EvMakedirs k; EvOpenW k (tag_name s e);
                     EvListdir k; EvLog WARNING; EvRemove k (tag_name s e)].
Proof.
  intros shard item_id request_info req_header client w d s e file a b
    Ht Hk Hwn Hnc Hin Hc Hp Ha Hb k r.
  subst r. unfold write_cache_file. fold k. rewrite Ht, write_prefix.
  fold k in Hk. rewrite Hk.
  erewrite bind_ok.
  2:{ apply overlap_loop_abort with (d := truncate_file (tag_name s e) d).
      - rewrite after_prefix_dir, Hk. reflexivity.
      - apply has_file_truncate.
      - intros g Hg Cg.
        assert (Hgd : In g (names d)).
        { apply names_truncate in Hg. destruct Hg as [Hg| ->]; [exact Hg|].
          rewrite NameFacts.tag_name_not_cache_file in Cg. discriminate. }
        destruct (parse_range g) as [[a' b']|] eqn:Pg;
          [|now destruct (Hwn g Hgd Cg)].
        exists a', b'. split; [reflexivity|].
        destruct (Z_le_dec a' s) as [H1|H1];
          [destruct (Z_le_dec e b') as [H2|H2]; [left; lia|]|];
          right; intros [H3 H4];
          (destruct (string_dec g file) as [->|Hne];
           [rewrite Hp in Pg; inversion Pg; subst; lia
           |apply (Hnc g file (a', b') (a, b)); auto; split; simpl; lia]).
      - exists file, a, b. repeat split; auto.
        apply names_truncate. now left. }
  unfold ret. simpl. rewrite set_dir_same, delete_truncate.
  split; [reflexivity|]. split; [reflexivity|].
  split; [intros H; now rewrite delete_absent|].
  split.
  - intros k' Hne. rewrite !set_dir_other by congruence. now rewrite Hk.
  - rewrite <- app_assoc. reflexivity.
Qed.

(* ===================================================================== *)
(** ** C6 and C4: the head cache, written and read back *)
(* ===================================================================== *)

Lemma head_names :
  cache_file_name 0 999 = "cache_file_0_999"
  /\ tag_name 0 999 = "cache_file_0_999.tag".
Proof. split; reflexivity. Qed.

Lemma head_name_facts :
  is_cache_file "cache_file_500_600" = true
  /\ parse_range "cache_file_500_600" = Some (500, 600)
  /\ is_cache_file "cache_file_0_999.tag" = false
  /\ Py.startswith "cache_file_0_999" "cache_file_" = true
  /\ is_cache_file "cache_file_0_999" = true
  /\ parse_range "cache_file_0_999" = Some (0, 999).
Proof. repeat split; vm_compute; reflexivity. Qed.

(** C6.  The target is [0, 999] and the directory holds
    [cache_file_500_600] alone.  With an upstream that answers 206 and a
    copy that does not fail, the call returns [True], the directory ends
    up with [cache_file_0_999] alone, holding the body, and the old file
    was removed before the request went out. *)
Theorem wider_write_supersedes :
  forall shard item_id request_info req_header client w old body authority,
    let k := cache_dir_of shard request_info in
    target_range request_info = Some (0, 999) ->
    fs w k = Some [("cache_file_500_600", old)] ->
    nth_error (Py.split "/" (raw_url client)) 2 = Some authority ->
    get client = GetReturns {| status_code := 206; content := body |} ->
    stream_fault client = None ->
    exists w',
      write_cache_file shard item_id request_info req_header client w
      = (Ok (PyBool true), w')
      /\ fs w' k = Some [("cache_file_0_999", body)]
      /\ trace w'
         = trace w
           ++ [EvLog DEBUG; EvMakedirs k; EvOpenW k "cache_file_0_999.tag";
               EvListdir k; EvLog WARNING; EvRemove k "cache_file_500_600";
               EvGet (raw_url client) (upstream_headers 0 999 authority req_header);
               EvOpenW k "cache_file_0_999"]
           ++ map (EvWrite k "cache_file_0_999") (aiter_bytes 1024 body)
           ++ [EvLog INFO; EvRemove k "cache_file_0_999.tag"].
Proof.
  intros shard item_id request_info req_header client w old body authority k
    Ht Hk Hhost Hget Hfault.
  destruct head_names as [Ecf Etag].
  destruct head_name_facts as (C1 & P1 & C2 & _).
  unfold write_cache_file. fold k. rewrite Ht, write_prefix, Hk.
  rewrite Etag.
  change (truncate_file "cache_file_0_999.tag" [("cache_file_500_600", old)])
    with [("cache_file_500_600", old); ("cache_file_0_999.tag", @nil Byte.byte)].
  cbn [names map fst overlap_loop]. rewrite C1, P1, C2.
  change ((0 >=? 500) && (999 <=? 600)) with false.
  change ((0 <=? 500) && (999 >=? 600)) with true. cbv iota.
  set (w1 := after_prefix k "cache_file_0_999.tag" w).
  assert (Hk1 : fs w1 k
                = Some [("cache_file_500_600", old);
                        ("cache_file_0_999.tag", [])]).
  { unfold w1. rewrite after_prefix_dir, Hk. reflexivity. }
  erewrite bind_ok.
  2:{ erewrite bind_ok by apply emit_eval.
      erewrite bind_ok by (eapply remove_ok; [exact Hk1|reflexivity]).
      reflexivity. }
  cbv iota.
  match goal with |- context [fetch_and_store k 0 999 req_header client ?w2] =>
    destruct (@fetch_and_store_success k 0 999 req_header client w2
                [("cache_file_0_999.tag", [])] authority body)
      as (w' & Hrun & Hk' & _ & Htr); auto
  end.
  { simpl. rewrite set_dir_same. reflexivity. }
  exists w'. split; [exact Hrun|]. split.
  - rewrite Hk'. reflexivity.
  - rewrite Htr, Ecf, Etag. unfold w1, after_prefix. simpl.
    rewrite <- !app_assoc. reflexivity.
Qed.

Lemma get_cache_status_eval shard request_info w d :
  fs w (cache_dir_of shard request_info) = Some d ->
  existsb (fun file => Py.endswith file ".tag") (names d) = false ->
  get_cache_status shard request_info w
  = probe_loop request_info (names d)
      {| fs := fs w;
         trace := trace w ++ [EvListdir (cache_dir_of shard request_info);
                              EvListdir (cache_dir_of shard request_info)] |}.
Proof.
  intros Hk Htags. unfold get_cache_status, path_exists.
  unfold bind at 1. rewrite Hk. cbn [negb].
  erewrite bind_ok by (apply listdir_eval; exact Hk).
  rewrite Htags.
  erewrite bind_ok by (apply listdir_eval; exact Hk).
  simpl. rewrite <- app_assoc. reflexivity.
Qed.

Lemma read_cache_file_eval shard request_info w d :
  fs w (cache_dir_of shard request_info) = Some d ->
  read_cache_file shard request_info w
  = find_cache_file request_info (cache_dir_of shard request_info) (names d)
      {| fs := fs w;
         trace := trace w ++ [EvListdir (cache_dir_of shard request_info)] |}.
Proof.
  intros Hk. unfold read_cache_file.
  erewrite bind_ok by (apply listdir_eval; exact Hk). reflexivity.
Qed.

(** The head cache written and read back, for every body and every
    [end_byte].  The cache directory is empty or not there yet; the request has
    status [HIT], [cache_file_size = 1000] and [start_byte = 500]; the
    upstream answers 206 and the copy does not fail.  Then the write
    returns [True] and leaves [cache_file_0_999] holding the body;
    [get_cache_status] then returns [True]; [read_cache_file] then hands
    back a stream over [cache_file_0_999] that starts at offset 500 of the
    file; run to its end, the stream gives the bytes of the file from
    offset 500 on, up to the inclusive end [end_byte - 500] that the
    reader sets for a [HIT]. *)
Lemma head_cache_scenario :
  forall shard item_id file_path file_size file_type last_byte host
         req_header client body authority w,
    let request_info :=
      {| file_info := {| path := file_path; size := file_size;
                         cache_file_size := 1000; type := file_type |};
         start_byte := 500; end_byte := last_byte; host_url := host;
         cache_status := HIT |} in
    let k := cache_dir_of shard request_info in
    fs w k = None \/ fs w k = Some [] ->
    nth_error (Py.split "/" (raw_url client)) 2 = Some authority ->
    get client = GetReturns {| status_code := 206; content := body |} ->
    stream_fault client = None ->
    exists w1 w2 w3 g chunks,
      write_cache_file shard item_id request_info req_header client w
      = (Ok (PyBool true), w1)
      /\ fs w1 k = Some [("cache_file_0_999", body)]
      /\ get_cache_status shard request_info w1 = (Ok true, w2)
      /\ read_cache_file shard request_info w2 = (Ok (Some g), w3)
      /\ gen_dir g = k
      /\ gen_file g = "cache_file_0_999"
      /\ gen_start g = 500
      /\ gen_end g = Some (last_byte - 500)
      /\ consume g w3 = (Ok chunks, w3)
      /\ List.concat chunks
         = firstn (Z.to_nat (last_byte - 999)) (skipn 500%nat body).
Proof.
  intros shard item_id file_path file_size file_type last_byte host
    req_header client body authority w request_info k Hk Hhost Hget Hfault.
  destruct head_names as [Ecf Etag].
  destruct head_name_facts as (_ & _ & C2 & S3 & C3 & P3).
  (* the write *)
  assert (Hwrite : exists w1,
             write_cache_file shard item_id request_info req_header client w
             = (Ok (PyBool true), w1)
             /\ fs w1 k = Some [("cache_file_0_999", body)]).
  { unfold write_cache_file. fold k.
    change (target_range request_info) with (Some (0, 999)).
    cbv iota. rewrite write_prefix, Etag.
    assert (Hd : truncate_file "cache_file_0_999.tag"
                   match fs w k with Some d => d | None => [] end
                 = [("cache_file_0_999.tag", [])])
      by (destruct Hk as [-> | ->]; reflexivity).
    rewrite Hd. cbn [names map fst overlap_loop]. rewrite C2.
    unfold bind at 1, ret at 1.
    match goal with |- context [fetch_and_store k 0 999 req_header client ?w2] =>
      destruct (@fetch_and_store_success k 0 999 req_header client w2
                  [("cache_file_0_999.tag", [])] authority body)
        as (w1 & Hrun & Hk1 & _ & _); auto
    end.
    { rewrite after_prefix_dir, Hd. reflexivity. }
    exists w1. split; [exact Hrun|]. rewrite Hk1. reflexivity. }
  destruct Hwrite as (w1 & Hrun & Hk1).
  exists w1. do 2 eexists.
  exists {| gen_dir := k; gen_file := "cache_file_0_999"; gen_start := 500;
            gen_end := Some (last_byte - 500);
            gen_chunk_size := default_chunk_size |}.
  (* the stream *)
  destruct (read_loop_bounded_end
              (n := List.length (skipn 500%nat body)) (skipn 500%nat body) 500
              (last_byte - 500) (cs := default_chunk_size) (le_n _))
    as [Hfault' Hdata]; [reflexivity|].
  eexists.
  split; [exact Hrun|]. split; [exact Hk1|].
  split.
  { erewrite get_cache_status_eval by (exact Hk1 || reflexivity).
    cbn [names map fst probe_loop]. rewrite S3, P3. reflexivity. }
  split.
  { erewrite read_cache_file_eval by exact Hk1.
    cbn [names map fst find_cache_file]. rewrite C3, P3. reflexivity. }
  split; [reflexivity|]. split; [reflexivity|]. split; [reflexivity|].
  split; [reflexivity|]. split.
  - unfold consume. cbn [gen_dir gen_file gen_start gen_end gen_chunk_size].
    apply read_file_present with (d := [("cache_file_0_999", body)])
                                 (content := body); auto; try lia.
  - change (Z.to_nat 500) with 500%nat. rewrite Hdata. f_equal. lia.
Qed.

(* ===================================================================== *)
(** ** C7, C1, C2: where the code leaves its own contract *)
(* ===================================================================== *)

(** C7.  A request whose status is none of [HIT], [PARTIAL], [HIT_TAIL]:
    the writer logs one error and touches nothing, and what it returns is
    Python's [None], not [False]. *)
Theorem unrecognised_status_returns_none :
  forall shard item_id file first last host req_header client w,
    write_cache_file shard item_id
      {| file_info := file; start_byte := first; end_byte := last;
         host_url := host; cache_status := MISS |}
      req_header client w
    = (Ok PyNone, {| fs := fs w; trace := trace w ++ [EvLog ERROR] |}).
Proof. reflexivity. Qed.

(** C1.  Three runs in which an exception leaves the operation: the
    writer on an upstream that answers 404, the writer on an upstream
    whose [get] raises, and the reader on a cache directory that does not
    exist.  Each time it is [FileNotFoundError]: in the writer, from the
    handler's [remove] of a cache file that was never opened. *)
Theorem failures_escape_as_exceptions :
  fst (write_cache_file Example.shard "42" (Example.request HIT 0 999) None
         (Example.answers 404 []) empty_world)
  = Raise FileNotFoundError
  /\ fst (write_cache_file Example.shard "42" (Example.request HIT 0 999) None
            Example.unreachable empty_world)
     = Raise FileNotFoundError
  /\ fst (read_cache_file Example.shard (Example.request HIT 0 999) empty_world)
     = Raise FileNotFoundError.
Proof. repeat split; vm_compute; reflexivity. Qed.

(** C2.  The write that met a 404 ends by raising, and the tag of its
    target range is still in the directory: the call's last step was the
    handler's attempt to remove the cache file, and the removal of the tag
    was never reached. *)
Theorem tag_survives_upstream_failure :
  fst (write_cache_file Example.shard "42" (Example.request HIT 0 999) None
         (Example.answers 404 []) empty_world)
  = Raise FileNotFoundError
  /\ fs (snd (write_cache_file Example.shard "42" (Example.request HIT 0 999)
                None (Example.answers 404 []) empty_world)) Example.dir
     = Some [("cache_file_0_999.tag", [])]
  /\ trace (snd (write_cache_file Example.shard "42"
                   (Example.request HIT 0 999) None
                   (Example.answers 404 []) empty_world))
     = [EvLog DEBUG; EvMakedirs Example.dir;
        EvOpenW Example.dir "cache_file_0_999.tag"; EvListdir Example.dir;
        EvGet "https://cdn.example/d/movie.mkv"
          [("host", "cdn.example"); ("range", "bytes=0-999")];
        EvLog ERROR; EvLog ERROR;
        EvRemove Example.dir "cache_file_0_999"].
Proof. repeat split; vm_compute; reflexivity. Qed.

(** C3 as stated fails.  A head write [0, 999] and then a tail write
    [500, 1999] for the same file both succeed, and their files share the
    bytes 500 to 999. *)
Lemma overlapping_ranges_coexist :
  exists d,
    fs (run_calls Example.shard [Example.head_call; Example.tail_call]
          empty_world) Example.dir = Some d
    /\ ~ no_overlap d.
Proof.
  eexists. split; [vm_compute; reflexivity|].
  intros H.
  apply (H "cache_file_0_999" "cache_file_500_1999" (0, 999) (500, 1999));
    try (vm_compute; reflexivity); simpl; auto; try discriminate.
  exists 500. simpl. lia.
Qed.

(* ===================================================================== *)
(** ** The theorems at work on concrete runs *)
(* ===================================================================== *)

Lemma read_file_yields_requested_range_witness :
  (0 <= 1 < 5 /\ 0 < 2)
  /\ ((forall end_point,
         1 <= end_point ->
         exists chunks,
           read_file Example.dir "f" 1 (Some end_point) 2 Example.five
           = (Ok chunks, Example.five)
           /\ List.concat chunks
              = file_slice [Byte.x01; Byte.x02; Byte.x03; Byte.x04; Byte.x05] 1
                  (Z.min end_point (Z.of_nat 5 - 1)))
      /\ (exists chunks,
            read_file Example.dir "f" 1 None 2 Example.five
            = (Ok chunks, Example.five)
            /\ List.concat chunks
               = skipn (Z.to_nat 1)
                   [Byte.x01; Byte.x02; Byte.x03; Byte.x04; Byte.x05])
      /\ (forall end_point rest pos cs,
            0 < cs ->
            (read_step (Some end_point) rest pos cs = Break
             <-> end_point + 1 - pos <= 0 \/ rest = []))).
Proof.
  split; [lia|].
  apply (@read_file_yields_requested_range Example.five Example.dir
           [("f", [Byte.x01; Byte.x02; Byte.x03; Byte.x04; Byte.x05])] "f"
           [Byte.x01; Byte.x02; Byte.x03; Byte.x04; Byte.x05] 1 2).
  - reflexivity.
  - reflexivity.
  - simpl. lia.
  - lia.
Defined.

Lemma read_file_chunks_bounded_witness :
  0 < 2
  /\ exists chunks w',
       read_file Example.dir "f" 1 (Some 3) 2 Example.five = (Ok chunks, w')
       /\ Forall (fun chunk =>
                    chunk <> [] /\ Z.of_nat (List.length chunk) <= 2)
            chunks.
Proof.
  split; [lia|].
  apply (@read_file_chunks_bounded Example.five Example.dir "f" 1 (Some 3) 2).
  lia.
Defined.

Lemma cache_directory_exists_after_write_witness :
  cache_status (Example.request HIT 0 999) = HIT
  /\ fs (snd (write_cache_file Example.shard "42" (Example.request HIT 0 999)
                None (Example.answers 404 []) empty_world))
       (cache_dir_of Example.shard (Example.request HIT 0 999))
     <> None.
Proof.
  split; [reflexivity|].
  apply (@cache_directory_exists_after_write Example.shard "42"
           (Example.request HIT 0 999) None (Example.answers 404 [])
           empty_world).
  left. reflexivity.
Defined.

Lemma writes_keep_ranges_unnested_witness :
  fs (run_calls Example.shard [Example.head_call; Example.tail_call]
        empty_world) Example.dir
  = Some [("cache_file_0_999", [Byte.x01; Byte.x02]);
          ("cache_file_500_1999", [Byte.x03])]
  /\ parse_range "cache_file_0_999" = Some (0, 999)
  /\ parse_range "cache_file_500_1999" = Some (500, 1999)
  /\ ~ contains_range (500, 1999) (0, 999).
Proof.
  split; [vm_compute; reflexivity|].
  split; [vm_compute; reflexivity|].
  split; [vm_compute; reflexivity|].
  apply (@writes_keep_ranges_unnested Example.shard
           [Example.head_call; Example.tail_call] Example.dir
           [("cache_file_0_999", [Byte.x01; Byte.x02]);
            ("cache_file_500_1999", [Byte.x03])]
           "cache_file_0_999" "cache_file_500_1999" (0, 999) (500, 1999)).
  - vm_compute. reflexivity.
  - simpl. auto.
  - simpl. auto.
  - discriminate.
  - vm_compute. reflexivity.
  - vm_compute. reflexivity.
  - vm_compute. reflexivity.
  - vm_compute. reflexivity.
Defined.

Lemma wider_write_supersedes_witness :
  (target_range (Example.request HIT 0 999) = Some (0, 999)
   /\ fs Example.narrow Example.dir = Some [("cache_file_500_600", [Byte.x07])])
  /\ exists w',
       write_cache_file Example.shard "42" (Example.request HIT 0 999) None
         (Example.answers 206 [Byte.x01; Byte.x02]) Example.narrow
       = (Ok (PyBool true), w')
       /\ fs w' Example.dir = Some [("cache_file_0_999", [Byte.x01; Byte.x02])]
       /\ trace w'
          = trace Example.narrow
            ++ [EvLog DEBUG; EvMakedirs Example.dir;
                EvOpenW Example.dir "cache_file_0_999.tag";
                EvListdir Example.dir; EvLog WARNING;
                EvRemove Example.dir "cache_file_500_600";
                EvGet (raw_url (Example.answers 206 [Byte.x01; Byte.x02]))
                  (upstream_headers 0 999 "cdn.example" None);
                EvOpenW Example.dir "cache_file_0_999"]
            ++ map (EvWrite Example.dir "cache_file_0_999")
                 (aiter_bytes 1024 [Byte.x01; Byte.x02])
            ++ [EvLog INFO; EvRemove Example.dir "cache_file_0_999.tag"].
Proof.
  split; [split; reflexivity|].
  apply (@wider_write_supersedes Example.shard "42"
           (Example.request HIT 0 999) None
           (Example.answers 206 [Byte.x01; Byte.x02]) Example.narrow
           [Byte.x07] [Byte.x01; Byte.x02] "cdn.example").
  - reflexivity.
  - reflexivity.
  - vm_compute. reflexivity.
  - reflexivity.
  - reflexivity.
Defined.

(* ===================================================================== *)
(** ** Probing and locating: [get_cache_status] and [read_cache_file] *)
(* ===================================================================== *)

Lemma probe_loop_fs request_info files :
  forall w, fs (snd (probe_loop request_info files w)) = fs w.
Proof.
  induction files as [|file rest IH]; intros w; simpl; [reflexivity|].
  destruct (Py.startswith file "cache_file_"); [|apply IH].
  destruct (parse_range file) as [[a b]|]; [|reflexivity].
  destruct ((a <=? start_byte request_info) && (start_byte request_info <=? b));
    [reflexivity | apply IH].
Qed.

Lemma find_cache_file_fs request_info k files :
  forall w, fs (snd (find_cache_file request_info k files w)) = fs w.
Proof.
  induction files as [|file rest IH]; intros w; simpl; [reflexivity|].
  destruct (is_cache_file file); [|apply IH].
  destruct (parse_range file) as [[a b]|]; [|reflexivity].
  destruct ((a <=? start_byte request_info) && (start_byte request_info <=? b));
    [reflexivity | apply IH].
Qed.

Lemma read_file_fs k file start_point end_point chunk_size w :
  fs (snd (read_file k file start_point end_point chunk_size w)) = fs w.
Proof.
  unfold read_file.
  destruct (match fs w k with Some d => lookup_file file d | None => None end);
    [|reflexivity].
  destruct (start_point <? 0); [reflexivity|]. cbv zeta.
  match goal with |- context [snd (read_loop ?e ?r ?p ?c)] =>
    destruct (snd (read_loop e r p c)) end; reflexivity.
Qed.

Lemma get_cache_status_fs shard request_info w :
  fs (snd (get_cache_status shard request_info w)) = fs w.
Proof.
  unfold get_cache_status, path_exists. unfold bind at 1.
  destruct (fs w (cache_dir_of shard request_info)) as [d|] eqn:Hk;
    cbn [negb]; [|reflexivity].
  erewrite bind_ok by (apply listdir_eval; exact Hk).
  destruct (existsb (fun file => Py.endswith file ".tag") (names d));
    [reflexivity|].
  erewrite bind_ok by (apply listdir_eval; exact Hk).
  now rewrite probe_loop_fs.
Qed.

Lemma read_cache_file_fs shard request_info w :
  fs (snd (read_cache_file shard request_info w)) = fs w.
Proof.
  unfold read_cache_file.
  destruct (fs w (cache_dir_of shard request_info)) as [d|] eqn:Hk.
  - erewrite bind_ok by (apply listdir_eval; exact Hk).
    now rewrite find_cache_file_fs.
  - unfold bind, listdir, bind, emit, raise. simpl. now rewrite Hk.
Qed.

(** X1.  Probing, locating and streaming only look: whatever they return
    or raise, every directory of the cache tree is what it was. *)
Theorem lookups_change_nothing :
  forall shard request_info g w,
    fs (snd (get_cache_status shard request_info w)) = fs w
    /\ fs (snd (read_cache_file shard request_info w)) = fs w
    /\ fs (snd (consume g w)) = fs w.
Proof.
  intros shard request_info g w. split; [|split].
  - apply get_cache_status_fs.
  - apply read_cache_file_fs.
  - apply read_file_fs.
Qed.

Lemma prober_none shard request_info w :
  fs w (cache_dir_of shard request_info) = None ->
  fst (get_cache_status shard request_info w) = Ok false.
Proof.
  intros Hk. unfold get_cache_status, path_exists. unfold bind at 1.
  now rewrite Hk.
Qed.

Lemma prober_tagged shard request_info w d :
  fs w (cache_dir_of shard request_info) = Some d ->
  has_tag d = true ->
  fst (get_cache_status shard request_info w) = Ok false.
Proof.
  intros Hk Ht. unfold get_cache_status, path_exists. unfold bind at 1.
  rewrite Hk. cbn [negb].
  erewrite bind_ok by (apply listdir_eval; exact Hk).
  unfold has_tag in Ht. now rewrite Ht.
Qed.

(** X2.  A directory that is not there, or that holds any tag file, is
    not ready: the prober answers [False], whatever cache files the
    directory holds. *)
Theorem prober_refuses_unready_directory :
  forall shard request_info w,
    fs w (cache_dir_of shard request_info) = None
    \/ (exists d, fs w (cache_dir_of shard request_info) = Some d
                  /\ has_tag d = true) ->
    fst (get_cache_status shard request_info w) = Ok false.
Proof.
  intros shard request_info w [Hk|(d & Hk & Ht)].
  - now apply prober_none.
  - now apply prober_tagged with (d := d).
Qed.

Lemma no_tag_is_cache_file d n :
  has_tag d = false -> In n (names d) ->
  is_cache_file n = Py.startswith n "cache_file_".
Proof.
  intros Ht Hn. unfold is_cache_file.
  destruct (Py.endswith n ".tag") eqn:E; [|now rewrite andb_true_r].
  assert (has_tag d = true); [|congruence].
  unfold has_tag. apply existsb_exists. now exists n.
Qed.

Lemma probe_loop_spec request_info files :
  forall w,
    (forall n, In n files ->
       Py.startswith n "cache_file_" = true -> parse_range n <> None) ->
    exists b,
      fst (probe_loop request_info files w) = Ok b
      /\ (b = true <->
          exists file, In file files
                       /\ Py.startswith file "cache_file_" = true
                       /\ covers (start_byte request_info) file).
Proof.
  induction files as [|file rest IH]; intros w Hwn; simpl.
  - exists false. split; [reflexivity|]. split; [discriminate|].
    intros (f & [] & _).
  - destruct (Py.startswith file "cache_file_") eqn:S.
    + destruct (parse_range file) as [[a b]|] eqn:P;
        [|now destruct (Hwn file (or_introl eq_refl) S)].
      destruct ((a <=? start_byte request_info)
                && (start_byte request_info <=? b)) eqn:C.
      * exists true. split; [reflexivity|]. split; [|reflexivity].
        intros _. exists file. split; [now left|]. split; [exact S|].
        exists a, b. apply andb_true_iff in C. rewrite !Z.leb_le in C. auto.
      * destruct (IH w) as (r & Hr & Hiff).
        { intros n Hn. apply Hwn. now right. }
        exists r. split; [exact Hr|]. rewrite Hiff. split.
        -- intros (f & Hf & Hrest). exists f. split; [now right|exact Hrest].
        -- intros (f & [<-|Hf] & Sf & (a' & b' & Pf & Hab)).
           ++ rewrite P in Pf. inversion Pf; subst.
              apply andb_false_iff in C. rewrite !Z.leb_gt in C. lia.
           ++ exists f. split; [exact Hf|]. split; [exact Sf|].
              now exists a', b'.
    + destruct (IH w) as (r & Hr & Hiff).
      { intros n Hn. apply Hwn. now right. }
      exists r. split; [exact Hr|]. rewrite Hiff. split.
      * intros (f & Hf & Hrest). exists f. split; [now right|exact Hrest].
      * intros (f & [<-|Hf] & Sf & Hc); [congruence|].
        exists f. auto.
Qed.

Lemma get_cache_status_spec shard request_info w d :
  fs w (cache_dir_of shard request_info) = Some d ->
  has_tag d = false ->
  well_named d ->
  exists b,
    fst (get_cache_status shard request_info w) = Ok b
    /\ (b = true <->
        exists file, In file (names d)
                     /\ is_cache_file file = true
                     /\ covers (start_byte request_info) file).
Proof.
  intros Hk Ht Hwn.
  erewrite get_cache_status_eval by (exact Hk || exact Ht).
  match goal with |- context [probe_loop request_info (names d) ?w1] =>
    destruct (@probe_loop_spec request_info (names d) w1) as (b & Hb & Hiff)
  end.
  { intros n Hn S. apply Hwn; [exact Hn|].
    now rewrite (no_tag_is_cache_file d n Ht Hn). }
  exists b. split; [exact Hb|]. rewrite Hiff.
  split; intros (f & Hf & S & Hc); exists f; (split; [exact Hf|]);
    (split; [|exact Hc]).
  - now rewrite (no_tag_is_cache_file d f Ht Hf).
  - now rewrite <- (no_tag_is_cache_file d f Ht Hf).
Qed.


Lemma find_cache_file_sound request_info k files :
  forall w g w',
    find_cache_file request_info k files w = (Ok (Some g), w') ->
    exists a b,
      In (gen_file g) files
      /\ is_cache_file (gen_file g) = true
      /\ parse_range (gen_file g) = Some (a, b)
      /\ a <= start_byte request_info <= b
      /\ g = {| gen_dir := k; gen_file := gen_file g;
                gen_start := start_byte request_info - a;
                gen_end := adjusted_end request_info;
                gen_chunk_size := default_chunk_size |}.
Proof.
  induction files as [|file rest IH]; intros w g w' H; simpl in H.
  - discriminate H.
  - destruct (is_cache_file file) eqn:C.
    2:{ destruct (IH _ _ _ H) as (a & b & Hin & Hrest).
        exists a, b. split; [now right|exact Hrest]. }
    destruct (parse_range file) as [[a b]|] eqn:P; [|discriminate H].
    destruct ((a <=? start_byte request_info)
              && (start_byte request_info <=? b)) eqn:Cov.
    + unfold bind, log, emit, ret in H. simpl in H. inversion H; subst g.
      apply andb_true_iff in Cov. rewrite !Z.leb_le in Cov.
      exists a, b. simpl. repeat split; auto; try lia.
    + destruct (IH _ _ _ H) as (a' & b' & Hin & Hrest).
      exists a', b'. split; [now right|exact Hrest].
Qed.

(** X4.  When the reader hands back a stream, it is a stream over a cache
    file of the request's directory whose range [a, b] holds
    [start_byte]; it starts at the offset [start_byte - a] of that file,
    which lies inside the range; its end point is absent for [PARTIAL]
    and [HIT_TAIL] and is [end_byte - start_byte] otherwise; and it reads
    in chunks of 1 MiB. *)
Theorem reader_stream_is_translated :
  forall shard request_info w g w',
    read_cache_file shard request_info w = (Ok (Some g), w') ->
    exists d a b,
      fs w (cache_dir_of shard request_info) = Some d
      /\ In (gen_file g) (names d)
      /\ is_cache_file (gen_file g) = true
      /\ parse_range (gen_file g) = Some (a, b)
      /\ a <= start_byte request_info <= b
      /\ gen_dir g = cache_dir_of shard request_info
      /\ gen_start g = start_byte request_info - a
      /\ 0 <= gen_start g <= b - a
      /\ gen_end g = adjusted_end request_info
      /\ gen_chunk_size g = 1024 * 1024.
Proof.
  intros shard request_info w g w' H. unfold read_cache_file in H.
  destruct (fs w (cache_dir_of shard request_info)) as [d|] eqn:Hk.
  - erewrite bind_ok in H by (apply listdir_eval; exact Hk).
    apply find_cache_file_sound in H.
    destruct H as (a & b & Hin & C & P & Hab & Hg).
    exists d, a, b. rewrite Hg. simpl. repeat split; auto; lia.
  - unfold bind, listdir, bind, emit, raise in H. simpl in H.
    rewrite Hk in H. discriminate H.
Qed.



Lemma probe_then_find request_info k files :
  forall w w2,
    fst (probe_loop request_info files w) = Ok true ->
    (forall n, In n files -> Py.endswith n ".tag" = false) ->
    exists g, fst (find_cache_file request_info k files w2) = Ok (Some g).
Proof.
  induction files as [|file rest IH]; intros w w2 H Hnt; simpl in H |- *.
  - discriminate H.
  - assert (E : is_cache_file file = Py.startswith file "cache_file_").
    { unfold is_cache_file. rewrite (Hnt file (or_introl eq_refl)).
      apply andb_true_r. }
    rewrite E. destruct (Py.startswith file "cache_file_").
    + destruct (parse_range file) as [[a b]|]; [|discriminate H].
      destruct ((a <=? start_byte request_info)
                && (start_byte request_info <=? b)).
      * eexists. reflexivity.
      * apply (IH w w2 H). intros n Hn. apply Hnt. now right.
    + apply (IH w w2 H). intros n Hn. apply Hnt. now right.
Qed.

(** X6.  Whenever the prober answers [True], the reader, called next for
    the same request, hands back a stream. *)
Theorem probed_range_can_be_read :
  forall shard request_info w,
    fst (get_cache_status shard request_info w) = Ok true ->
    exists g,
      fst (read_cache_file shard request_info
             (snd (get_cache_status shard request_info w)))
      = Ok (Some g).
Proof.
  intros shard request_info w H.
  destruct (fs w (cache_dir_of shard request_info)) as [d|] eqn:Hk.
  2:{ rewrite prober_none in H; [discriminate H|exact Hk]. }
  destruct (has_tag d) eqn:Ht.
  { rewrite (prober_tagged _ _ _ Hk Ht) in H. discriminate H. }
  erewrite read_cache_file_eval by (rewrite get_cache_status_fs; exact Hk).
  erewrite get_cache_status_eval in H by (exact Hk || exact Ht).
  eapply probe_then_find; [exact H|].
  intros n Hn. destruct (Py.endswith n ".tag") eqn:E; [|reflexivity].
  assert (has_tag d = true); [|congruence].
  unfold has_tag. apply existsb_exists. now exists n.
Qed.

Lemma lookup_file_In name d :
  In name (names d) -> exists content, lookup_file name d = Some content.
Proof.
  induction d as [|[n c] d IH]; simpl; [intros []|].
  intros [E|Hin].
  - subst n. rewrite String.eqb_refl. now exists c.
  - destruct (String.eqb n name); [now exists c | now apply IH].
Qed.

(** X7.  The stream that the reader hands back, run to its end, does not
    raise and leaves the world as it is.  For [PARTIAL] and [HIT_TAIL] it
    carries the cache file from the translated offset to its end; for the
    other statuses it carries the file offsets from the translated offset
    through [end_byte - start_byte]. *)
Theorem reader_stream_content :
  forall shard request_info w g w' d,
    read_cache_file shard request_info w = (Ok (Some g), w') ->
    fs w (cache_dir_of shard request_info) = Some d ->
    exists content chunks,
      lookup_file (gen_file g) d = Some content
      /\ consume g w' = (Ok chunks, w')
      /\ List.concat chunks
         = match adjusted_end request_info with
           | None => skipn (Z.to_nat (gen_start g)) content
           | Some last => file_slice content (gen_start g) last
           end.
Proof.
  intros shard request_info w g w' d H Hk.
  assert (Hfs : fs w' = fs w).
  { pose proof (read_cache_file_fs shard request_info w) as E.
    rewrite H in E. exact E. }
  unfold read_cache_file in H.
  erewrite bind_ok in H by (apply listdir_eval; exact Hk).
  apply find_cache_file_sound in H.
  destruct H as (a & b & Hin & C & P & Hab & Hg).
  destruct (lookup_file_In _ _ Hin) as (content & Hc).
  exists content. rewrite Hg. unfold consume.
  cbn [gen_dir gen_file gen_start gen_end gen_chunk_size].
  set (start := start_byte request_info - a).
  set (rest := skipn (Z.to_nat start) content).
  destruct (adjusted_end request_info) as [last|].
  - destruct (read_loop_bounded_end (n := List.length rest) rest start last
                (cs := default_chunk_size) (le_n _)) as [Hf Hdata];
      [reflexivity|].
    eexists. split; [exact Hc|]. split.
    + apply read_file_present with (d := d) (content := content); auto.
      * now rewrite Hfs.
      * unfold start. lia.
    + exact Hdata.
  - destruct (read_loop_to_eof (n := List.length rest) rest start
                (cs := default_chunk_size) (le_n _)) as [Hf Hdata];
      [reflexivity|].
    eexists. split; [exact Hc|]. split.
    + apply read_file_present with (d := d) (content := content); auto.
      * now rewrite Hfs.
      * unfold start. lia.
    + exact Hdata.
Qed.

(* ===================================================================== *)
(** ** [read_file]: the pieces of the stream, and its empty cases *)
(* ===================================================================== *)

Lemma aiter_bytes_cons n b r :
  aiter_bytes (S n) (b :: r) = (b :: firstn n r) :: aiter_bytes (S n) (skipn n r).
Proof. rewrite aiter_bytes_equation_2. simpl. now rewrite Nat.sub_0_r. Qed.

Lemma aiter_bytes_nil n : aiter_bytes n [] = [].
Proof. apply aiter_bytes_equation_1. Qed.

(** Cutting the first [R] bytes into pieces of [c], seen one piece at a
    time the way the loop of [read_file] goes. *)
Lemma pieces_step (c R : nat) (b : Byte.byte) (r : bytes) :
  (1 <= c)%nat -> (1 <= R)%nat ->
  aiter_bytes c (firstn R (b :: r))
  = firstn (Nat.min c R) (b :: r)
    :: aiter_bytes (Nat.min c R)
         (firstn (R - List.length (firstn (Nat.min c R) (b :: r)))
            (skipn (Nat.min c R) (b :: r))).
Proof.
  intros Hc HR. destruct c as [|c]; [lia|]. destruct R as [|q]; [lia|].
  rewrite <- Nat.succ_min_distr. cbn [firstn skipn List.length].
  rewrite aiter_bytes_cons, firstn_firstn. f_equal.
  rewrite skipn_firstn_comm, List.length_firstn.
  destruct (Nat.le_gt_cases c q) as [Hcq|Hcq].
  - rewrite (Nat.min_l c q) by lia.
    destruct (Nat.le_gt_cases c (List.length r)) as [Hr|Hr].
    + rewrite (Nat.min_l c) by lia. reflexivity.
    + rewrite skipn_all2 by lia. now rewrite !firstn_nil.
  - rewrite (Nat.min_r c q) by lia.
    replace (q - c)%nat with O by lia. rewrite firstn_0, aiter_bytes_nil.
    destruct (Nat.le_gt_cases q (List.length r)) as [Hr|Hr].
    + rewrite (Nat.min_l q) by lia.
      replace (S q - S q)%nat with O by lia.
      now rewrite firstn_0, aiter_bytes_nil.
    + rewrite (skipn_all2 r) by lia. now rewrite firstn_nil, aiter_bytes_nil.
Qed.

Lemma read_loop_pieces_end n :
  forall rest pos e cs,
    (List.length rest <= n)%nat -> 0 < cs ->
    fst (read_loop (Some e) rest pos cs)
    = aiter_bytes (Z.to_nat cs) (firstn (Z.to_nat (e + 1 - pos)) rest).
Proof.
  induction n as [|n IH]; intros rest pos e cs Hlen Hcs;
    rewrite read_loop_step; unfold read_step;
    destruct (Z.leb_spec (e + 1 - pos) 0) as [Hrem|Hrem].
  - replace (Z.to_nat (e + 1 - pos)) with O by lia.
    now rewrite firstn_0, aiter_bytes_nil.
  - destruct rest; [|simpl in Hlen; lia].
    rewrite read_chunk_nonneg by lia. now rewrite !firstn_nil, aiter_bytes_nil.
  - replace (Z.to_nat (e + 1 - pos)) with O by lia.
    now rewrite firstn_0, aiter_bytes_nil.
  - rewrite read_chunk_nonneg by lia.
    destruct rest as [|b r]; [now rewrite !firstn_nil, aiter_bytes_nil|].
    rewrite (@pieces_step (Z.to_nat cs) (Z.to_nat (e + 1 - pos)) b r) by lia.
    replace (Z.to_nat (Z.min cs (e + 1 - pos)))
      with (Nat.min (Z.to_nat cs) (Z.to_nat (e + 1 - pos))) by lia.
    set (M := Nat.min (Z.to_nat cs) (Z.to_nat (e + 1 - pos))).
    assert (HM : (1 <= M)%nat) by (unfold M; lia).
    destruct (firstn M (b :: r)) as [|b' data] eqn:E.
    { destruct M; [lia|discriminate E]. }
    cbv zeta. cbn [fst]. f_equal.
    rewrite IH.
    + replace (Z.to_nat (Z.min cs (e + 1 - pos))) with M by (unfold M; lia).
      do 2 f_equal.
      clear. generalize (List.length (b' :: data)). intros L. lia.
    + rewrite List.length_skipn. cbn [List.length] in Hlen |- *. lia.
    + lia.
Qed.

Lemma read_loop_pieces_eof n :
  forall rest pos cs,
    (List.length rest <= n)%nat -> 0 < cs ->
    fst (read_loop None rest pos cs) = aiter_bytes (Z.to_nat cs) rest.
Proof.
  induction n as [|n IH]; intros rest pos cs Hlen Hcs;
    rewrite read_loop_step; unfold read_step;
    rewrite read_chunk_nonneg by lia.
  - destruct rest; [|simpl in Hlen; lia].
    now rewrite firstn_nil, aiter_bytes_nil.
  - destruct rest as [|b r]; [now rewrite firstn_nil, aiter_bytes_nil|].
    destruct (Z.to_nat cs) as [|c] eqn:Ec; [lia|].
    cbn [firstn skipn]. cbv zeta. cbn [fst].
    rewrite aiter_bytes_cons. f_equal.
    rewrite IH; [now rewrite Ec| |exact Hcs].
    rewrite List.length_skipn. simpl in Hlen. lia.
Qed.

(** X8.  For a file that is there, a start that is not negative and a
    positive chunk size, the chunks of [read_file] are the requested
    bytes cut into consecutive pieces of [chunk_size] bytes, the last one
    possibly shorter: the same pieces that [aiter_bytes(chunk_size)]
    makes of those bytes. *)
Theorem read_file_cuts_even_pieces :
  forall w k d file content start_point end_point chunk_size,
    fs w k = Some d ->
    lookup_file file d = Some content ->
    0 <= start_point ->
    0 < chunk_size ->
    read_file k file start_point end_point chunk_size w
    = (Ok (aiter_bytes (Z.to_nat chunk_size)
             match end_point with
             | None => skipn (Z.to_nat start_point) content
             | Some last =>
                 firstn (Z.to_nat (last + 1 - start_point))
                   (skipn (Z.to_nat start_point) content)
             end), w).
Proof.
  intros w k d file content start_point end_point chunk_size Hk Hf Hs Hcs.
  set (rest := skipn (Z.to_nat start_point) content).
  destruct end_point as [last|].
  - destruct (read_loop_bounded_end (n := List.length rest) rest start_point
                last (cs := chunk_size) (le_n _) Hcs) as [Hfault _].
    rewrite <- (read_loop_pieces_end (n := List.length rest) rest start_point
                  last (cs := chunk_size) (le_n _) Hcs).
    now apply read_file_present with (d := d).
  - destruct (read_loop_to_eof (n := List.length rest) rest start_point
                (cs := chunk_size) (le_n _) Hcs) as [Hfault _].
    rewrite <- (read_loop_pieces_eof (n := List.length rest) rest start_point
                  (cs := chunk_size) (le_n _) Hcs).
    now apply read_file_present with (d := d).
Qed.

Lemma read_loop_nothing e rest pos cs :
  rest = [] \/ (exists last, e = Some last /\ last < pos) ->
  fst (read_loop e rest pos cs) = [].
Proof.
  intros H. rewrite read_loop_step.
  destruct (read_step e rest pos cs) as [| |data rest' cs'] eqn:E;
    [reflexivity|reflexivity|].
  exfalso. destruct H as [->|(last & -> & Hlt)].
  - apply read_step_yield in E. destruct E as [Hd E].
    symmetry in E. apply app_eq_nil in E. tauto.
  - unfold read_step in E.
    destruct (Z.leb_spec (last + 1 - pos) 0); [discriminate E|lia].
Qed.

(** X9.  The stream is empty, and nothing is raised, whatever the chunk
    size, when the file is not there, when the start is negative, when the
    start lies at or beyond the end of the file, and when the end point
    lies before the start. *)
Theorem read_file_empty_cases :
  forall w k file start_point end_point chunk_size,
    (match fs w k with Some d => lookup_file file d | None => None end) = None
    \/ start_point < 0
    \/ (exists d content,
          fs w k = Some d /\ lookup_file file d = Some content
          /\ Z.of_nat (List.length content) <= start_point)
    \/ (exists last, end_point = Some last /\ last < start_point) ->
    fst (read_file k file start_point end_point chunk_size w) = Ok [].
Proof.
  intros w k file start_point end_point chunk_size H. unfold read_file.
  destruct (match fs w k with Some d => lookup_file file d | None => None end)
    as [content|] eqn:Hf; [|reflexivity].
  destruct (Z.ltb_spec start_point 0) as [Hneg|Hpos]; [reflexivity|].
  cbv zeta.
  assert (Hnone : fst (read_loop end_point
                         (skipn (Z.to_nat start_point) content)
                         start_point chunk_size) = []).
  { apply read_loop_nothing.
    destruct H as [H|[H|[(d & c & Hk & Hc & Hlen)|H]]].
    - discriminate H.
    - lia.
    - left. rewrite Hk, Hc in Hf. inversion Hf; subst c.
      apply skipn_all2. lia.
    - now right. }
  rewrite Hnone.
  match goal with |- context [snd (read_loop ?e ?r ?p ?c)] =>
    destruct (snd (read_loop e r p c)) end; reflexivity.
Qed.

(* ===================================================================== *)
(** ** The name of a cache file and the range it stands for *)
(* ===================================================================== *)

(** X10.  The name under which the writer stores a range reads back as
    that range in the listing loops of the writer, the reader and the
    prober; it counts as a cache file, while the tag of the same range
    never does; and two ranges never share a name. *)
Theorem range_name_round_trip :
  forall s e,
    parse_range (cache_file_name s e) = Some (s, e)
    /\ is_cache_file (cache_file_name s e) = true
    /\ Py.startswith (cache_file_name s e) "cache_file_" = true
    /\ is_cache_file (tag_name s e) = false
    /\ Py.endswith (tag_name s e) ".tag" = true
    /\ (forall s' e',
          cache_file_name s e = cache_file_name s' e' -> s = s' /\ e = e').
Proof.
  intros s e.
  split; [apply NameFacts.parse_cache_file_name|].
  split; [apply NameFacts.cache_file_name_is_cache_file|].
  split; [apply NameFacts.startswith_app|].
  split; [apply NameFacts.tag_name_not_cache_file|].
  split; [apply NameFacts.endswith_app|].
  intros s' e' H.
  pose proof (NameFacts.parse_cache_file_name s e) as P.
  rewrite H, NameFacts.parse_cache_file_name in P. now inversion P.
Qed.

(* ===================================================================== *)
(** ** The writer, path by path *)
(* ===================================================================== *)

Lemma tag_not_cache_name s e file :
  is_cache_file file = true -> file <> tag_name s e.
Proof.
  intros C ->. rewrite NameFacts.tag_name_not_cache_file in C. discriminate.
Qed.

(** What the pass over the listing leaves, by the way it ends. *)
Lemma overlap_loop_outcome k s e files :
  forall w d r w',
    fs w k = Some d ->
    In (tag_name s e) (names d) ->
    overlap_loop k s e files w = (r, w') ->
    exists d',
      fs w' k = Some d'
      /\ (forall n, In n (names d') -> In n (names d))
      /\ match r with
         | Ok true =>
             ~ In (tag_name s e) (names d')
             /\ exists file, In file files /\ covers_target s e file
         | Ok false =>
             In (tag_name s e) (names d')
             /\ forall n, In n files -> In n (names d') -> unrelated s e n
         | Raise _ => In (tag_name s e) (names d')
         end.
Proof.
  induction files as [|file rest IH]; intros w d r w' Hk Htag H; simpl in H.
  - inversion H; subst. exists d. repeat split; auto; intros n [].
  - destruct (is_cache_file file) eqn:C.
    2:{ destruct (IH _ _ _ _ Hk Htag H) as (d' & Hk' & Hsub & Hr).
        exists d'. split; [exact Hk'|]. split; [exact Hsub|].
        destruct r as [[|]|ex]; auto.
        - destruct Hr as [Hnt (f & Hf & Hc)]. split; [exact Hnt|].
          exists f. split; [now right|exact Hc].
        - destruct Hr as [Ht Hun]. split; [exact Ht|].
          intros n [<-|Hn] Hin; [intros C'; congruence | auto]. }
    destruct (parse_range file) as [[a b]|] eqn:P.
    2:{ inversion H; subst. exists d. auto. }
    destruct ((s >=? a) && (e <=? b)) eqn:Cov.
    { apply andb_true_iff in Cov. rewrite Z.geb_leb, !Z.leb_le in Cov.
      erewrite bind_ok in H by apply emit_eval.
      assert (Hh : has_file (tag_name s e) d = true) by now apply has_file_In.
      erewrite bind_ok in H by (apply remove_ok with (d := d); [exact Hk|exact Hh]).
      inversion H; subst. simpl. rewrite set_dir_same.
      eexists. split; [reflexivity|]. split.
      - intros n Hn. now apply names_delete in Hn.
      - split.
        + intros Hn. apply names_delete in Hn. tauto.
        + exists file. split; [now left|]. exists a, b. tauto. }
    destruct ((s <=? a) && (e >=? b)) eqn:Sub.
    { erewrite bind_ok in H by apply emit_eval.
      destruct (remove_cases k file
                  {| fs := fs w; trace := trace w ++ [EvLog WARNING] |})
        as [(d0 & Hk0 & Hh & Hr)|Hr].
      - erewrite bind_ok in H by exact Hr.
        simpl in Hk0. rewrite Hk in Hk0. inversion Hk0; subst d0.
        assert (Ht1 : In (tag_name s e) (names (delete_file file d))).
        { apply names_delete. split; [exact Htag|].
          intros E. symmetry in E. revert E. now apply tag_not_cache_name. }
        match type of H with overlap_loop _ _ _ _ ?w1 = _ =>
          assert (Hk1 : fs w1 k = Some (delete_file file d))
            by apply set_dir_same
        end.
        destruct (IH _ _ _ _ Hk1 Ht1 H) as (d' & Hk' & Hsub & Hres).
        exists d'. split; [exact Hk'|]. split.
        + intros n Hn. apply Hsub in Hn. now apply names_delete in Hn.
        + destruct r as [[|]|ex]; auto.
          * destruct Hres as [Hnt (f & Hf & Hc)]. split; [exact Hnt|].
            exists f. split; [now right|exact Hc].
          * destruct Hres as [Ht Hun]. split; [exact Ht|].
            intros n [<-|Hn] Hin; [|auto].
            apply Hsub, names_delete in Hin. tauto.
      - erewrite bind_raise in H by exact Hr.
        inversion H; subst. exists d. auto. }
    destruct (IH _ _ _ _ Hk Htag H) as (d' & Hk' & Hsub & Hr).
    exists d'. split; [exact Hk'|]. split; [exact Hsub|].
    destruct r as [[|]|ex]; auto.
    + destruct Hr as [Hnt (f & Hf & Hc)]. split; [exact Hnt|].
      exists f. split; [now right|exact Hc].
    + destruct Hr as [Ht Hun]. split; [exact Ht|].
      intros n [<-|Hn] Hin; [|auto].
      intros _ a' b' P'. rewrite P in P'. inversion P'; subst a' b'.
      apply andb_false_iff in Cov. apply andb_false_iff in Sub.
      rewrite Z.geb_leb in Cov, Sub. rewrite !Z.leb_gt in Cov, Sub. lia.
Qed.

(** What the handler leaves, by the way it ends. *)
Lemma cleanup_outcome k s e w d r w' :
  fs w k = Some d ->
  cleanup k s e w = (r, w') ->
  (r = Ok (PyBool false)
   /\ In (cache_file_name s e) (names d) /\ In (tag_name s e) (names d)
   /\ fs w' k = Some (delete_file (tag_name s e)
                        (delete_file (cache_file_name s e) d)))
  \/ (r = Raise FileNotFoundError
      /\ ~ In (cache_file_name s e) (names d) /\ fs w' k = Some d)
  \/ (r = Raise FileNotFoundError
      /\ ~ In (tag_name s e) (names d)
      /\ fs w' k = Some (delete_file (cache_file_name s e) d)).
Proof.
  intros Hk H. unfold cleanup, log in H.
  erewrite bind_ok in H by apply emit_eval.
  destruct (has_file (cache_file_name s e) d) eqn:Hcf.
  - erewrite bind_ok in H by (apply remove_ok with (d := d); [exact Hk|exact Hcf]).
    destruct (has_file (tag_name s e) (delete_file (cache_file_name s e) d))
      eqn:Htag.
    + erewrite bind_ok in H
        by (eapply remove_ok; [simpl; apply set_dir_same|exact Htag]).
      inversion H; subst. left. simpl. rewrite set_dir_same.
      apply has_file_In in Hcf. apply has_file_In, names_delete in Htag.
      tauto.
    + erewrite bind_raise in H
        by (eapply remove_missing; [simpl; apply set_dir_same|exact Htag]).
      inversion H; subst. right. right. simpl. rewrite set_dir_same.
      split; [reflexivity|]. split; [|reflexivity].
      intros Hin.
      assert (has_file (tag_name s e)
                (delete_file (cache_file_name s e) d) = true); [|congruence].
      apply has_file_In, names_delete. split; [exact Hin|].
      apply NameFacts.tag_name_not_cache_file_name.
  - erewrite bind_raise in H
      by (apply remove_missing with (d := d); [exact Hk|exact Hcf]).
    inversion H; subst. right. left. simpl.
    split; [reflexivity|]. split; [|exact Hk].
    intros Hin. apply has_file_In in Hin. congruence.
Qed.

(** Streaming, whatever becomes of it, only adds bytes to the one file;
    when it ends well, it has added them all. *)
Lemma write_chunks_outcome k name chunks :
  forall fault w d r w',
    fs w k = Some d ->
    write_chunks k name chunks fault w = (r, w') ->
    exists written,
      fs w' k = Some (append_file name written d)
      /\ (r = Ok tt -> written = List.concat chunks).
Proof.
  induction chunks as [|chunk rest IH]; intros fault w d r w' Hk H; simpl in H.
  - inversion H; subst. exists []. now rewrite append_file_nil.
  - assert (Hstep : forall fault',
              (file_write k name chunk ;; write_chunks k name rest fault') w
              = (r, w') ->
              exists written,
                fs w' k = Some (append_file name written d)
                /\ (r = Ok tt -> written = List.concat (chunk :: rest))).
    { intros fault' H'.
      unfold bind at 1, file_write, bind, emit, put_dir in H'. simpl in H'.
      rewrite Hk in H'.
      match type of H' with write_chunks _ _ _ _ ?w1 = _ =>
        assert (Hk1 : fs w1 k = Some (append_file name chunk d))
          by apply set_dir_same
      end.
      destruct (IH _ _ _ _ _ Hk1 H') as (written & Hk' & Hall).
      exists (chunk ++ written). rewrite <- append_file_twice.
      split; [exact Hk'|]. intros Hr. simpl. now rewrite (Hall Hr). }
    destruct fault as [[|n]|]; [|now apply Hstep with (fault' := Some n)
                                |now apply Hstep with (fault' := None)].
    inversion H; subst. exists []. rewrite append_file_nil.
    split; [exact Hk|discriminate].
Qed.

Lemma fetch_and_store_handler k s e req_header client host :
  nth_error (Py.split "/" (raw_url client)) 2 = Some host ->
  fetch_and_store k s e req_header client
  = try_except
      (resp <- http_get client (raw_url client)
                 (upstream_headers s e host req_header) ;;
       (if status_code resp =? 206 then ret tt
        else log ERROR ;; raise ValueError) ;;
       open_w k (cache_file_name s e) ;;
       write_chunks k (cache_file_name s e) (aiter_bytes 1024 (content resp))
         (stream_fault client) ;;
       log INFO ;;
       remove k (tag_name s e) ;;
       ret (PyBool true))
      (fun _ => cleanup k s e).
Proof. intros H. unfold fetch_and_store. now rewrite H. Qed.

(** What the fetch leaves, by the way it ends. *)
Lemma fetch_and_store_outcome k s e req_header client w d r w' :
  fs w k = Some d ->
  fetch_and_store k s e req_header client w = (r, w') ->
  match r with
  | Ok (PyBool true) =>
      exists resp,
        get client = GetReturns resp /\ status_code resp = 206
        /\ In (tag_name s e) (names d)
        /\ fs w' k
           = Some (delete_file (tag_name s e)
                     (append_file (cache_file_name s e) (content resp)
                        (truncate_file (cache_file_name s e) d)))
  | Ok (PyBool false) =>
      exists d',
        fs w' k = Some d'
        /\ ~ In (tag_name s e) (names d')
        /\ ~ In (cache_file_name s e) (names d')
        /\ (forall n, In n (names d') -> In n (names d))
        /\ (~ In (cache_file_name s e) (names d) ->
            exists resp, get client = GetReturns resp /\ status_code resp = 206)
  | Ok PyNone => False
  | Raise _ =>
      exists d',
        fs w' k = Some d'
        /\ (In (tag_name s e) (names d) -> In (tag_name s e) (names d'))
        /\ (forall n, In n (names d') ->
                      n = cache_file_name s e \/ In n (names d))
  end.
Proof.
  intros Hk H.
  destruct (nth_error (Py.split "/" (raw_url client)) 2) as [host|] eqn:Hhost.
  2:{ unfold fetch_and_store in H. rewrite Hhost in H.
      inversion H; subst. exists d. auto. }
  rewrite (fetch_and_store_handler k s e req_header client Hhost) in H.
  (* what the handler does, from a directory [dh] derived from [d] *)
  assert (Hclean : forall wh dh,
            fs wh k = Some dh ->
            (forall n, In n (names dh) ->
                       n = cache_file_name s e \/ In n (names d)) ->
            (In (tag_name s e) (names d) -> In (tag_name s e) (names dh)) ->
            (In (cache_file_name s e) (names dh)
             /\ ~ In (cache_file_name s e) (names d) ->
             exists resp, get client = GetReturns resp /\ status_code resp = 206) ->
            cleanup k s e wh = (r, w') ->
            match r with
            | Ok (PyBool true) =>
                exists resp,
                  get client = GetReturns resp /\ status_code resp = 206
                  /\ In (tag_name s e) (names d)
                  /\ fs w' k
                     = Some (delete_file (tag_name s e)
                               (append_file (cache_file_name s e) (content resp)
                                  (truncate_file (cache_file_name s e) d)))
            | Ok (PyBool false) =>
                exists d',
                  fs w' k = Some d'
                  /\ ~ In (tag_name s e) (names d')
                  /\ ~ In (cache_file_name s e) (names d')
                  /\ (forall n, In n (names d') -> In n (names d))
                  /\ (~ In (cache_file_name s e) (names d) ->
                      exists resp,
                        get client = GetReturns resp /\ status_code resp = 206)
            | Ok PyNone => False
            | Raise _ =>
                exists d',
                  fs w' k = Some d'
                  /\ (In (tag_name s e) (names d) ->
                      In (tag_name s e) (names d'))
                  /\ (forall n, In n (names d') ->
                                n = cache_file_name s e \/ In n (names d))
            end).
  { intros wh dh Hkh Hsub Htagh Hresp Hc.
    destruct (@cleanup_outcome k s e wh dh r w' Hkh Hc)
      as [(-> & Hcf & Htg & Hd')|[(-> & Hcf & Hd')|(-> & Htg & Hd')]].
    - eexists. split; [exact Hd'|].
      split; [intros Hn; apply names_delete in Hn; tauto|].
      split; [intros Hn; apply names_delete in Hn;
              destruct Hn as [Hn _]; apply names_delete in Hn; tauto|].
      split.
      + intros n Hn. apply names_delete in Hn. destruct Hn as [Hn _].
        apply names_delete in Hn. destruct Hn as [Hn Hne].
        destruct (Hsub n Hn); [contradiction|assumption].
      + intros Hno. apply Hresp. tauto.
    - exists dh. auto.
    - eexists. split; [exact Hd'|]. split.
      + intros Hin. apply Htagh in Hin. contradiction.
      + intros n Hn. apply names_delete in Hn. destruct Hn as [Hn _]. auto. }
  unfold try_except in H. unfold http_get in H.
  unfold bind at 1 in H. unfold bind at 1 in H. rewrite emit_eval in H.
  destruct (get client) as [|resp] eqn:Hget.
  { unfold raise at 1 in H.
    apply (Hclean _ d) in H; auto.
    intros [Hin Hno]. contradiction. }
  unfold ret at 1 in H.
  destruct (Z.eqb_spec (status_code resp) 206) as [Hcode|Hcode].
  2:{ unfold bind at 1 in H. unfold bind at 1 in H.
      unfold log at 1 in H. rewrite emit_eval in H. unfold raise at 1 in H.
      apply (Hclean _ d) in H; auto.
      intros [Hin Hno]. contradiction. }
  unfold bind at 1 in H. unfold ret at 1 in H.
  unfold bind at 1 in H. erewrite open_w_eval in H by (simpl; exact Hk).
  unfold bind at 1 in H.
  match type of H with context [write_chunks k ?n ?cs ?f ?w1] =>
    destruct (write_chunks k n cs f w1) as [rw w3] eqn:Hw;
    assert (Hk1 : fs w1 k = Some (truncate_file (cache_file_name s e) d))
      by apply set_dir_same
  end.
  destruct (@write_chunks_outcome k _ _ _ _ _ _ _ Hk1 Hw) as (written & Hk3 & Hall).
  assert (Hnames3 : forall n,
            In n (names (append_file (cache_file_name s e) written
                           (truncate_file (cache_file_name s e) d))) ->
            n = cache_file_name s e \/ In n (names d)).
  { intros n Hn. rewrite names_append in Hn. apply names_truncate in Hn. tauto. }
  assert (Htag3 : In (tag_name s e) (names d) ->
                  In (tag_name s e)
                    (names (append_file (cache_file_name s e) written
                              (truncate_file (cache_file_name s e) d)))).
  { intros Hin. rewrite names_append. apply names_truncate. now left. }
  destruct rw as [[]|ex].
  2:{ apply (Hclean _ _ Hk3) in H; auto. intros _. now exists resp. }
  rewrite (Hall eq_refl), aiter_bytes_concat in *.
  unfold bind at 1 in H. unfold log at 1 in H. rewrite emit_eval in H.
  unfold bind at 1 in H.
  match type of H with context [remove k ?t ?w4] =>
    destruct (remove_cases k t w4) as [(d4 & Hk4 & Hh4 & Hr)|Hr];
    rewrite Hr in H
  end.
  - simpl in Hk4. rewrite Hk3 in Hk4. inversion Hk4; subst d4.
    unfold ret in H. inversion H; subst. simpl. rewrite set_dir_same.
    exists resp. repeat split; auto.
    apply has_file_In in Hh4. rewrite names_append in Hh4.
    apply names_truncate in Hh4. destruct Hh4 as [Hin|E]; [exact Hin|].
    now apply NameFacts.tag_name_not_cache_file_name in E.
  - eapply Hclean in H;
      [exact H | simpl; exact Hk3 | exact Hnames3 | exact Htag3
      | intros _; now exists resp].
Qed.

Lemma write_cache_file_paths shard item_id request_info req_header client w s e :
  target_range request_info = Some (s, e) ->
  write_cache_file shard item_id request_info req_header client w
  = match overlap_loop (cache_dir_of shard request_info) s e
            (names (truncate_file (tag_name s e)
                      match fs w (cache_dir_of shard request_info) with
                      | Some d => d
                      | None => []
                      end))
            (after_prefix (cache_dir_of shard request_info) (tag_name s e) w)
    with
    | (Ok true, w2) => (Ok (PyBool false), w2)
    | (Ok false, w2) =>
        fetch_and_store (cache_dir_of shard request_info) s e req_header
          client w2
    | (Raise ex, w2) => (Raise ex, w2)
    end.
Proof.
  intros Ht. unfold write_cache_file. rewrite Ht, write_prefix.
  unfold bind.
  match goal with |- context [overlap_loop ?k ?s ?e ?fl ?w1] =>
    destruct (overlap_loop k s e fl w1) as [[[|]|ex] w2] end; reflexivity.
Qed.

Lemma unrelated_not_target s e : ~ unrelated s e (cache_file_name s e).
Proof.
  intros H.
  destruct (H (NameFacts.cache_file_name_is_cache_file s e) s e
              (NameFacts.parse_cache_file_name s e)) as [Hc _].
  apply Hc. lia.
Qed.

Lemma lookup_written_names cf tag body d :
  cf <> tag ->
  ~ In cf (names d) ->
  lookup_file cf (delete_file tag (append_file cf body (truncate_file cf d)))
  = Some body.
Proof.
  intros Hneq Hno. unfold truncate_file.
  assert (Hh : has_file cf d = false).
  { destruct (has_file cf d) eqn:E; [|reflexivity].
    apply has_file_In in E. contradiction. }
  rewrite Hh. clear Hh.
  assert (Hne : String.eqb cf tag = false) by now apply String.eqb_neq.
  induction d as [|[n c] d IH]; simpl.
  - rewrite String.eqb_refl. simpl. rewrite Hne. simpl.
    now rewrite String.eqb_refl.
  - assert (Hn : String.eqb n cf = false).
    { apply String.eqb_neq. intros E. apply Hno. simpl. now left. }
    rewrite Hn. simpl.
    destruct (String.eqb n tag); simpl.
    + apply IH. intros Hin. apply Hno. simpl. now right.
    + rewrite Hn. apply IH. intros Hin. apply Hno. simpl. now right.
Qed.

Lemma lookup_written s e body d :
  ~ In (cache_file_name s e) (names d) ->
  lookup_file (cache_file_name s e)
    (delete_file (tag_name s e)
       (append_file (cache_file_name s e) body
          (truncate_file (cache_file_name s e) d)))
  = Some body.
Proof.
  apply lookup_written_names. intros E. symmetry in E.
  now apply NameFacts.tag_name_not_cache_file_name in E.
Qed.

(** One call of the writer with a recognised status, by the way it ends:
    what is in the directory afterwards. *)
Lemma write_cache_file_outcome shard item_id request_info req_header client
      w s e r w' :
  target_range request_info = Some (s, e) ->
  write_cache_file shard item_id request_info req_header client w = (r, w') ->
  exists d',
    fs w' (cache_dir_of shard request_info) = Some d'
    /\ (forall n, In n (names d') ->
          n = cache_file_name s e \/ n = tag_name s e
          \/ In n (names match fs w (cache_dir_of shard request_info) with
                         | Some d => d
                         | None => []
                         end))
    /\ match r with
       | Ok (PyBool true) =>
           (exists resp,
              get client = GetReturns resp /\ status_code resp = 206
              /\ lookup_file (cache_file_name s e) d' = Some (content resp))
           /\ In (cache_file_name s e) (names d')
           /\ ~ In (tag_name s e) (names d')
           /\ (forall n, In n (names d') -> n <> cache_file_name s e ->
                         unrelated s e n)
       | Ok (PyBool false) =>
           ~ In (tag_name s e) (names d')
           /\ ((exists file,
                  In file (names match fs w (cache_dir_of shard request_info) with
                                 | Some d => d
                                 | None => []
                                 end)
                  /\ covers_target s e file)
               \/ (exists resp,
                     get client = GetReturns resp /\ status_code resp = 206))
       | Ok PyNone => False
       | Raise _ => In (tag_name s e) (names d')
       end.
Proof.
  intros Ht H.
  rewrite (@write_cache_file_paths shard item_id request_info req_header
             client w s e Ht) in H.
  set (k := cache_dir_of shard request_info) in *.
  set (d0 := match fs w k with Some d => d | None => [] end) in *.
  set (d1 := truncate_file (tag_name s e) d0) in *.
  assert (Hk1 : fs (after_prefix k (tag_name s e) w) k = Some d1)
    by apply after_prefix_dir.
  assert (Htag1 : In (tag_name s e) (names d1))
    by (apply names_truncate; now right).
  assert (Hd1 : forall n, In n (names d1) ->
                  n = cache_file_name s e \/ n = tag_name s e
                  \/ In n (names d0)).
  { intros n Hn. apply names_truncate in Hn. tauto. }
  destruct (overlap_loop k s e (names d1) (after_prefix k (tag_name s e) w))
    as [rl w2] eqn:Hloop.
  destruct (@overlap_loop_outcome k s e (names d1) _ d1 rl w2 Hk1 Htag1 Hloop)
    as (d2 & Hk2 & Hsub & Hres).
  destruct rl as [[|]|ex].
  - (* the pass found a covering file *)
    inversion H; subst. exists d2. split; [exact Hk2|].
    split; [intros n Hn; apply Hd1, Hsub, Hn|].
    destruct Hres as [Hnt (file & Hf & Hc)]. split; [exact Hnt|]. left.
    exists file. split; [|exact Hc].
    apply names_truncate in Hf. destruct Hf as [Hf| ->]; [exact Hf|].
    destruct Hc as (a & b & C & _).
    rewrite NameFacts.tag_name_not_cache_file in C. discriminate.
  - (* the pass went through: the fetch decides *)
    destruct Hres as [Htag2 Hun].
    assert (Hno : ~ In (cache_file_name s e) (names d2)).
    { intros Hin. apply (@unrelated_not_target s e).
      apply Hun; [apply Hsub|]; exact Hin. }
    pose proof (@fetch_and_store_outcome k s e req_header client w2 d2 r w'
                  Hk2 H) as Hf.
    destruct r as [[|[|]]|ex].
    + contradiction.
    + destruct Hf as (resp & Hget & Hcode & _ & Hk').
      eexists. split; [exact Hk'|]. split.
      * intros n Hn. apply names_delete in Hn. destruct Hn as [Hn _].
        rewrite names_append in Hn. apply names_truncate in Hn.
        destruct Hn as [Hn| ->]; [apply Hd1, Hsub, Hn | now left].
      * split; [exists resp; split; [exact Hget|]; split; [exact Hcode|];
                now apply lookup_written|].
        split.
        { apply names_delete. split.
          - rewrite names_append. apply names_truncate. now right.
          - intros E. symmetry in E.
            now apply NameFacts.tag_name_not_cache_file_name in E. }
        split; [intros Hn; apply names_delete in Hn; tauto|].
        intros n Hn Hne. apply names_delete in Hn. destruct Hn as [Hn _].
        rewrite names_append in Hn. apply names_truncate in Hn.
        destruct Hn as [Hn|E]; [|contradiction].
        apply Hun; [apply Hsub|]; exact Hn.
    + destruct Hf as (d' & Hk' & Hnt & _ & Hsub' & Hresp).
      exists d'. split; [exact Hk'|].
      split; [intros n Hn; apply Hd1, Hsub, Hsub', Hn|].
      split; [exact Hnt|]. right. now apply Hresp.
    + destruct Hf as (d' & Hk' & Htag' & Hsub').
      exists d'. split; [exact Hk'|]. split; [|now apply Htag'].
      intros n Hn. destruct (Hsub' n Hn) as [->|Hin]; [now left|].
      apply Hd1, Hsub, Hin.
  - (* the pass raised *)
    inversion H; subst. exists d2. split; [exact Hk2|].
    split; [intros n Hn; apply Hd1, Hsub, Hn | exact Hres].
Qed.

(* ===================================================================== *)
(** ** The writer: what a caller can count on *)
(* ===================================================================== *)

(** X11.  Whenever a write with a recognised status returns, [True] or
    [False], the tag of its target range is not in the directory. *)
Theorem returned_write_leaves_no_tag :
  forall shard item_id request_info req_header client w s e v w',
    target_range request_info = Some (s, e) ->
    write_cache_file shard item_id request_info req_header client w
    = (Ok v, w') ->
    exists d',
      fs w' (cache_dir_of shard request_info) = Some d'
      /\ ~ In (tag_name s e) (names d')
      /\ (v = PyBool true \/ v = PyBool false).
Proof.
  intros shard item_id request_info req_header client w s e v w' Ht H.
  destruct (@write_cache_file_outcome shard item_id request_info req_header client w s e _ w' Ht H) as (d' & Hk & _ & Hr).
  exists d'. split; [exact Hk|].
  destruct v as [|[|]]; [contradiction| |]; intuition.
Qed.

(** X12.  When a write returns [True], the upstream had answered 206, the
    target's cache file is in the directory and holds the whole body of
    the answer, and no other cache file of the directory covers the
    target or lies within it. *)
Theorem successful_write_stores_body :
  forall shard item_id request_info req_header client w s e w',
    target_range request_info = Some (s, e) ->
    write_cache_file shard item_id request_info req_header client w
    = (Ok (PyBool true), w') ->
    exists resp d',
      get client = GetReturns resp
      /\ status_code resp = 206
      /\ fs w' (cache_dir_of shard request_info) = Some d'
      /\ lookup_file (cache_file_name s e) d' = Some (content resp)
      /\ (forall n, In n (names d') -> n <> cache_file_name s e ->
            ~ covers_target s e n /\ ~ within_target s e n).
Proof.
  intros shard item_id request_info req_header client w s e w' Ht H.
  destruct (@write_cache_file_outcome shard item_id request_info req_header client w s e _ w' Ht H)
    as (d' & Hk & _ & (resp & Hget & Hcode & Hl) & _ & _ & Hun).
  exists resp, d'. repeat split; auto.
  - intros (a & b & C & P & Hab).
    destruct (Hun n H0 H1 C a b P) as [Hc _]. apply Hc. lia.
  - intros (a & b & C & P & Hab).
    destruct (Hun n H0 H1 C a b P) as [_ Hc]. apply Hc. lia.
Qed.

Lemma cache_file_no_tag_suffix s e :
  Py.endswith (cache_file_name s e) ".tag" = false.
Proof.
  pose proof (NameFacts.cache_file_name_is_cache_file s e) as C.
  unfold is_cache_file in C. apply andb_true_iff in C.
  now apply negb_true_iff.
Qed.

Lemma tag_suffix_has_tag d n :
  In n (names d) -> Py.endswith n ".tag" = true -> has_tag d = true.
Proof. intros Hn E. unfold has_tag. apply existsb_exists. now exists n. Qed.

Lemma has_tag_false d n :
  has_tag d = false -> In n (names d) -> Py.endswith n ".tag" = false.
Proof.
  intros Ht Hn. destruct (Py.endswith n ".tag") eqn:E; [|reflexivity].
  rewrite (tag_suffix_has_tag d n Hn E) in Ht. discriminate.
Qed.

(** X13.  A directory without tag files and with well named cache files:
    after a write that returned [True], the prober answers [True] for
    every request on the same file whose [start_byte] lies in the written
    range. *)
Theorem written_range_is_probed :
  forall shard item_id request_info req_header client w s e w' probe,
    target_range request_info = Some (s, e) ->
    write_cache_file shard item_id request_info req_header client w
    = (Ok (PyBool true), w') ->
    has_tag (dir_before w (cache_dir_of shard request_info)) = false ->
    well_named (dir_before w (cache_dir_of shard request_info)) ->
    cache_dir_of shard probe = cache_dir_of shard request_info ->
    s <= start_byte probe <= e ->
    fst (get_cache_status shard probe w') = Ok true.
Proof.
  intros shard item_id request_info req_header client w s e w' probe
    Ht H Hnt Hwn Hdir Hx.
  destruct (@write_cache_file_outcome shard item_id request_info req_header client w s e _ w' Ht H)
    as (d' & Hk & Hsub & _ & Hcf & Htag & _).
  fold (dir_before w (cache_dir_of shard request_info)) in Hsub.
  rewrite <- Hdir in Hk.
  destruct (@get_cache_status_spec shard probe w' d' Hk) as (b & Hb & Hiff).
  - destruct (has_tag d') eqn:E; [|reflexivity].
    unfold has_tag in E. apply existsb_exists in E.
    destruct E as (n & Hn & En).
    destruct (Hsub n Hn) as [->|[->|Hin]].
    + now rewrite cache_file_no_tag_suffix in En.
    + contradiction.
    + now rewrite (has_tag_false _ _ Hnt Hin) in En.
  - intros n Hn C. destruct (Hsub n Hn) as [->|[->|Hin]].
    + now rewrite NameFacts.parse_cache_file_name.
    + rewrite NameFacts.tag_name_not_cache_file in C. discriminate.
    + now apply Hwn.
  - rewrite Hb. f_equal. apply Hiff.
    exists (cache_file_name s e). split; [exact Hcf|].
    split; [apply NameFacts.cache_file_name_is_cache_file|].
    exists s, e. split; [apply NameFacts.parse_cache_file_name|exact Hx].
Qed.

(** X14.  When the upstream's [get] raises or answers anything but 206,
    the handler never brings the call to a clean end: the call returns
    [False] only if a file of the directory already covered the target
    (no tag is left then), and otherwise it raises and leaves its tag in
    the directory.  It never returns [True]. *)
Theorem failed_upstream_outcomes :
  forall shard item_id request_info req_header client w s e r w',
    target_range request_info = Some (s, e) ->
    get client = GetRaises
    \/ (exists resp, get client = GetReturns resp /\ status_code resp <> 206) ->
    write_cache_file shard item_id request_info req_header client w = (r, w') ->
    exists d',
      fs w' (cache_dir_of shard request_info) = Some d'
      /\ ((r = Ok (PyBool false)
           /\ ~ In (tag_name s e) (names d')
           /\ exists file,
                In file (names (dir_before w (cache_dir_of shard request_info)))
                /\ covers_target s e file)
          \/ ((exists ex, r = Raise ex) /\ In (tag_name s e) (names d'))).
Proof.
  intros shard item_id request_info req_header client w s e r w' Ht Hget H.
  destruct (@write_cache_file_outcome shard item_id request_info req_header client w s e _ w' Ht H) as (d' & Hk & _ & Hr).
  exists d'. split; [exact Hk|].
  assert (Hno : forall resp,
            get client = GetReturns resp -> status_code resp = 206 -> False).
  { intros resp Hg Hc. destruct Hget as [Hget|(resp' & Hget & Hne)];
      rewrite Hget in Hg; [discriminate|]. inversion Hg; subst. contradiction. }
  destruct r as [[|[|]]|ex].
  - contradiction.
  - destruct Hr as ((resp & Hg & Hc & _) & _). destruct (Hno resp Hg Hc).
  - destruct Hr as [Hnt [Hcov|(resp & Hg & Hc)]]; [|destruct (Hno resp Hg Hc)].
    left. auto.
  - right. split; [now exists ex|exact Hr].
Qed.

(** X15.  After a write with a recognised status that raised, the prober
    answers [False] for every request on the same file, whatever the
    directory holds: the tag that the write left marks it as not ready. *)
Theorem raised_write_blocks_prober :
  forall shard item_id request_info req_header client w s e ex w' probe,
    target_range request_info = Some (s, e) ->
    write_cache_file shard item_id request_info req_header client w
    = (Raise ex, w') ->
    cache_dir_of shard probe = cache_dir_of shard request_info ->
    fst (get_cache_status shard probe w') = Ok false.
Proof.
  intros shard item_id request_info req_header client w s e ex w' probe
    Ht H Hdir.
  destruct (@write_cache_file_outcome shard item_id request_info req_header client w s e _ w' Ht H) as (d' & Hk & _ & Htag).
  rewrite <- Hdir in Hk. apply prober_tagged with (d := d'); [exact Hk|].
  apply tag_suffix_has_tag with (n := tag_name s e); [exact Htag|].
  apply NameFacts.endswith_app.
Qed.

(* ===================================================================== *)
(** ** The writer: what it leaves alone *)
(* ===================================================================== *)

Lemma keeps_overlap_loop_touch I k s e files :
  survives_write I k s e -> keeps I (overlap_loop k s e files).
Proof.
  intros (_ & _ & Hdel & _). induction files as [|file rest IH]; simpl.
  - apply keeps_ret.
  - destruct (is_cache_file file) eqn:C; [|exact IH].
    destruct (parse_range file) as [[a b]|] eqn:P; [|apply keeps_raise].
    destruct ((s >=? a) && (e <=? b)).
    + apply keeps_bind; [apply keeps_log|]. intros _.
      apply keeps_bind; [|intros _; apply keeps_ret].
      apply keeps_remove. intros f d. apply Hdel. tauto.
    + destruct ((s <=? a) && (e >=? b)) eqn:Sub; [|exact IH].
      apply andb_true_iff in Sub. rewrite Z.geb_leb, !Z.leb_le in Sub.
      apply keeps_bind; [apply keeps_log|]. intros _.
      apply keeps_bind; [|intros _; exact IH].
      apply keeps_remove. intros f d. apply Hdel. right. right.
      exists a, b. tauto.
Qed.

Lemma keeps_fetch_and_store_touch I k s e req_header client :
  survives_write I k s e ->
  keeps I (fetch_and_store k s e req_header client).
Proof.
  intros (_ & Htr & Hdel & Happ). unfold fetch_and_store.
  destruct (nth_error (Py.split "/" (raw_url client)) 2); [|apply keeps_raise].
  apply keeps_try_except.
  - apply keeps_bind; [apply keeps_http_get|]. intros resp.
    apply keeps_bind.
    { destruct (status_code resp =? 206); [apply keeps_ret|].
      apply keeps_bind; [apply keeps_log | intros _; apply keeps_raise]. }
    intros _. apply keeps_bind.
    { apply keeps_open_w. intros f d. apply Htr. now left. }
    intros _. apply keeps_bind.
    { apply keeps_write_chunks. intros chunk f d. apply Happ. }
    intros _. apply keeps_bind; [apply keeps_log|].
    intros _. apply keeps_bind; [|intros _; apply keeps_ret].
    apply keeps_remove. intros f d. apply Hdel. tauto.
  - intros _. apply keeps_bind; [apply keeps_log|].
    intros _. apply keeps_bind.
    { apply keeps_remove. intros f d. apply Hdel. tauto. }
    intros _. apply keeps_bind; [|intros _; apply keeps_ret].
    apply keeps_remove. intros f d. apply Hdel. tauto.
Qed.

Lemma keeps_write_cache_file_touch I shard item_id request_info req_header
      client :
  (forall s e, target_range request_info = Some (s, e) ->
               survives_write I (cache_dir_of shard request_info) s e) ->
  keeps I (write_cache_file shard item_id request_info req_header client).
Proof.
  intros Hs. unfold write_cache_file.
  destruct (target_range request_info) as [[s e]|].
  2:{ apply keeps_bind; [apply keeps_log | intros _; apply keeps_ret]. }
  specialize (Hs s e eq_refl).
  pose proof Hs as (Hmk & Htr & _ & _).
  apply keeps_bind; [apply keeps_log|]. intros _.
  apply keeps_bind; [apply keeps_makedirs; exact Hmk|]. intros _.
  apply keeps_bind.
  { apply keeps_open_w. intros f d. apply Htr. now right. }
  intros _. apply keeps_bind; [apply keeps_listdir|]. intros files.
  apply keeps_bind; [now apply keeps_overlap_loop_touch|].
  intros [|]; [apply keeps_ret | now apply keeps_fetch_and_store_touch].
Qed.

Lemma In_delete name d n (c : bytes) :
  In (n, c) (delete_file name d) <-> In (n, c) d /\ n <> name.
Proof.
  unfold delete_file. rewrite filter_In. simpl.
  rewrite negb_true_iff, String.eqb_neq. tauto.
Qed.

Lemma In_truncate name d n (c : bytes) :
  In (n, c) (truncate_file name d) -> n = name \/ In (n, c) d.
Proof.
  unfold truncate_file. destruct (has_file name d).
  - rewrite in_map_iff. intros ([x y] & E & Hin). simpl in E.
    destruct (String.eqb_spec x name) as [->|Hx].
    + inversion E. now left.
    + inversion E; subst. now right.
  - rewrite in_app_iff. intros [H|[E|[]]]; [now right|].
    inversion E. now left.
Qed.

Lemma In_truncate_other name d n (c : bytes) :
  n <> name -> In (n, c) d -> In (n, c) (truncate_file name d).
Proof.
  intros Hne Hin. unfold truncate_file. destruct (has_file name d).
  - apply in_map_iff. exists (n, c). split; [|exact Hin]. simpl.
    apply String.eqb_neq in Hne. now rewrite Hne.
  - apply in_app_iff. now left.
Qed.

Lemma In_append name data d n (c : bytes) :
  In (n, c) (append_file name data d) -> n = name \/ In (n, c) d.
Proof.
  unfold append_file. rewrite in_map_iff. intros ([x y] & E & Hin).
  simpl in E. destruct (String.eqb_spec x name) as [->|Hx].
  - inversion E. now left.
  - inversion E; subst. now right.
Qed.

Lemma In_append_other name data d n (c : bytes) :
  n <> name -> In (n, c) d -> In (n, c) (append_file name data d).
Proof.
  intros Hne Hin. unfold append_file. apply in_map_iff.
  exists (n, c). split; [|exact Hin]. simpl.
  apply String.eqb_neq in Hne. now rewrite Hne.
Qed.

(** X16.  A write, however it ends and whatever its status, changes no
    other directory than the one of its request. *)
Theorem write_stays_in_its_directory :
  forall shard item_id request_info req_header client w k',
    k' <> cache_dir_of shard request_info ->
    fs (snd (write_cache_file shard item_id request_info req_header client w))
       k'
    = fs w k'.
Proof.
  intros shard item_id request_info req_header client w k' Hne.
  apply (@keeps_write_cache_file_touch (fun f => f k' = fs w k') shard item_id
           request_info req_header client); [|reflexivity].
  intros s e _.
  repeat split; intros; rewrite set_dir_other; auto.
Qed.

(** X17.  A write with target [s, e], however it ends, removes or
    rewrites no file but its own cache file, its own tag and the cache
    files whose range lies within the target, and it brings no other file
    into the directory: every other entry is there afterwards with the
    content it had, and every entry that is there afterwards under
    another name than these two was there before with the same
    content. *)
Theorem write_touches_only_its_own :
  forall shard item_id request_info req_header client w s e,
    target_range request_info = Some (s, e) ->
    let k := cache_dir_of shard request_info in
    let w' :=
      snd (write_cache_file shard item_id request_info req_header client w) in
    (forall n c,
        In (n, c) (dir_before w k) ->
        n <> cache_file_name s e -> n <> tag_name s e ->
        ~ within_target s e n ->
        In (n, c) (dir_before w' k))
    /\ (forall n c,
          In (n, c) (dir_before w' k) ->
          n <> cache_file_name s e -> n <> tag_name s e ->
          In (n, c) (dir_before w k)).
Proof.
  intros shard item_id request_info req_header client w s e Ht k w'.
  split.
  - intros n c Hin Hcf Htag Hwt.
    apply (@keeps_write_cache_file_touch
             (fun f => In (n, c) (match f k with Some d => d | None => [] end))
             shard item_id request_info req_header client); [|exact Hin].
    intros s' e' Ht'. rewrite Ht in Ht'. inversion Ht'; subst s' e'. fold k.
    repeat split.
    + intros f H E. now rewrite E in H.
    + intros f d name Hname H E. rewrite E in H. rewrite set_dir_same.
      apply In_truncate_other; [|exact H]. destruct Hname; congruence.
    + intros f d name Hname H E. rewrite E in H. rewrite set_dir_same.
      apply In_delete. split; [exact H|].
      destruct Hname as [->|[->|Hw]]; [assumption|assumption|].
      intros ->. contradiction.
    + intros f d chunk H E. rewrite E in H. rewrite set_dir_same.
      now apply In_append_other.
  - intros n c Hin Hcf Htag.
    revert n c Hin Hcf Htag.
    apply (@keeps_write_cache_file_touch
             (fun f => forall n c,
                  In (n, c) (match f k with Some d => d | None => [] end) ->
                  n <> cache_file_name s e -> n <> tag_name s e ->
                  In (n, c) (dir_before w k))
             shard item_id request_info req_header client); [|auto].
    intros s' e' Ht'. rewrite Ht in Ht'. inversion Ht'; subst s' e'. fold k.
    repeat split.
    + intros f H E n c Hin. rewrite set_dir_same in Hin. destruct Hin.
    + intros f d name Hname H E n c Hin Hcf Htag.
      rewrite set_dir_same in Hin. apply In_truncate in Hin.
      destruct Hin as [->|Hin]; [destruct Hname; contradiction|].
      apply H; auto. now rewrite E.
    + intros f d name Hname H E n c Hin Hcf Htag.
      rewrite set_dir_same in Hin. apply In_delete in Hin.
      apply H; [rewrite E; tauto | assumption | assumption].
    + intros f d chunk H E n c Hin Hcf Htag.
      rewrite set_dir_same in Hin. apply In_append in Hin.
      destruct Hin as [->|Hin]; [contradiction|].
      apply H; auto. now rewrite E.
Qed.

(* ===================================================================== *)
(** ** The writer: a write repeated, and a write that fails *)
(* ===================================================================== *)

(** X18.  A write that returned [True], asked again for the same request
    (whatever the headers and the upstream this time), is refused: it
    returns [False], sends no request upstream, and leaves every
    directory as the first write left it. *)
Theorem repeated_write_is_refused :
  forall shard item_id request_info req_header client w s e w1
         item_id' req_header' client',
    target_range request_info = Some (s, e) ->
    write_cache_file shard item_id request_info req_header client w
    = (Ok (PyBool true), w1) ->
    well_named (dir_before w (cache_dir_of shard request_info)) ->
    let k := cache_dir_of shard request_info in
    let again :=
      write_cache_file shard item_id' request_info req_header' client' w1 in
    fst again = Ok (PyBool false)
    /\ (forall k', fs (snd again) k' = fs w1 k')
    /\ trace (snd again)
       = trace w1 ++ [EvLog DEBUG; EvMakedirs k; EvOpenW k (tag_name s e);
                      EvListdir k; EvLog WARNING; EvRemove k (tag_name s e)].
Proof.
  intros shard item_id request_info req_header client w s e w1
    item_id' req_header' client' Ht H Hwn k again.
  destruct (@write_cache_file_outcome shard item_id request_info req_header
              client w s e _ w1 Ht H)
    as (d1 & Hk1 & Hsub & _ & Hcf & Htag & Hun).
  fold k in Hk1, Hsub. fold (dir_before w k) in Hsub.
  subst again. unfold write_cache_file. fold k. rewrite Ht, write_prefix, Hk1.
  erewrite bind_ok.
  2:{ apply overlap_loop_abort with (d := truncate_file (tag_name s e) d1).
      - rewrite after_prefix_dir, Hk1. reflexivity.
      - apply has_file_truncate.
      - intros g Hg Cg.
        assert (Hg1 : In g (names d1)).
        { apply names_truncate in Hg. destruct Hg as [Hg| ->]; [exact Hg|].
          rewrite NameFacts.tag_name_not_cache_file in Cg. discriminate. }
        destruct (string_dec g (cache_file_name s e)) as [->|Hne].
        + exists s, e. split; [apply NameFacts.parse_cache_file_name|].
          left. lia.
        + destruct (parse_range g) as [[a b]|] eqn:Pg.
          * exists a, b. split; [reflexivity|]. right.
            destruct (Hun g Hg1 Hne Cg a b Pg) as [_ Hw]. exact Hw.
          * exfalso. destruct (Hsub g Hg1) as [E|[E|Hin]].
            -- contradiction.
            -- subst g. rewrite NameFacts.tag_name_not_cache_file in Cg.
               discriminate.
            -- now apply (Hwn g Hin Cg).
      - exists (cache_file_name s e), s, e.
        split; [apply names_truncate; now left|].
        split; [apply NameFacts.cache_file_name_is_cache_file|].
        split; [apply NameFacts.parse_cache_file_name|]. lia. }
  unfold ret. simpl. split; [reflexivity|]. split.
  - intros k'. unfold set_dir.
    destruct (dirkey_eqb k k') eqn:E.
    + apply dirkey_eqb_eq in E. subst k'.
      rewrite delete_truncate, Hk1. f_equal. apply delete_absent.
      destruct (has_file (tag_name s e) d1) eqn:Eh; [|reflexivity].
      apply has_file_In in Eh. contradiction.
    + now rewrite Hk1.
  - rewrite <- app_assoc. reflexivity.
Qed.




(* ===================================================================== *)
(** ** The writer: what goes upstream *)
(* ===================================================================== *)

Lemma requests_app e1 e2 : requests (e1 ++ e2) = requests e1 ++ requests e2.
Proof. unfold requests. apply flat_map_app. Qed.

Lemma adds_ret {A : Type} (Q : list event -> Prop) (a : A) :
  Q [] -> adds Q (ret a).
Proof. intros H w. exists []. simpl. now rewrite app_nil_r. Qed.

Lemma adds_raise {A : Type} (Q : list event -> Prop) (e : exn) :
  Q [] -> adds Q (@raise A e).
Proof. intros H w. exists []. simpl. now rewrite app_nil_r. Qed.

Lemma adds_bind {A B : Type} (Q1 Q2 Q : list event -> Prop)
      (m : M A) (f : A -> M B) :
  adds Q1 m -> (forall a, adds Q2 (f a)) ->
  (forall e1, Q1 e1 -> Q e1) ->
  (forall e1 e2, Q1 e1 -> Q2 e2 -> Q (e1 ++ e2)) ->
  adds Q (bind m f).
Proof.
  intros Hm Hf Hstop Hgo w. unfold bind.
  destruct (Hm w) as (e1 & Ht1 & H1).
  destruct (m w) as [[a|ex] w1]; simpl in *.
  - destruct (Hf a w1) as (e2 & Ht2 & H2).
    exists (e1 ++ e2). rewrite Ht2, Ht1, app_assoc. auto.
  - exists e1. auto.
Qed.

Lemma adds_try_except {A : Type} (Q1 Q2 Q : list event -> Prop)
      (m : M A) (h : exn -> M A) :
  adds Q1 m -> (forall e, adds Q2 (h e)) ->
  (forall e1, Q1 e1 -> Q e1) ->
  (forall e1 e2, Q1 e1 -> Q2 e2 -> Q (e1 ++ e2)) ->
  adds Q (try_except m h).
Proof.
  intros Hm Hh Hstop Hgo w. unfold try_except.
  destruct (Hm w) as (e1 & Ht1 & H1).
  destruct (m w) as [[a|ex] w1]; simpl in *.
  - exists e1. auto.
  - destruct (Hh ex w1) as (e2 & Ht2 & H2).
    exists (e1 ++ e2). rewrite Ht2, Ht1, app_assoc. auto.
Qed.

Lemma silent_ret {A : Type} (a : A) : silent (ret a).
Proof. now apply adds_ret. Qed.

Lemma silent_raise {A : Type} (e : exn) : silent (@raise A e).
Proof. now apply adds_raise. Qed.

Lemma silent_bind {A B : Type} (m : M A) (f : A -> M B) :
  silent m -> (forall a, silent (f a)) -> silent (bind m f).
Proof.
  intros Hm Hf. eapply adds_bind; [exact Hm | exact Hf | auto |].
  intros e1 e2 H1 H2. simpl in *. now rewrite requests_app, H1, H2.
Qed.

Lemma silent_emit e :
  (forall url h, e <> EvGet url h) -> silent (emit e).
Proof.
  intros Hne w. exists [e]. split; [reflexivity|].
  destruct e; try reflexivity. now destruct (Hne url h).
Qed.

Lemma silent_log l : silent (log l).
Proof. apply silent_emit. discriminate. Qed.

Lemma silent_quiet {A : Type} (m : M A) :
  (forall w, trace (snd (m w)) = trace w) -> silent m.
Proof. intros H w. exists []. rewrite H, app_nil_r. auto. Qed.

Lemma silent_makedirs k : silent (makedirs k).
Proof.
  apply silent_bind; [apply silent_emit; discriminate|]. intros _.
  apply silent_quiet. intros w. now destruct (fs w k).
Qed.

Lemma silent_listdir k : silent (listdir k).
Proof.
  apply silent_bind; [apply silent_emit; discriminate|]. intros _.
  apply silent_quiet. intros w. now destruct (fs w k).
Qed.

Lemma silent_open_w k name : silent (open_w k name).
Proof.
  apply silent_bind; [apply silent_emit; discriminate|]. intros _.
  apply silent_quiet. intros w. now destruct (fs w k).
Qed.

Lemma silent_file_write k name chunk : silent (file_write k name chunk).
Proof.
  apply silent_bind; [apply silent_emit; discriminate|]. intros _.
  apply silent_quiet. intros w. now destruct (fs w k).
Qed.

Lemma silent_remove k name : silent (remove k name).
Proof.
  apply silent_bind; [apply silent_emit; discriminate|]. intros _.
  apply silent_quiet. intros w. destruct (fs w k) as [d|]; [|reflexivity].
  now destruct (has_file name d).
Qed.

Lemma silent_write_chunks k name chunks :
  forall fault, silent (write_chunks k name chunks fault).
Proof.
  induction chunks as [|chunk rest IH]; intros fault; simpl.
  - apply silent_ret.
  - destruct fault as [[|n]|]; [apply silent_raise| |];
      (apply silent_bind; [apply silent_file_write | intros _; apply IH]).
Qed.

Lemma silent_overlap_loop k s e files : silent (overlap_loop k s e files).
Proof.
  induction files as [|file rest IH]; simpl.
  - apply silent_ret.
  - destruct (is_cache_file file); [|exact IH].
    destruct (parse_range file) as [[a b]|]; [|apply silent_raise].
    destruct ((s >=? a) && (e <=? b)).
    + apply silent_bind; [apply silent_log|]. intros _.
      apply silent_bind; [apply silent_remove|]. intros _. apply silent_ret.
    + destruct ((s <=? a) && (e >=? b)); [|exact IH].
      apply silent_bind; [apply silent_log|]. intros _.
      apply silent_bind; [apply silent_remove|]. intros _. exact IH.
Qed.

Lemma silent_cleanup k s e : silent (cleanup k s e).
Proof.
  apply silent_bind; [apply silent_log|]. intros _.
  apply silent_bind; [apply silent_remove|]. intros _.
  apply silent_bind; [apply silent_remove|]. intros _. apply silent_ret.
Qed.

(** With a URL that has an authority, the fetch sends exactly one
    request, whatever comes of it. *)
Lemma fetch_and_store_requests k s e req_header client host :
  nth_error (Py.split "/" (raw_url client)) 2 = Some host ->
  adds (fun evs =>
          requests evs
          = [(raw_url client, upstream_headers s e host req_header)])
    (fetch_and_store k s e req_header client).
Proof.
  intros Hhost. rewrite (fetch_and_store_handler k s e req_header client Hhost).
  eapply adds_try_except with
    (Q1 := fun evs => requests evs
                      = [(raw_url client, upstream_headers s e host req_header)])
    (Q2 := fun evs => requests evs = []).
  - eapply adds_bind with
      (Q1 := fun evs => requests evs
                        = [(raw_url client,
                            upstream_headers s e host req_header)])
      (Q2 := fun evs => requests evs = []).
    + unfold http_get.
      eapply adds_bind with
        (Q1 := fun evs => requests evs
                          = [(raw_url client,
                              upstream_headers s e host req_header)])
        (Q2 := fun evs => requests evs = []).
      * intros w. exists [EvGet (raw_url client)
                            (upstream_headers s e host req_header)].
        split; reflexivity.
      * intros _. destruct (get client); [apply silent_raise|apply silent_ret].
      * auto.
      * intros e1 e2 H1 H2. now rewrite requests_app, H1, H2.
    + intros resp. apply silent_bind.
      { destruct (status_code resp =? 206); [apply silent_ret|].
        apply silent_bind; [apply silent_log|intros _; apply silent_raise]. }
      intros _. apply silent_bind; [apply silent_open_w|]. intros _.
      apply silent_bind; [apply silent_write_chunks|]. intros _.
      apply silent_bind; [apply silent_log|]. intros _.
      apply silent_bind; [apply silent_remove|]. intros _. apply silent_ret.
    + auto.
    + intros e1 e2 H1 H2. now rewrite requests_app, H1, H2.
  - intros _. apply silent_cleanup.
  - auto.
  - intros e1 e2 H1 H2. now rewrite requests_app, H1, H2.
Qed.

(** X20.  A call of the writer only appends to the trace, and among the
    events it appends there is at most one request to the upstream; if
    there is one, it goes to the resolved URL and carries the headers
    built for the target range.  A call that returns [True] has sent
    one.  The resolution of the URL on line 92, whose code is not in this
    file, is not counted. *)
Theorem write_sends_at_most_one_request :
  forall shard item_id request_info req_header client w,
    let r := write_cache_file shard item_id request_info req_header client w in
    exists evs,
      trace (snd r) = trace w ++ evs
      /\ (requests evs = []
          \/ exists s e host,
               target_range request_info = Some (s, e)
               /\ nth_error (Py.split "/" (raw_url client)) 2 = Some host
               /\ requests evs
                  = [(raw_url client, upstream_headers s e host req_header)])
      /\ (fst r = Ok (PyBool true) -> requests evs <> []).
Proof.
  intros shard item_id request_info req_header client w r.
  destruct (target_range request_info) as [[s e]|] eqn:Ht.
  2:{ subst r. unfold write_cache_file. rewrite Ht.
      exists [EvLog ERROR]. split; [reflexivity|].
      split; [now left | discriminate]. }
  set (k := cache_dir_of shard request_info).
  assert (Hr : r = match overlap_loop k s e
                           (names (truncate_file (tag_name s e)
                                     (dir_before w k)))
                           (after_prefix k (tag_name s e) w) with
                   | (Ok true, w2) => (Ok (PyBool false), w2)
                   | (Ok false, w2) => fetch_and_store k s e req_header client w2
                   | (Raise ex, w2) => (Raise ex, w2)
                   end).
  { subst r. now rewrite (@write_cache_file_paths shard item_id request_info
                            req_header client w s e Ht). }
  rewrite Hr. clear Hr.
  destruct (@silent_overlap_loop k s e
              (names (truncate_file (tag_name s e) (dir_before w k)))
              (after_prefix k (tag_name s e) w)) as (e1 & Ht1 & H1).
  destruct (overlap_loop k s e
              (names (truncate_file (tag_name s e) (dir_before w k)))
              (after_prefix k (tag_name s e) w)) as [[[|]|ex] w2];
    simpl in Ht1; rewrite <- app_assoc in Ht1.
  - eexists. split; [exact Ht1|].
    rewrite requests_app, H1. simpl. split; [now left | discriminate].
  - destruct (nth_error (Py.split "/" (raw_url client)) 2) as [host|] eqn:Hh.
    + destruct (@fetch_and_store_requests k s e req_header client host Hh w2)
        as (e2 & Ht2 & H2).
      eexists. split; [rewrite Ht2, Ht1, <- !app_assoc; reflexivity|].
      rewrite !requests_app, H1, H2. simpl. split.
      * right. exists s, e, host. auto.
      * discriminate.
    + unfold fetch_and_store. rewrite Hh. simpl.
      eexists. split; [exact Ht1|].
      rewrite requests_app, H1. simpl. split; [now left | discriminate].
  - eexists. split; [exact Ht1|].
    rewrite requests_app, H1. simpl. split; [now left | discriminate].
Qed.

Lemma dict_get_set_same key value d :
  dict_get key (dict_set key value d) = Some value.
Proof.
  induction d as [|[k0 v0] d IH]; simpl.
  - now rewrite String.eqb_refl.
  - destruct (String.eqb k0 key) eqn:E; simpl.
    + now rewrite String.eqb_refl.
    + now rewrite E.
Qed.

Lemma dict_get_set_other key value d key' :
  key' <> key -> dict_get key' (dict_set key value d) = dict_get key' d.
Proof.
  intros Hne. induction d as [|[k0 v0] d IH]; simpl.
  - apply not_eq_sym, String.eqb_neq in Hne. now rewrite Hne.
  - destruct (String.eqb_spec k0 key) as [->|Hk]; simpl.
    + apply not_eq_sym, String.eqb_neq in Hne. now rewrite Hne.
    + destruct (String.eqb k0 key'); [reflexivity|exact IH].
Qed.

(** Looking up the headers built on lines 123 to 130. *)
Lemma upstream_headers_lookup :
  forall s e host req_header,
    dict_get "range" (upstream_headers s e host req_header)
    = Some ("bytes=" ++ Py.py_str s ++ "-" ++ Py.py_str e)%string
    /\ dict_get "host" (upstream_headers s e host req_header) = Some host
    /\ (forall key,
          key <> "range" -> key <> "host" ->
          dict_get key (upstream_headers s e host req_header)
          = dict_get key match req_header with None => [] | Some h => h end).
Proof.
  intros s e host req_header. unfold upstream_headers.
  split; [apply dict_get_set_same|]. split.
  - rewrite dict_get_set_other by discriminate. apply dict_get_set_same.
  - intros key H1 H2. now rewrite !dict_get_set_other.
Qed.

Lemma requests_In url h evs :
  In (EvGet url h) evs -> In (url, h) (requests evs).
Proof.
  intros H. unfold requests. apply in_flat_map.
  exists (EvGet url h). split; [exact H | now left].
Qed.

(** What a write adds to the trace holds no request, or the one request of
    line 134. *)
Lemma write_cache_file_requests shard item_id request_info req_header client w :
  exists evs,
    trace (snd (write_cache_file shard item_id request_info req_header
                  client w))
    = trace w ++ evs
    /\ (requests evs = []
        \/ exists s e host,
             target_range request_info = Some (s, e)
             /\ nth_error (Py.split "/" (raw_url client)) 2 = Some host
             /\ requests evs
                = [(raw_url client, upstream_headers s e host req_header)]).
Proof.
  destruct (target_range request_info) as [[s e]|] eqn:Ht.
  2:{ unfold write_cache_file. rewrite Ht.
      exists [EvLog ERROR]. split; [reflexivity | now left]. }
  set (k := cache_dir_of shard request_info).
  rewrite (@write_cache_file_paths shard item_id request_info req_header
             client w s e Ht).
  fold k.
  destruct (@silent_overlap_loop k s e
              (names (truncate_file (tag_name s e)
                        match fs w k with Some d => d | None => [] end))
              (after_prefix k (tag_name s e) w)) as (e1 & Ht1 & H1).
  destruct (overlap_loop k s e
              (names (truncate_file (tag_name s e)
                        match fs w k with Some d => d | None => [] end))
              (after_prefix k (tag_name s e) w)) as [[[|]|ex] w2];
    simpl in Ht1; rewrite <- app_assoc in Ht1.
  - eexists. split; [exact Ht1|]. left. now rewrite requests_app, H1.
  - destruct (nth_error (Py.split "/" (raw_url client)) 2) as [host|] eqn:Hh.
    + destruct (@fetch_and_store_requests k s e req_header client host Hh w2)
        as (e2 & Ht2 & H2).
      eexists. split; [rewrite Ht2, Ht1, <- !app_assoc; reflexivity|].
      right. exists s, e, host.
      rewrite !requests_app, H1, H2. auto.
    + unfold fetch_and_store. rewrite Hh. simpl.
      eexists. split; [exact Ht1|]. left. now rewrite requests_app, H1.
  - eexists. split; [exact Ht1|]. left. now rewrite requests_app, H1.
Qed.

(** X21.  Every request that a call of the writer sends upstream goes to
    the resolved URL, and its headers are those of lines 123 to 130: the
    range header asks for the bytes of the target range, first to last
    inclusive; the host header is the third part of the resolved URL cut
    at its slashes; and every other header is the caller's, unchanged. *)
Theorem upstream_request_headers :
  forall shard item_id request_info req_header client w evs url h,
    trace (snd (write_cache_file shard item_id request_info req_header
                  client w))
    = trace w ++ evs ->
    In (EvGet url h) evs ->
    exists s e host,
      target_range request_info = Some (s, e)
      /\ nth_error (Py.split "/" (raw_url client)) 2 = Some host
      /\ url = raw_url client
      /\ dict_get "range" h
         = Some ("bytes=" ++ Py.py_str s ++ "-" ++ Py.py_str e)%string
      /\ dict_get "host" h = Some host
      /\ (forall key,
            key <> "range" -> key <> "host" ->
            dict_get key h
            = dict_get key match req_header with None => [] | Some h0 => h0 end).
Proof.
  intros shard item_id request_info req_header client w evs url h Htr Hin.
  destruct (write_cache_file_requests shard item_id request_info req_header
              client w) as (evs' & Htr' & Hreq).
  rewrite Htr in Htr'. apply app_inv_head in Htr'. subst evs'.
  apply requests_In in Hin.
  destruct Hreq as [Hreq|(s & e & host & Ht & Hh & Hreq)];
    rewrite Hreq in Hin; [destruct Hin|].
  destruct Hin as [Hin|[]]. inversion Hin. subst url h.
  exists s, e, host.
  destruct (upstream_headers_lookup s e host req_header) as (L1 & L2 & L3).
  auto 10.
Qed.

(* ===================================================================== *)
(** ** C4: the head cache read back *)
(* ===================================================================== *)

(** C4.  A run on which the reader loses the cached bytes: an empty cache
    tree, a [HIT] request for the bytes 500 to 999 with
    [cache_file_size = 1000], and an upstream that answers 206 with a body
    of 1000 bytes.  The write returns [True] and leaves [cache_file_0_999]
    holding the body; [get_cache_status] returns [True]; [read_cache_file]
    hands back a stream over [cache_file_0_999] from offset 500, with the
    end point [999 - 500 = 499] of line 174.  [read_file] takes this end
    point for an offset of the file (line 47): nothing remains to read at
    offset 500, and the stream yields no chunk, although the file holds 500
    bytes from offset 500 on. *)
Theorem head_cache_read_yields_nothing :
  exists w1 w2 w3 g,
    write_cache_file Example.shard "42" (Example.request HIT 500 999) None
      (Example.answers 206 Scene.thousand) empty_world
    = (Ok (PyBool true), w1)
    /\ fs w1 Example.dir = Some [("cache_file_0_999", Scene.thousand)]
    /\ get_cache_status Example.shard (Example.request HIT 500 999) w1
       = (Ok true, w2)
    /\ read_cache_file Example.shard (Example.request HIT 500 999) w2
       = (Ok (Some g), w3)
    /\ gen_dir g = Example.dir
    /\ gen_file g = "cache_file_0_999"
    /\ gen_start g = 500
    /\ gen_end g = Some 499
    /\ consume g w3 = (Ok [], w3)
    /\ file_slice Scene.thousand 500 999 = List.repeat Byte.x2a 500%nat.
Proof.
  destruct (@head_cache_scenario Example.shard "42" "/media/movie.mkv" 2000
              "movie" 999 "http://emby.local" None
              (Example.answers 206 Scene.thousand) Scene.thousand
              "cdn.example" empty_world)
    as (w1 & w2 & w3 & g & chunks & Hw & Hd & Hp & Hr & Gd & Gf & Gs & Ge
        & Hc & _).
  - left. reflexivity.
  - vm_compute. reflexivity.
  - reflexivity.
  - reflexivity.
  - change (gen_end g = Some 499) in Ge.
    exists w1, w2, w3, g.
    split; [exact Hw|]. split; [exact Hd|]. split; [exact Hp|].
    split; [exact Hr|]. split; [exact Gd|]. split; [exact Gf|].
    split; [exact Gs|]. split; [exact Ge|].
    split; [|vm_compute; reflexivity].
    assert (Hk : fs w3 (gen_dir g) = Some [("cache_file_0_999", Scene.thousand)]).
    { rewrite Gd.
      change (get_cache_status Example.shard (Example.request HIT 500 999) w1
              = (Ok true, w2)) in Hp.
      change (read_cache_file Example.shard (Example.request HIT 500 999) w2
              = (Ok (Some g), w3)) in Hr.
      pose proof (get_cache_status_fs Example.shard
                    (Example.request HIT 500 999) w1) as F1.
      pose proof (read_cache_file_fs Example.shard
                    (Example.request HIT 500 999) w2) as F2.
      rewrite Hp in F1. rewrite Hr in F2. simpl in F1, F2.
      rewrite F2, F1. exact Hd. }
    unfold consume. rewrite Gf, Gs, Ge.
    rewrite (@read_file_present w3 (gen_dir g)
               [("cache_file_0_999", Scene.thousand)] "cache_file_0_999"
               Scene.thousand 500 (Some 499) (gen_chunk_size g) Hk).
    + rewrite read_loop_nothing; [reflexivity|].
      right. exists 499. split; [reflexivity|lia].
    + reflexivity.
    + lia.
    + rewrite read_loop_step. unfold read_step.
      destruct (Z.leb_spec (499 + 1 - 500) 0); [reflexivity|lia].
Qed.

(* ===================================================================== *)
(** ** C5: a covered range, in a tree that writes have built *)
(* ===================================================================== *)

Lemma well_named_sub d d' :
  well_named d ->
  (forall n, In n (names d') -> is_cache_file n = true ->
             In n (names d) \/ exists s e, n = cache_file_name s e) ->
  well_named d'.
Proof.
  intros Hd Hsub n Hn C. destruct (Hsub n Hn C) as [Hin|(s & e & ->)].
  - now apply Hd.
  - rewrite NameFacts.parse_cache_file_name. discriminate.
Qed.

Lemma well_named_survives_write k s e :
  survives_write (every_directory well_named) k s e.
Proof.
  repeat split.
  - intros f Hf _. apply every_directory_set; [exact Hf|]. intros n [].
  - intros f d name Hname Hf Hk. apply every_directory_set; [exact Hf|].
    apply well_named_sub with (d := d); [exact (Hf k d Hk)|].
    intros n Hn C. apply names_truncate in Hn.
    destruct Hn as [Hn|Hn]; [now left|]. subst n.
    destruct Hname as [Hname|Hname]; subst name.
    + right. now exists s, e.
    + rewrite NameFacts.tag_name_not_cache_file in C. discriminate.
  - intros f d name _ Hf Hk. apply every_directory_set; [exact Hf|].
    apply well_named_sub with (d := d); [exact (Hf k d Hk)|].
    intros n Hn _. apply names_delete in Hn. left. tauto.
  - intros f d chunk Hf Hk. apply every_directory_set; [exact Hf|].
    intros n Hn C. rewrite names_append in Hn. now apply (Hf k d Hk).
Qed.

Lemma run_calls_keeps_well_named shard calls :
  forall w,
    every_directory well_named (fs w) ->
    every_directory well_named (fs (run_calls shard calls w)).
Proof.
  induction calls as [|c rest IH]; intros w Hw; simpl; [exact Hw|].
  apply IH. apply keeps_write_cache_file_touch; [|exact Hw].
  intros s e _. apply well_named_survives_write.
Qed.

(** C5, amended.  Start from an empty cache tree and run any sequence of
    writer calls.  A write whose target range [s, e] lies within the range
    of a cache file that is then in its directory returns [False]; its
    directory is afterwards what it was without the tag of [s, e], so it
    is unchanged unless an earlier write of the same range had left its
    tag there; no other directory changes; and the call has logged, made
    sure of the directory, set and removed its tag, and done nothing else:
    no cache file was opened, written or removed and no request went
    upstream. *)
Theorem covered_write_changes_only_its_tag :
  forall shard calls item_id request_info req_header client d s e file a b,
    let w := run_calls shard calls empty_world in
    let k := cache_dir_of shard request_info in
    target_range request_info = Some (s, e) ->
    fs w k = Some d ->
    In file (names d) ->
    is_cache_file file = true ->
    parse_range file = Some (a, b) ->
    a <= s -> e <= b ->
    let r := write_cache_file shard item_id request_info req_header client w in
    fst r = Ok (PyBool false)
    /\ fs (snd r) k = Some (delete_file (tag_name s e) d)
    /\ (has_file (tag_name s e) d = false -> fs (snd r) k = Some d)
    /\ (forall k', k' <> k -> fs (snd r) k' = fs w k')
    /\ trace (snd r)
       = trace w ++ [EvLog DEBUG; EvMakedirs k; EvOpenW k (tag_name s e);
                     EvListdir k; EvLog WARNING; EvRemove k (tag_name s e)].
Proof.
  intros shard calls item_id request_info req_header client d s e file a b
         w k Ht Hk Hin C P Ha Hb.
  assert (Hnone : forall I : directory -> Prop,
             every_directory I (fs empty_world)).
  { intros I k' d' H. discriminate H. }
  apply (@subsumed_write_is_noop shard item_id request_info req_header client
           w d s e file a b Ht Hk); auto.
  - exact (@run_calls_keeps_well_named shard calls empty_world
             (Hnone well_named) k d Hk).
  - exact (@run_calls_keeps shard calls empty_world
             (Hnone no_containment) k d Hk).
Qed.

(** C5 as stated fails.  A tail write of [1500, 1999] that met a 404 has
    left its tag, and a tail write of [1200, 1999] has then succeeded.
    The write of [1500, 1999], asked again, finds its range covered and
    returns [False], but the directory is not what it was: the tag of the
    first write is gone. *)
Lemma refused_write_removes_stale_tag :
  target_range (Example.request HIT_TAIL 1500 1999) = Some (1500, 1999)
  /\ fs Scene.stale Example.dir
     = Some [("cache_file_1500_1999.tag", []);
             ("cache_file_1200_1999", [Byte.x03])]
  /\ is_cache_file "cache_file_1200_1999" = true
  /\ parse_range "cache_file_1200_1999" = Some (1200, 1999)
  /\ fst (write_cache_file Example.shard "42"
            (Example.request HIT_TAIL 1500 1999) None
            (Example.answers 206 [Byte.x04]) Scene.stale)
     = Ok (PyBool false)
  /\ fs (snd (write_cache_file Example.shard "42"
                (Example.request HIT_TAIL 1500 1999) None
                (Example.answers 206 [Byte.x04]) Scene.stale)) Example.dir
     = Some [("cache_file_1200_1999", [Byte.x03])]
  /\ fs (snd (write_cache_file Example.shard "42"
                (Example.request HIT_TAIL 1500 1999) None
                (Example.answers 206 [Byte.x04]) Scene.stale)) Example.dir
     <> fs Scene.stale Example.dir.
Proof.
  repeat split; try (vm_compute; reflexivity).
  vm_compute. discriminate.
Qed.

Lemma covered_write_changes_only_its_tag_witness :
  (target_range (Example.request HIT_TAIL 1500 1999) = Some (1500, 1999)
   /\ fs (run_calls Example.shard [Scene.failed_tail; Scene.wider_tail]
            empty_world)
         (cache_dir_of Example.shard (Example.request HIT_TAIL 1500 1999))
      = Some [("cache_file_1500_1999.tag", []);
              ("cache_file_1200_1999", [Byte.x03])]
   /\ In "cache_file_1200_1999"
        (names [("cache_file_1500_1999.tag", []);
                ("cache_file_1200_1999", [Byte.x03])])
   /\ is_cache_file "cache_file_1200_1999" = true
   /\ parse_range "cache_file_1200_1999" = Some (1200, 1999)
   /\ 1200 <= 1500 /\ 1999 <= 1999)
  /\ fst (write_cache_file Example.shard "42"
            (Example.request HIT_TAIL 1500 1999) None
            (Example.answers 206 [Byte.x04])
            (run_calls Example.shard [Scene.failed_tail; Scene.wider_tail]
               empty_world))
     = Ok (PyBool false)
  /\ fs (snd (write_cache_file Example.shard "42"
                (Example.request HIT_TAIL 1500 1999) None
                (Example.answers 206 [Byte.x04])
                (run_calls Example.shard [Scene.failed_tail; Scene.wider_tail]
                   empty_world)))
       (cache_dir_of Example.shard (Example.request HIT_TAIL 1500 1999))
     = Some (delete_file (tag_name 1500 1999)
               [("cache_file_1500_1999.tag", []);
                ("cache_file_1200_1999", [Byte.x03])])
  /\ (has_file (tag_name 1500 1999)
        [("cache_file_1500_1999.tag", []);
         ("cache_file_1200_1999", [Byte.x03])] = false ->
      fs (snd (write_cache_file Example.shard "42"
                 (Example.request HIT_TAIL 1500 1999) None
                 (Example.answers 206 [Byte.x04])
                 (run_calls Example.shard
                    [Scene.failed_tail; Scene.wider_tail] empty_world)))
        (cache_dir_of Example.shard (Example.request HIT_TAIL 1500 1999))
      = Some [("cache_file_1500_1999.tag", []);
              ("cache_file_1200_1999", [Byte.x03])])
  /\ (forall k',
        k' <> cache_dir_of Example.shard (Example.request HIT_TAIL 1500 1999) ->
        fs (snd (write_cache_file Example.shard "42"
                   (Example.request HIT_TAIL 1500 1999) None
                   (Example.answers 206 [Byte.x04])
                   (run_calls Example.shard
                      [Scene.failed_tail; Scene.wider_tail] empty_world))) k'
        = fs (run_calls Example.shard [Scene.failed_tail; Scene.wider_tail]
                empty_world) k')
  /\ trace (snd (write_cache_file Example.shard "42"
                   (Example.request HIT_TAIL 1500 1999) None
                   (Example.answers 206 [Byte.x04])
                   (run_calls Example.shard
                      [Scene.failed_tail; Scene.wider_tail] empty_world)))
     = trace (run_calls Example.shard [Scene.failed_tail; Scene.wider_tail]
                empty_world)
       ++ [EvLog DEBUG;
           EvMakedirs
             (cache_dir_of Example.shard (Example.request HIT_TAIL 1500 1999));
           EvOpenW
             (cache_dir_of Example.shard (Example.request HIT_TAIL 1500 1999))
             (tag_name 1500 1999);
           EvListdir
             (cache_dir_of Example.shard (Example.request HIT_TAIL 1500 1999));
           EvLog WARNING;
           EvRemove
             (cache_dir_of Example.shard (Example.request HIT_TAIL 1500 1999))
             (tag_name 1500 1999)].
Proof.
  split.
  { split; [reflexivity|]. split; [vm_compute; reflexivity|].
    split; [simpl; auto|]. split; [vm_compute; reflexivity|].
    split; [vm_compute; reflexivity|]. lia. }
  apply (@covered_write_changes_only_its_tag Example.shard
           [Scene.failed_tail; Scene.wider_tail] "42"
           (Example.request HIT_TAIL 1500 1999) None
           (Example.answers 206 [Byte.x04])
           [("cache_file_1500_1999.tag", []);
            ("cache_file_1200_1999", [Byte.x03])]
           1500 1999 "cache_file_1200_1999" 1200 1999).
  - reflexivity.
  - vm_compute. reflexivity.
  - simpl. auto.
  - vm_compute. reflexivity.
  - vm_compute. reflexivity.
  - lia.
  - lia.
Defined.

(* ===================================================================== *)
(** ** The further properties on concrete runs *)
(* ===================================================================== *)


Lemma narrow_directory_well_named :
  well_named [("cache_file_500_600", [Byte.x07])].
Proof. intros n [<-|[]] _. vm_compute. discriminate. Defined.


Lemma prober_refuses_unready_directory_witness :
  (fs Scene.tagged (cache_dir_of Example.shard (Example.request HIT 0 999))
   = None
   \/ exists d,
        fs Scene.tagged (cache_dir_of Example.shard (Example.request HIT 0 999))
        = Some d
        /\ has_tag d = true)
  /\ fst (get_cache_status Example.shard (Example.request HIT 0 999)
            Scene.tagged)
     = Ok false.
Proof.
  assert (H : fs Scene.tagged
                (cache_dir_of Example.shard (Example.request HIT 0 999))
              = None
              \/ exists d,
                   fs Scene.tagged
                     (cache_dir_of Example.shard (Example.request HIT 0 999))
                   = Some d
                   /\ has_tag d = true).
  { right. eexists. split; reflexivity. }
  split; [exact H|].
  exact (@prober_refuses_unready_directory Example.shard
           (Example.request HIT 0 999) Scene.tagged H).
Defined.


Lemma reader_stream_is_translated_witness :
  (read_cache_file Example.shard (Example.request HIT 11 13) Scene.small
   = (Ok (Some Scene.stream),
      snd (read_cache_file Example.shard (Example.request HIT 11 13)
             Scene.small)))
  /\ exists d a b,
       fs Scene.small (cache_dir_of Example.shard (Example.request HIT 11 13))
       = Some d
       /\ In (gen_file Scene.stream) (names d)
       /\ is_cache_file (gen_file Scene.stream) = true
       /\ parse_range (gen_file Scene.stream) = Some (a, b)
       /\ a <= start_byte (Example.request HIT 11 13) <= b
       /\ gen_dir Scene.stream
          = cache_dir_of Example.shard (Example.request HIT 11 13)
       /\ gen_start Scene.stream = start_byte (Example.request HIT 11 13) - a
       /\ 0 <= gen_start Scene.stream <= b - a
       /\ gen_end Scene.stream = adjusted_end (Example.request HIT 11 13)
       /\ gen_chunk_size Scene.stream = 1024 * 1024.
Proof.
  assert (H : read_cache_file Example.shard (Example.request HIT 11 13)
                Scene.small
              = (Ok (Some Scene.stream),
                 snd (read_cache_file Example.shard
                        (Example.request HIT 11 13) Scene.small))).
  { vm_compute. reflexivity. }
  split; [exact H|].
  exact (@reader_stream_is_translated Example.shard
           (Example.request HIT 11 13) Scene.small Scene.stream _ H).
Defined.


Lemma probed_range_can_be_read_witness :
  (fst (get_cache_status Example.shard (Example.request HIT 11 13)
          Scene.small) = Ok true)
  /\ exists g,
       fst (read_cache_file Example.shard (Example.request HIT 11 13)
              (snd (get_cache_status Example.shard
                      (Example.request HIT 11 13) Scene.small)))
       = Ok (Some g).
Proof.
  assert (H : fst (get_cache_status Example.shard (Example.request HIT 11 13)
                     Scene.small) = Ok true).
  { vm_compute. reflexivity. }
  split; [exact H|].
  exact (@probed_range_can_be_read Example.shard (Example.request HIT 11 13)
           Scene.small H).
Defined.

Lemma reader_stream_content_witness :
  (read_cache_file Example.shard (Example.request HIT 11 13) Scene.small
   = (Ok (Some Scene.stream),
      snd (read_cache_file Example.shard (Example.request HIT 11 13)
             Scene.small))
   /\ fs Scene.small (cache_dir_of Example.shard (Example.request HIT 11 13))
      = Some [("cache_file_10_14",
               [Byte.x01; Byte.x02; Byte.x03; Byte.x04; Byte.x05])])
  /\ exists content chunks,
       lookup_file (gen_file Scene.stream)
         [("cache_file_10_14",
           [Byte.x01; Byte.x02; Byte.x03; Byte.x04; Byte.x05])]
       = Some content
       /\ consume Scene.stream
            (snd (read_cache_file Example.shard (Example.request HIT 11 13)
                    Scene.small))
          = (Ok chunks,
             snd (read_cache_file Example.shard (Example.request HIT 11 13)
                    Scene.small))
       /\ List.concat chunks
          = match adjusted_end (Example.request HIT 11 13) with
            | None => skipn (Z.to_nat (gen_start Scene.stream)) content
            | Some last => file_slice content (gen_start Scene.stream) last
            end.
Proof.
  assert (H : read_cache_file Example.shard (Example.request HIT 11 13)
                Scene.small
              = (Ok (Some Scene.stream),
                 snd (read_cache_file Example.shard
                        (Example.request HIT 11 13) Scene.small))).
  { vm_compute. reflexivity. }
  split; [split; [exact H|reflexivity]|].
  apply (@reader_stream_content Example.shard (Example.request HIT 11 13)
           Scene.small Scene.stream _ _ H).
  reflexivity.
Defined.

Lemma read_file_cuts_even_pieces_witness :
  (fs Example.five Example.dir
   = Some [("f", [Byte.x01; Byte.x02; Byte.x03; Byte.x04; Byte.x05])]
   /\ lookup_file "f"
        [("f", [Byte.x01; Byte.x02; Byte.x03; Byte.x04; Byte.x05])]
      = Some [Byte.x01; Byte.x02; Byte.x03; Byte.x04; Byte.x05]
   /\ 0 <= 1 /\ 0 < 2)
  /\ read_file Example.dir "f" 1 (Some 3) 2 Example.five
     = (Ok (aiter_bytes (Z.to_nat 2)
              (firstn (Z.to_nat (3 + 1 - 1))
                 (skipn (Z.to_nat 1)
                    [Byte.x01; Byte.x02; Byte.x03; Byte.x04; Byte.x05]))),
        Example.five).
Proof.
  split; [repeat split; (reflexivity || lia)|].
  apply (@read_file_cuts_even_pieces Example.five Example.dir
           [("f", [Byte.x01; Byte.x02; Byte.x03; Byte.x04; Byte.x05])]
           "f" [Byte.x01; Byte.x02; Byte.x03; Byte.x04; Byte.x05]
           1 (Some 3) 2).
  - reflexivity.
  - reflexivity.
  - lia.
  - lia.
Defined.

Lemma read_file_empty_cases_witness :
  (exists d content,
      fs Example.five Example.dir = Some d
      /\ lookup_file "f" d = Some content
      /\ Z.of_nat (List.length content) <= 5)
  /\ fst (read_file Example.dir "f" 5 None 2 Example.five) = Ok [].
Proof.
  assert (H : exists d content,
             fs Example.five Example.dir = Some d
             /\ lookup_file "f" d = Some content
             /\ Z.of_nat (List.length content) <= 5).
  { do 2 eexists. split; [reflexivity|]. split; [reflexivity|].
    simpl. lia. }
  split; [exact H|].
  apply (@read_file_empty_cases Example.five Example.dir "f" 5 None 2).
  right. right. left. exact H.
Defined.

Lemma returned_write_leaves_no_tag_witness :
  (target_range (Example.request HIT 0 999) = Some (0, 999)
   /\ write_cache_file Example.shard "42" (Example.request HIT 0 999) None
        (Example.answers 206 [Byte.x01; Byte.x02]) Example.narrow
      = (Ok (PyBool true), Scene.stored))
  /\ exists d',
       fs Scene.stored (cache_dir_of Example.shard (Example.request HIT 0 999))
       = Some d'
       /\ ~ In (tag_name 0 999) (names d')
       /\ (PyBool true = PyBool true \/ PyBool true = PyBool false).
Proof.
  assert (H : write_cache_file Example.shard "42" (Example.request HIT 0 999)
                None (Example.answers 206 [Byte.x01; Byte.x02]) Example.narrow
              = (Ok (PyBool true), Scene.stored)).
  { vm_compute. reflexivity. }
  split; [split; [reflexivity|exact H]|].
  apply (@returned_write_leaves_no_tag Example.shard "42"
           (Example.request HIT 0 999) None
           (Example.answers 206 [Byte.x01; Byte.x02]) Example.narrow
           0 999 (PyBool true) Scene.stored).
  - reflexivity.
  - exact H.
Defined.

Lemma successful_write_stores_body_witness :
  (target_range (Example.request HIT 0 999) = Some (0, 999)
   /\ write_cache_file Example.shard "42" (Example.request HIT 0 999) None
        (Example.answers 206 [Byte.x01; Byte.x02]) Example.narrow
      = (Ok (PyBool true), Scene.stored))
  /\ exists resp d',
       get (Example.answers 206 [Byte.x01; Byte.x02]) = GetReturns resp
       /\ status_code resp = 206
       /\ fs Scene.stored
            (cache_dir_of Example.shard (Example.request HIT 0 999))
          = Some d'
       /\ lookup_file (cache_file_name 0 999) d' = Some (content resp)
       /\ (forall n, In n (names d') -> n <> cache_file_name 0 999 ->
             ~ covers_target 0 999 n /\ ~ within_target 0 999 n).
Proof.
  assert (H : write_cache_file Example.shard "42" (Example.request HIT 0 999)
                None (Example.answers 206 [Byte.x01; Byte.x02]) Example.narrow
              = (Ok (PyBool true), Scene.stored)).
  { vm_compute. reflexivity. }
  split; [split; [reflexivity|exact H]|].
  apply (@successful_write_stores_body Example.shard "42"
           (Example.request HIT 0 999) None
           (Example.answers 206 [Byte.x01; Byte.x02]) Example.narrow
           0 999 Scene.stored).
  - reflexivity.
  - exact H.
Defined.

Lemma written_range_is_probed_witness :
  (target_range (Example.request HIT 0 999) = Some (0, 999)
   /\ write_cache_file Example.shard "42" (Example.request HIT 0 999) None
        (Example.answers 206 [Byte.x01; Byte.x02]) Example.narrow
      = (Ok (PyBool true), Scene.stored)
   /\ has_tag (dir_before Example.narrow
                 (cache_dir_of Example.shard (Example.request HIT 0 999)))
      = false
   /\ cache_dir_of Example.shard (Example.request PARTIAL 700 1999)
      = cache_dir_of Example.shard (Example.request HIT 0 999)
   /\ 0 <= start_byte (Example.request PARTIAL 700 1999) <= 999)
  /\ fst (get_cache_status Example.shard (Example.request PARTIAL 700 1999)
            Scene.stored)
     = Ok true.
Proof.
  assert (H : write_cache_file Example.shard "42" (Example.request HIT 0 999)
                None (Example.answers 206 [Byte.x01; Byte.x02]) Example.narrow
              = (Ok (PyBool true), Scene.stored)).
  { vm_compute. reflexivity. }
  split.
  { split; [reflexivity|]. split; [exact H|]. split; [reflexivity|].
    split; [reflexivity|]. simpl. lia. }
  apply (@written_range_is_probed Example.shard "42"
           (Example.request HIT 0 999) None
           (Example.answers 206 [Byte.x01; Byte.x02]) Example.narrow
           0 999 Scene.stored (Example.request PARTIAL 700 1999)).
  - reflexivity.
  - exact H.
  - reflexivity.
  - apply narrow_directory_well_named.
  - reflexivity.
  - simpl. lia.
Defined.

Lemma failed_upstream_outcomes_witness :
  (target_range (Example.request HIT 0 999) = Some (0, 999)
   /\ get Example.unreachable = GetRaises
   /\ write_cache_file Example.shard "42" (Example.request HIT 0 999) None
        Example.unreachable Example.narrow
      = (Raise FileNotFoundError, Scene.failed))
  /\ exists d',
       fs Scene.failed (cache_dir_of Example.shard (Example.request HIT 0 999))
       = Some d'
       /\ ((Raise FileNotFoundError = Ok (PyBool false)
            /\ ~ In (tag_name 0 999) (names d')
            /\ exists file,
                 In file
                   (names (dir_before Example.narrow
                             (cache_dir_of Example.shard
                                (Example.request HIT 0 999))))
                 /\ covers_target 0 999 file)
           \/ ((exists ex, Raise FileNotFoundError = @Raise py_value ex)
               /\ In (tag_name 0 999) (names d'))).
Proof.
  assert (H : write_cache_file Example.shard "42" (Example.request HIT 0 999)
                None Example.unreachable Example.narrow
              = (Raise FileNotFoundError, Scene.failed)).
  { vm_compute. reflexivity. }
  split; [split; [reflexivity|split; [reflexivity|exact H]]|].
  apply (@failed_upstream_outcomes Example.shard "42"
           (Example.request HIT 0 999) None Example.unreachable Example.narrow
           0 999 (Raise FileNotFoundError) Scene.failed).
  - reflexivity.
  - left. reflexivity.
  - exact H.
Defined.

Lemma raised_write_blocks_prober_witness :
  (target_range (Example.request HIT 0 999) = Some (0, 999)
   /\ write_cache_file Example.shard "42" (Example.request HIT 0 999) None
        Example.unreachable Example.narrow
      = (Raise FileNotFoundError, Scene.failed)
   /\ cache_dir_of Example.shard (Example.request HIT 500 1499)
      = cache_dir_of Example.shard (Example.request HIT 0 999))
  /\ fst (get_cache_status Example.shard (Example.request HIT 500 1499)
            Scene.failed)
     = Ok false.
Proof.
  assert (H : write_cache_file Example.shard "42" (Example.request HIT 0 999)
                None Example.unreachable Example.narrow
              = (Raise FileNotFoundError, Scene.failed)).
  { vm_compute. reflexivity. }
  split; [split; [reflexivity|split; [exact H|reflexivity]]|].
  apply (@raised_write_blocks_prober Example.shard "42"
           (Example.request HIT 0 999) None Example.unreachable Example.narrow
           0 999 FileNotFoundError Scene.failed (Example.request HIT 500 1499)).
  - reflexivity.
  - exact H.
  - reflexivity.
Defined.

Lemma write_stays_in_its_directory_witness :
  (("movie", "/media/other.mkv")
   <> cache_dir_of Example.shard (Example.request HIT 0 999))
  /\ fs (snd (write_cache_file Example.shard "42" (Example.request HIT 0 999)
                None (Example.answers 206 [Byte.x01; Byte.x02])
                Example.narrow))
       ("movie", "/media/other.mkv")
     = fs Example.narrow ("movie", "/media/other.mkv").
Proof.
  assert (H : ("movie", "/media/other.mkv")
              <> cache_dir_of Example.shard (Example.request HIT 0 999)).
  { vm_compute. discriminate. }
  split; [exact H|].
  exact (@write_stays_in_its_directory Example.shard "42"
           (Example.request HIT 0 999) None
           (Example.answers 206 [Byte.x01; Byte.x02]) Example.narrow
           ("movie", "/media/other.mkv") H).
Defined.

Lemma write_touches_only_its_own_witness :
  (target_range (Example.request HIT_TAIL 1000 1999) = Some (1000, 1999))
  /\ (forall n c,
        In (n, c) (dir_before Example.narrow Example.dir) ->
        n <> cache_file_name 1000 1999 -> n <> tag_name 1000 1999 ->
        ~ within_target 1000 1999 n ->
        In (n, c)
          (dir_before
             (snd (write_cache_file Example.shard "42"
                     (Example.request HIT_TAIL 1000 1999) None
                     (Example.answers 206 [Byte.x03]) Example.narrow))
             Example.dir))
  /\ (forall n c,
        In (n, c)
          (dir_before
             (snd (write_cache_file Example.shard "42"
                     (Example.request HIT_TAIL 1000 1999) None
                     (Example.answers 206 [Byte.x03]) Example.narrow))
             Example.dir) ->
        n <> cache_file_name 1000 1999 -> n <> tag_name 1000 1999 ->
        In (n, c) (dir_before Example.narrow Example.dir)).
Proof.
  split; [reflexivity|].
  apply (@write_touches_only_its_own Example.shard "42"
           (Example.request HIT_TAIL 1000 1999) None
           (Example.answers 206 [Byte.x03]) Example.narrow 1000 1999).
  reflexivity.
Defined.

Lemma repeated_write_is_refused_witness :
  (target_range (Example.request HIT 0 999) = Some (0, 999)
   /\ write_cache_file Example.shard "42" (Example.request HIT 0 999) None
        (Example.answers 206 [Byte.x01; Byte.x02]) Example.narrow
      = (Ok (PyBool true), Scene.stored))
  /\ fst (write_cache_file Example.shard "43" (Example.request HIT 0 999) None
            Example.unreachable Scene.stored)
     = Ok (PyBool false)
  /\ (forall k',
        fs (snd (write_cache_file Example.shard "43"
                   (Example.request HIT 0 999) None Example.unreachable
                   Scene.stored)) k'
        = fs Scene.stored k')
  /\ trace (snd (write_cache_file Example.shard "43"
                   (Example.request HIT 0 999) None Example.unreachable
                   Scene.stored))
     = trace Scene.stored
       ++ [EvLog DEBUG; EvMakedirs Example.dir;
           EvOpenW Example.dir (tag_name 0 999); EvListdir Example.dir;
           EvLog WARNING; EvRemove Example.dir (tag_name 0 999)].
Proof.
  assert (H : write_cache_file Example.shard "42" (Example.request HIT 0 999)
                None (Example.answers 206 [Byte.x01; Byte.x02]) Example.narrow
              = (Ok (PyBool true), Scene.stored)).
  { vm_compute. reflexivity. }
  split; [split; [reflexivity|exact H]|].
  apply (@repeated_write_is_refused Example.shard "42"
           (Example.request HIT 0 999) None
           (Example.answers 206 [Byte.x01; Byte.x02]) Example.narrow
           0 999 Scene.stored "43" None Example.unreachable).
  - reflexivity.
  - exact H.
  - apply narrow_directory_well_named.
Defined.


Lemma upstream_request_headers_witness :
  (trace (snd (write_cache_file Example.shard "42" (Example.request HIT 0 999)
                 (Some Scene.caller_headers)
                 (Example.answers 206 [Byte.x01; Byte.x02]) Example.narrow))
   = trace Example.narrow
     ++ trace (snd (write_cache_file Example.shard "42"
                      (Example.request HIT 0 999) (Some Scene.caller_headers)
                      (Example.answers 206 [Byte.x01; Byte.x02])
                      Example.narrow))
   /\ In (EvGet "https://cdn.example/d/movie.mkv"
            [("user-agent", "emby"); ("host", "cdn.example");
             ("range", "bytes=0-999")])
        (trace (snd (write_cache_file Example.shard "42"
                       (Example.request HIT 0 999)
                       (Some Scene.caller_headers)
                       (Example.answers 206 [Byte.x01; Byte.x02])
                       Example.narrow))))
  /\ exists s e host,
       target_range (Example.request HIT 0 999) = Some (s, e)
       /\ nth_error
            (Py.split "/" (raw_url (Example.answers 206 [Byte.x01; Byte.x02])))
            2
          = Some host
       /\ "https://cdn.example/d/movie.mkv"
          = raw_url (Example.answers 206 [Byte.x01; Byte.x02])
       /\ dict_get "range"
            [("user-agent", "emby"); ("host", "cdn.example");
             ("range", "bytes=0-999")]
          = Some ("bytes=" ++ Py.py_str s ++ "-" ++ Py.py_str e)%string
       /\ dict_get "host"
            [("user-agent", "emby"); ("host", "cdn.example");
             ("range", "bytes=0-999")]
          = Some host
       /\ (forall key,
             key <> "range" -> key <> "host" ->
             dict_get key
               [("user-agent", "emby"); ("host", "cdn.example");
                ("range", "bytes=0-999")]
             = dict_get key Scene.caller_headers).
Proof.
  assert (Htr : trace (snd (write_cache_file Example.shard "42"
                              (Example.request HIT 0 999)
                              (Some Scene.caller_headers)
                              (Example.answers 206 [Byte.x01; Byte.x02])
                              Example.narrow))
                = trace Example.narrow
                  ++ trace (snd (write_cache_file Example.shard "42"
                                   (Example.request HIT 0 999)
                                   (Some Scene.caller_headers)
                                   (Example.answers 206 [Byte.x01; Byte.x02])
                                   Example.narrow))).
  { reflexivity. }
  assert (Hin : In (EvGet "https://cdn.example/d/movie.mkv"
                      [("user-agent", "emby"); ("host", "cdn.example");
                       ("range", "bytes=0-999")])
                  (trace (snd (write_cache_file Example.shard "42"
                                 (Example.request HIT 0 999)
                                 (Some Scene.caller_headers)
                                 (Example.answers 206 [Byte.x01; Byte.x02])
                                 Example.narrow)))).
  { vm_compute. do 6 right. left. reflexivity. }
  split; [split; [exact Htr|exact Hin]|].
  exact (@upstream_request_headers Example.shard "42"
           (Example.request HIT 0 999) (Some Scene.caller_headers)
           (Example.answers 206 [Byte.x01; Byte.x02]) Example.narrow
           _ _ _ Htr Hin).
Defined.
